(** * Incremental indicator engines of AutoTradingKit-Pro

    A shallow embedding of the indicator wrappers
    [atklip/controls/momentum/rsi.py] (class [RSI] and the function [rsi]),
    [atklip/controls/momentum/macd new.py] (class [MACD]) and
    [atklip/controls/volatility/kc.py] (class [KC], the completions of a
    full regeneration, an append and a mutate-last, and the queries),
    followed by the properties of the engine: what each completion callback
    does to the derived series, which events submit a job, which invariants
    the merge steps keep, when a calculation returns and what the queries
    read.

    Conventions.
    - A pandas [Series] whose labels are [0 .. n-1] is a list; the position
      in the list is the label.
    - A float is a rational, an infinity or NaN, and the arithmetic on
      rationals is exact: neither the rounding nor the overflow of a 64-bit
      float is modelled.  The properties use of a value only whether it is
      missing, whether it is zero and which sign it has.
    - A numpy array is a list of cells; its dtype is not modelled.  In the
      code an array of integers refuses a missing value: the properties
      that write one cell of the index array ([RSI.callback_update]) are
      stated for rows that have their index.
    - A Python method that mutates [self] and may raise is a computation in
      the monad [M]: the mutations made before the exception stay. *)

From Stdlib Require Import List ZArith QArith Qabs Bool String Sorted Lia.
Import ListNotations.
Local Open Scope Z_scope.

Set Implicit Arguments.

(** ** Floats with missing values *)

Inductive float64 : Type :=
| NaN
| Inf (negative : bool)
| Fin (q : Q).

Definition isna (x : float64) : bool :=
  match x with NaN => true | _ => false end.

Definition notna (x : float64) : bool := negb (isna x).

Definition Qneg_b (q : Q) : bool := (Qnum q <? 0)%Z.
Definition Qzero_b (q : Q) : bool := (Qnum q =? 0)%Z.

Definition fneg (x : float64) : float64 :=
  match x with
  | NaN => NaN
  | Inf s => Inf (negb s)
  | Fin q => Fin (Qred (- q))
  end.

Definition fabs (x : float64) : float64 :=
  match x with
  | NaN => NaN
  | Inf _ => Inf false
  | Fin q => Fin (Qred (Qabs q))
  end.

Definition fadd (x y : float64) : float64 :=
  match x, y with
  | NaN, _ | _, NaN => NaN
  | Inf s, Inf t => if Bool.eqb s t then Inf s else NaN
  | Inf s, Fin _ => Inf s
  | Fin _, Inf t => Inf t
  | Fin a, Fin b => Fin (Qred (a + b))
  end.

Definition fsub (x y : float64) : float64 := fadd x (fneg y).

Definition fmul (x y : float64) : float64 :=
  match x, y with
  | NaN, _ | _, NaN => NaN
  | Inf s, Inf t => Inf (xorb s t)
  | Inf s, Fin q | Fin q, Inf s =>
      if Qzero_b q then NaN else Inf (xorb s (Qneg_b q))
  | Fin a, Fin b => Fin (Qred (a * b))
  end.

(** Division as numpy does it on float arrays: [0/0] is NaN and [x/0] is an
    infinity, nothing is raised.  The quotient of two rationals is exact:
    where the code rounds, or overflows to an infinity, the value here is
    the rational one, of the same sign. *)
Definition fdiv (x y : float64) : float64 :=
  match x, y with
  | NaN, _ | _, NaN => NaN
  | Inf _, Inf _ => NaN
  | Inf s, Fin q => Inf (xorb s (Qneg_b q))
  | Fin _, Inf _ => Fin 0
  | Fin a, Fin b =>
      if Qzero_b b then (if Qzero_b a then NaN else Inf (Qneg_b a))
      else Fin (Qred (a / b))
  end.

(** [x < 0] and [x > 0] on a float; both are false on NaN. *)
Definition flt0 (x : float64) : bool :=
  match x with
  | NaN => false
  | Inf s => s
  | Fin q => Qneg_b q
  end.

Definition fgt0 (x : float64) : bool :=
  match x with
  | NaN => false
  | Inf s => negb s
  | Fin q => (0 <? Qnum q)%Z
  end.

(** [round(6)]: to the nearest multiple of 10^-6, ties to even. *)
Definition round_half_even (q : Q) : Z :=
  let n := Qnum q in
  let d := Z.pos (Qden q) in
  let f := (n / d)%Z in
  let r := (n mod d)%Z in
  match (2 * r ?= d)%Z with
  | Lt => f
  | Gt => (f + 1)%Z
  | Eq => if Z.even f then f else (f + 1)%Z
  end.

Definition round6 (x : float64) : float64 :=
  match x with
  | Fin q => Fin (Qred (round_half_even (q * 1000000) # 1000000))
  | _ => x
  end.

(** A value that is zero or missing. *)
Definition zero_or_nan (x : float64) : bool :=
  match x with
  | NaN => true
  | Inf _ => false
  | Fin q => Qzero_b q
  end.

(** ** Python sequences *)

Section PySeq.
Context {A : Type}.

(** [s.tail(n)]: the last [n] rows; for a negative [n], all rows but the
    first [|n|]. *)
Definition tail (n : Z) (l : list A) : list A :=
  if (n <? 0)%Z then skipn (Z.to_nat (- n)) l
  else skipn (List.length l - Z.to_nat n) l.

(** [s.head(n)]: the first [n] rows; for a negative [n], all rows but the
    last [|n|]; [head(-0)] is [head(0)], the empty frame. *)
Definition head (n : Z) (l : list A) : list A :=
  if (n <? 0)%Z then firstn (List.length l - Z.to_nat (- n)) l
  else firstn (Z.to_nat n) l.

(** Start and stop of a slice after clamping, for a sequence of [len]
    elements and step 1: a negative bound counts from the end. *)
Definition adjust_index (i len : Z) : Z :=
  if (i <? 0)%Z then Z.max 0 (i + len) else Z.min i len.

Definition slice_bounds (start stop : option Z) (len : Z) : Z * Z :=
  let lo := match start with None => 0 | Some i => adjust_index i len end in
  let hi := match stop with None => len | Some j => adjust_index j len end in
  (lo, hi).

(** [l[start:stop]] *)
Definition slice (start stop : option Z) (l : list A) : list A :=
  let '(lo, hi) := slice_bounds start stop (Z.of_nat (List.length l)) in
  firstn (Z.to_nat (hi - lo)) (skipn (Z.to_nat lo) l).

(** [l[-1] = x] on a non-empty sequence. *)
Definition set_last (x : A) (l : list A) : list A := removelast l ++ [x].
End PySeq.

(** ** Exceptions and the monad of a method call *)

Inductive exn : Type :=
| IndexError
| KeyError
| AttributeError
| ValueError.

Inductive res (A : Type) : Type :=
| Ret (a : A)
| Raise (e : exn).
Arguments Ret {A} a.
Arguments Raise {A} e.

(** A method of an object of state [S]: it returns or raises, and leaves a
    state in both cases. *)
Definition M (S A : Type) : Type := S -> res A * S.

Definition ret {S A} (a : A) : M S A := fun s => (Ret a, s).
Definition raise {S A} (e : exn) : M S A := fun s => (Raise e, s).
Definition bind {S A B} (m : M S A) (k : A -> M S B) : M S B :=
  fun s => match m s with
           | (Ret a, s') => k a s'
           | (Raise e, s') => (Raise e, s')
           end.
Definition get {S} : M S S := fun s => (Ret s, s).
Definition modify {S} (f : S -> S) : M S unit := fun s => (Ret tt, f s).
Definition lift {S A} (r : res A) : M S A := fun s => (r, s).

Declare Scope py_scope.
Delimit Scope py_scope with py.
Notation "x <- m ;; k" := (bind m (fun x => k))
  (at level 100, m at next level, right associativity) : py_scope.
Notation "m ;; k" := (bind m (fun _ => k))
  (at level 100, right associativity) : py_scope.

(** The state a call leaves, whether it returned or raised. *)
Definition exec {S A} (m : M S A) (s : S) : S := snd (m s).
Definition outcome {S A} (m : M S A) (s : S) : res A := fst (m s).

(** [seq.iloc[-1]] *)
Definition iloc_last {A} (l : list A) : res A :=
  match rev l with
  | [] => Raise IndexError
  | x :: _ => Ret x
  end.

(** [seq[-1] = x]: an [IndexError] on an empty sequence. *)
Definition assign_last {A} (x : A) (l : list A) : res (list A) :=
  match l with
  | [] => Raise IndexError
  | _ => Ret (set_last x l)
  end.

(** ** Series *)

(** The element of label [i]; missing outside the series. *)
Definition cell (xs : list float64) (i : Z) : float64 :=
  if (i <? 0)%Z then NaN else nth (Z.to_nat i) xs NaN.

Definition labels (n : nat) : list Z := map Z.of_nat (seq 0 n).

(** [xs.diff(p)]: [xs[i] - xs[i-p]], missing where [i-p] is no label. *)
Definition diff (p : Z) (xs : list float64) : list float64 :=
  map (fun i => fsub (cell xs i) (cell xs (i - p))) (labels (List.length xs)).

(** [xs.shift(p)]: the value of label [i-p] at label [i]. *)
Definition shift (p : Z) (xs : list float64) : list float64 :=
  map (fun i => cell xs (i - p)) (labels (List.length xs)).

(** A binary operation on two series: the labels are united and a label
    that one side lacks gives NaN. *)
Definition series_op (f : float64 -> float64 -> float64)
    (xs ys : list float64) : list float64 :=
  map (fun i => f (cell xs i) (cell ys i))
      (labels (Nat.max (List.length xs) (List.length ys))).

(** A series after [dropna()]: the labels that are left, with their values. *)
Definition dropna (xs : list float64) : list (Z * float64) :=
  filter (fun p => notna (snd p)) (combine (labels (List.length xs)) xs).

Definition lookup {B : Type} (l : Z) (s : list (Z * B)) : option B :=
  match find (fun p => (fst p =? l)%Z) s with
  | Some p => Some (snd p)
  | None => None
  end.

Definition has_label {B : Type} (l : Z) (s : list (Z * B)) : bool :=
  existsb (fun p => (fst p =? l)%Z) s.

(** ** Candles *)

Record Candle : Type := mkCandle {
  index : Z;
  open : float64;
  high : float64;
  low : float64;
  close : float64;
  volume : float64
}.

(** [df[source]] on a table of candles.  The table has the six columns the
    spec gives a candle (the candle classes are not part of the sources),
    [index] among them: [calculate] reads [df["index"]] from the same
    table.  Any other name is a [KeyError]. *)
Definition column (source : string) (df : list Candle) : res (list float64) :=
  if String.eqb source "index" then Ret (map (fun c => Fin (inject_Z (index c))) df)
  else if String.eqb source "open" then Ret (map open df)
  else if String.eqb source "high" then Ret (map high df)
  else if String.eqb source "low" then Ret (map low df)
  else if String.eqb source "close" then Ret (map close df)
  else if String.eqb source "volume" then Ret (map volume df)
  else Raise KeyError.

(** Modelled from the spec: the snapshot read of the Candle Source,
    [get_df(n)] of the candle classes, which are not part of the sources:
    the full history, or the last [n] rows. *)
Definition candles_get_df (n : option Z) (table : list Candle) : list Candle :=
  match n with
  | None => table
  | Some n => tail n table
  end.

(** ** Argument validation of the indicator library

    The validators of [pandas_ta.utils] are not part of the sources. *)

(** Modelled from the spec: [v_pos_default], a period that is not positive
    is replaced by the default. *)
Definition v_pos_default (x default : Z) : Z :=
  if (0 <? x)%Z then x else default.

(** Modelled from the spec: [v_series], the series when it has at least
    [length] rows, and no result for a shorter one. *)
Definition v_series (s : list float64) (length : Z) : option (list float64) :=
  if (length <=? Z.of_nat (List.length s))%Z then Some s else None.

(** Modelled from the spec: [v_drift], the difference period, 1 when it is
    not given as a non-zero integer. *)
Definition v_drift (x : Z) : Z := if (x =? 0)%Z then 1 else x.

(** Modelled from the spec: [v_offset], the offset as it is given. *)
Definition v_offset (x : Z) : Z := x.

(** ** Notifications and jobs *)

Inductive Signal : Type :=
| sig_update_candle
| sig_add_candle
| sig_reset_all
| sig_add_historic (n : nat).

(** The completion callback a job was started with. *)
Inductive Callback : Type :=
| cb_first_gen
| cb_gen_historic_data
| cb_add
| cb_update.

(** * The RSI engine ([atklip/controls/momentum/rsi.py]) *)

Module RSI.

(** The result table of [calculate]: columns [index] and [data].  A cell of
    the index column is missing when the alignment of the two columns
    found no index for the row. *)
Definition Row : Type := (option Z * float64)%type.
Definition DataFrame : Type := list Row.
Definition col_index (df : DataFrame) : list (option Z) := map fst df.
Definition col_data (df : DataFrame) : list float64 := map snd df.

(** What [future.result()] gives: the table, or the exception of the job. *)
Definition Future : Type := res DataFrame.

(** The arguments a [HeavyProcess] was started with. *)
Record Job : Type := mkJob {
  job_callback : Callback;
  job_df : list Candle;
  job_source : string;
  job_length : Z;
  job_mamode : string;
  job_drift : Z;
  job_offset : Z
}.

(** The fields of an [RSI] object, the notifications it has emitted and the
    processes it has started that have not completed.  The name and the
    signal connections are left out. *)
Record t : Type := mk {
  source : string;
  length : Z;
  mamode : string;
  drift : Z;
  offset : Z;
  first_gen : bool;
  is_genering : bool;
  is_current_update : bool;
  is_histocric_load : bool;
  df : DataFrame;
  xdata : list (option Z);
  data : list float64;
  emitted : list Signal;
  started : list Job
}.

Definition set_first_gen (b : bool) (s : t) : t :=
  mk (source s) (length s) (mamode s) (drift s) (offset s) b (is_genering s)
     (is_current_update s) (is_histocric_load s) (df s) (xdata s) (data s)
     (emitted s) (started s).
Definition set_is_genering (b : bool) (s : t) : t :=
  mk (source s) (length s) (mamode s) (drift s) (offset s) (first_gen s) b
     (is_current_update s) (is_histocric_load s) (df s) (xdata s) (data s)
     (emitted s) (started s).
Definition set_is_current_update (b : bool) (s : t) : t :=
  mk (source s) (length s) (mamode s) (drift s) (offset s) (first_gen s)
     (is_genering s) b (is_histocric_load s) (df s) (xdata s) (data s)
     (emitted s) (started s).
Definition set_is_histocric_load (b : bool) (s : t) : t :=
  mk (source s) (length s) (mamode s) (drift s) (offset s) (first_gen s)
     (is_genering s) (is_current_update s) b (df s) (xdata s) (data s)
     (emitted s) (started s).
Definition set_df (d : DataFrame) (s : t) : t :=
  mk (source s) (length s) (mamode s) (drift s) (offset s) (first_gen s)
     (is_genering s) (is_current_update s) (is_histocric_load s) d (xdata s)
     (data s) (emitted s) (started s).
Definition set_xdata (x : list (option Z)) (s : t) : t :=
  mk (source s) (length s) (mamode s) (drift s) (offset s) (first_gen s)
     (is_genering s) (is_current_update s) (is_histocric_load s) (df s) x
     (data s) (emitted s) (started s).
Definition set_data (y : list float64) (s : t) : t :=
  mk (source s) (length s) (mamode s) (drift s) (offset s) (first_gen s)
     (is_genering s) (is_current_update s) (is_histocric_load s) (df s)
     (xdata s) y (emitted s) (started s).
Definition set_emitted (e : list Signal) (s : t) : t :=
  mk (source s) (length s) (mamode s) (drift s) (offset s) (first_gen s)
     (is_genering s) (is_current_update s) (is_histocric_load s) (df s)
     (xdata s) (data s) e (started s).
Definition set_started (j : list Job) (s : t) : t :=
  mk (source s) (length s) (mamode s) (drift s) (offset s) (first_gen s)
     (is_genering s) (is_current_update s) (is_histocric_load s) (df s)
     (xdata s) (data s) (emitted s) j.

(** [signal.emit()] *)
Definition emit (g : Signal) : M t unit :=
  modify (fun s => set_emitted (emitted s ++ [g]) s).

(** Modelled from the spec: [HeavyProcess(calculate, callback, df, ...)] and
    its [start()], of [atklip.appmanager.worker.return_worker], which is not
    part of the sources.  The Execution Substrate runs the job off the
    calling thread and invokes the callback once, with the future; from the
    start to that call the job is outstanding. *)
Definition start_process (cb : Callback) (input : list Candle) : M t unit :=
  modify (fun s =>
    set_started (started s ++
      [mkJob cb input (source s) (length s) (mamode s) (drift s) (offset s)]) s).

(** The parameters as the constructor and [change_input] read them from
    [dict_ta_params]; [drift] may be absent. *)
Record Params : Type := mkParams {
  p_source : string;
  p_length : Z;
  p_mamode : string;
  p_drift : option Z
}.

(** [RSI.__init__]: [offset] is read from the key ["drift"], with default 0. *)
Definition init (p : Params) : t :=
  mk (p_source p) (p_length p) (p_mamode p)
     (match p_drift p with Some d => d | None => 1 end)
     (match p_drift p with Some d => d | None => 0 end)
     false true false false [] [] [] [] [].

Section Calculation.

(** [ma(mamode, series, length=length)] of [pandas_ta.ma], which is not part
    of the sources: a series over the same labels. *)
Variable ma : string -> list float64 -> Z -> list float64.

(** The function [rsi], lines 21-115, as [calculate] calls it: [scalar] and
    [talib] are left at their defaults (100, and the pandas branch), no
    keyword argument is given, and the mode, a string, is passed on to [ma]
    as it is. *)
Definition rsi (close : list float64) (length : Z) (mamode : string)
    (drift offset : Z) : option (list float64) :=
  let length := v_pos_default length 14 in
  match v_series close (length + 1) with
  | None => None
  | Some close =>
      let scalar := Fin 100 in
      let drift := v_drift drift in
      let offset := v_offset offset in
      let negative := diff drift close in
      let positive := negative in
      let positive := map (fun x => if flt0 x then Fin 0 else x) positive in
      let negative := map (fun x => if fgt0 x then Fin 0 else x) negative in
      let positive_avg := ma mamode positive length in
      let negative_avg := ma mamode negative length in
      let rsi := series_op fdiv (map (fmul scalar) positive_avg)
                   (series_op fadd positive_avg (map fabs negative_avg)) in
      let rsi := if (offset =? 0)%Z then rsi else shift offset rsi in
      Some rsi
  end.

(** [pd.DataFrame({'index': _index, 'data': y_data})]: the rows are the
    labels of either column, in order; a column has NaN at a label it
    lacks. *)
Definition frame (n : nat) (_index : list (Z * Z)) (y_data : list (Z * float64))
    : DataFrame :=
  map (fun l => (lookup l _index,
                 match lookup l y_data with Some y => y | None => NaN end))
      (filter (fun l => has_label l _index || has_label l y_data) (labels n)).

(** [RSI.calculate].  The result of [rsi] is a [Series], so the branch for
    a table of several columns is not taken. *)
Definition calculate (df : list Candle) (source : string) (length : Z)
    (mamode : string) (drift offset : Z) : Future :=
  match column source df with
  | Raise e => Raise e
  | Ret close =>
      match rsi close length mamode drift offset with
      | None => Raise AttributeError
      | Some INDICATOR =>
          let y_data := map (fun p => (fst p, round6 (snd p))) (dropna INDICATOR) in
          let _len := List.length y_data in
          let _index :=
            tail (Z.of_nat _len)
                 (combine (labels (List.length df)) (map index df)) in
          Ret (frame (Nat.max (List.length df) (List.length INDICATOR))
                     _index y_data)
      end
  end.

(** The future of a job, once it has run. *)
Definition run_job (j : Job) : Future :=
  calculate (job_df j) (job_source j) (job_length j) (job_mamode j)
            (job_drift j) (job_offset j).

End Calculation.

Local Open Scope py_scope.

(** *** Event handlers *)

(** [RSI.fisrt_gen_data]; [candles] is the table the Candle Source holds
    when the handler runs. *)
Definition fisrt_gen_data (candles : list Candle) : M t unit :=
  modify (set_is_current_update false) ;;
  modify (set_is_genering true) ;;
  modify (set_df []) ;;
  let df := candles_get_df None candles in
  start_process cb_first_gen df.

(** [RSI.add_historic] *)
Definition add_historic (candles : list Candle) (n : Z) : M t unit :=
  modify (set_is_genering true) ;;
  modify (set_is_histocric_load false) ;;
  s <- get ;;
  let _pre_len := Z.of_nat (List.length (df s)) in
  let candle_df := candles_get_df None candles in
  let df := head (- _pre_len) candle_df in
  start_process cb_gen_historic_data df.

(** [RSI.add] *)
Definition add (candles : list Candle) (new_candles : list Candle) : M t unit :=
  new_candle <- lift (iloc_last new_candles) ;;
  modify (set_is_current_update false) ;;
  s <- get ;;
  if first_gen s && negb (is_genering s) then
    let df := candles_get_df (Some (length s * 5)%Z) candles in
    start_process cb_add df
  else ret tt.

(** [RSI.update] *)
Definition update (candles : list Candle) (new_candles : list Candle) : M t unit :=
  new_candle <- lift (iloc_last new_candles) ;;
  modify (set_is_current_update false) ;;
  s <- get ;;
  if first_gen s && negb (is_genering s) then
    let df := candles_get_df (Some (length s * 5)%Z) candles in
    start_process cb_update df
  else ret tt.

(** [RSI.change_input]; [candles] is the table of the source the engine is
    bound to after the call, [p] the new parameters if any are given. *)
Definition change_input (candles : list Candle) (p : option Params) : M t unit :=
  modify (fun s =>
    match p with
    | None => s
    | Some p =>
        mk (p_source p) (p_length p) (p_mamode p)
           (match p_drift p with Some d => d | None => 1 end)
           (match p_drift p with Some d => d | None => 0 end)
           (first_gen s) (is_genering s) (is_current_update s)
           (is_histocric_load s) (df s) (xdata s) (data s) (emitted s)
           (started s)
    end) ;;
  modify (set_first_gen false) ;;
  modify (set_is_genering true) ;;
  modify (set_is_current_update false) ;;
  fisrt_gen_data candles.

(** *** Completion callbacks *)

(** [RSI.callback_first_gen] *)
Definition callback_first_gen (future : Future) : M t unit :=
  r <- lift future ;;
  modify (set_df r) ;;
  modify (fun s => set_data (col_data (df s)) (set_xdata (col_index (df s)) s)) ;;
  modify (set_is_genering false) ;;
  s <- get ;;
  (if negb (first_gen s)
   then modify (set_first_gen true) ;; modify (set_is_genering false)
   else ret tt) ;;
  emit sig_reset_all.

(** [RSI.callback_gen_historic_data] *)
Definition callback_gen_historic_data (future : Future) : M t unit :=
  _df <- lift future ;;
  let _len := List.length _df in
  modify (fun s => set_df (_df ++ df s) s) ;;
  modify (fun s => set_xdata (col_index _df ++ xdata s) s) ;;
  modify (fun s => set_data (col_data _df ++ data s) s) ;;
  modify (set_is_genering false) ;;
  s <- get ;;
  (if negb (first_gen s)
   then modify (set_first_gen true) ;; modify (set_is_genering false)
   else ret tt) ;;
  modify (set_is_histocric_load true) ;;
  emit (sig_add_historic _len).

(** [RSI.callback_add] *)
Definition callback_add (future : Future) : M t unit :=
  df_ <- lift future ;;
  last_index <- lift (iloc_last (col_index df_)) ;;
  last_data <- lift (iloc_last (col_data df_)) ;;
  let new_frame := [(last_index, last_data)] in
  modify (fun s => set_df (df s ++ new_frame) s) ;;
  modify (fun s => set_xdata (xdata s ++ [last_index]) s) ;;
  modify (fun s => set_data (data s ++ [last_data]) s) ;;
  emit sig_add_candle.

(** [RSI.callback_update].  The table is written first, then the two
    arrays.  The dtype of [xdata] is not modelled: in the code, writing a
    missing index into an array of integers raises [ValueError] after the
    table was written; here the cell is written.  The two agree on every
    row that has its index, and the last row of the table a job returns
    has it when the moving average keeps the labels of its input. *)
Definition callback_update (future : Future) : M t unit :=
  df_ <- lift future ;;
  last_index <- lift (iloc_last (col_index df_)) ;;
  last_data <- lift (iloc_last (col_data df_)) ;;
  s <- get ;;
  d <- lift (assign_last (last_index, last_data) (df s)) ;;
  modify (set_df d) ;;
  s <- get ;;
  x <- lift (assign_last last_index (xdata s)) ;;
  modify (set_xdata x) ;;
  s <- get ;;
  y <- lift (assign_last last_data (data s)) ;;
  modify (set_data y) ;;
  emit sig_update_candle.

(** The callback of a job. *)
Definition callback (cb : Callback) (future : Future) : M t unit :=
  match cb with
  | cb_first_gen => callback_first_gen future
  | cb_gen_historic_data => callback_gen_historic_data future
  | cb_add => callback_add future
  | cb_update => callback_update future
  end.

(** *** Queries *)

(** [RSI.get_data] *)
Definition get_data (start stop : Z) (s : t)
    : list (option Z) * list float64 :=
  if (List.length (xdata s) =? 0)%nat then ([], [])
  else if (start =? 0)%Z && (stop =? 0)%Z then (xdata s, data s)
  else if (start =? 0)%Z && negb (stop =? 0)%Z then
    (slice None (Some stop) (xdata s), slice None (Some stop) (data s))
  else if negb (start =? 0)%Z && (stop =? 0)%Z then
    (slice (Some start) None (xdata s), slice (Some start) None (data s))
  else
    (slice (Some start) (Some stop) (xdata s),
     slice (Some start) (Some stop) (data s)).

(** [RSI.get_df] *)
Definition get_df (n : option Z) (s : t) : DataFrame :=
  match n with
  | None => df s
  | Some n => if (n =? 0)%Z then df s else tail n (df s)
  end.

(** [RSI.get_last_row_df] *)
Definition get_last_row_df (s : t) : res Row := iloc_last (df s).

(** [RSI.change_source]: the engine is bound to the source that holds
    [candles], and [started_worker] submits [fisrt_gen_data]. *)
Definition change_source (candles : list Candle) : M t unit :=
  fisrt_gen_data candles.

End RSI.

(** ** A moving average to run the engine with

    [pandas_ta.ma] is not part of the sources; the engines take it as
    a parameter.  The runs use a recursive moving average in the manner of
    ["rma"], the default mode of [rsi], which is
    [ewm(alpha = 1/length, min_periods = length).mean()]: the result is
    missing until [length] values have been seen, then it is the running
    average [(1 - alpha) * avg + alpha * x].  Which rows are missing, and
    that an average of zeros is zero, is all the runs depend on. *)

Fixpoint rma_from (alpha : Q) (min_periods : nat) (avg : option float64)
    (count : nat) (xs : list float64) : list float64 :=
  match xs with
  | [] => []
  | x :: xs' =>
      if isna x then
        (match avg with
         | Some a => if (min_periods <=? count)%nat then a else NaN
         | None => NaN
         end) :: rma_from alpha min_periods avg count xs'
      else
        let a' := match avg with
                  | None => x
                  | Some a => fadd (fmul (Fin (1 - alpha)) a) (fmul (Fin alpha) x)
                  end in
        (if (min_periods <=? S count)%nat then a' else NaN)
          :: rma_from alpha min_periods (Some a') (S count) xs'
  end.

Definition rma (mamode : string) (xs : list float64) (length : Z) : list float64 :=
  rma_from (1 / inject_Z length) (Z.to_nat length) None 0 xs.

Definition candle (i : Z) (c : Z) : Candle :=
  mkCandle i (Fin (inject_Z c)) (Fin (inject_Z c)) (Fin (inject_Z c))
           (Fin (inject_Z c)) (Fin 1).

(** * The MACD engine ([atklip/controls/momentum/macd new.py]) *)

Module MACD.

(** A row of the result table: [index], [macd], [histogram], [signalma]. *)
Record Row : Type := mkRow {
  r_index : option Z;
  r_macd : float64;
  r_histogram : float64;
  r_signalma : float64
}.
Definition DataFrame : Type := list Row.
Definition Future : Type := res DataFrame.

(** The table [macd] returns: named columns over the labels of [close]. *)
Definition Columns : Type := list (string * list float64).

Definition contains (name pat : string) : bool :=
  match String.index 0 pat name with Some _ => true | None => false end.

(** [INDICATOR[name]] *)
Definition getitem (INDICATOR : Columns) (name : string) : res (list float64) :=
  match find (fun c => String.eqb (fst c) name) INDICATOR with
  | Some c => Ret (snd c)
  | None => Raise KeyError
  end.

(** The loop over [column_names] that picks the three columns by name. *)
Definition pick_names (column_names : list string) : string * string * string :=
  fold_left
    (fun '(macd_name, histogram_name, signalma_name) name =>
       if contains name "MACD" then (name, histogram_name, signalma_name)
       else if contains name "HISTOGRAM" then (macd_name, name, signalma_name)
       else if contains name "SIGNAL" then (macd_name, histogram_name, name)
       else (macd_name, histogram_name, signalma_name))
    column_names (EmptyString, EmptyString, EmptyString).

Record Job : Type := mkJob {
  job_callback : Callback;
  job_df : list Candle;
  job_source : string;
  job_fast_period : Z;
  job_slow_period : Z;
  job_signal_period : Z;
  job_mamode : string;
  job_offset : Z
}.

Record t : Type := mk {
  source : string;
  slow_period : Z;
  fast_period : Z;
  signal_period : Z;
  mamode : string;
  offset : Z;
  first_gen : bool;
  is_genering : bool;
  is_current_update : bool;
  is_histocric_load : bool;
  df : DataFrame;
  xdata : list (option Z);
  macd_data : list float64;
  histogram : list float64;
  signalma : list float64;
  emitted : list Signal;
  started : list Job
}.

Definition set_flags (fg ig cu hl : bool) (s : t) : t :=
  mk (source s) (slow_period s) (fast_period s) (signal_period s) (mamode s)
     (offset s) fg ig cu hl (df s) (xdata s) (macd_data s) (histogram s)
     (signalma s) (emitted s) (started s).
Definition set_first_gen (b : bool) (s : t) : t :=
  set_flags b (is_genering s) (is_current_update s) (is_histocric_load s) s.
Definition set_is_genering (b : bool) (s : t) : t :=
  set_flags (first_gen s) b (is_current_update s) (is_histocric_load s) s.
Definition set_is_current_update (b : bool) (s : t) : t :=
  set_flags (first_gen s) (is_genering s) b (is_histocric_load s) s.
Definition set_is_histocric_load (b : bool) (s : t) : t :=
  set_flags (first_gen s) (is_genering s) (is_current_update s) b s.
Definition set_df (d : DataFrame) (s : t) : t :=
  mk (source s) (slow_period s) (fast_period s) (signal_period s) (mamode s)
     (offset s) (first_gen s) (is_genering s) (is_current_update s)
     (is_histocric_load s) d (xdata s) (macd_data s) (histogram s)
     (signalma s) (emitted s) (started s).
Definition set_xdata (x : list (option Z)) (s : t) : t :=
  mk (source s) (slow_period s) (fast_period s) (signal_period s) (mamode s)
     (offset s) (first_gen s) (is_genering s) (is_current_update s)
     (is_histocric_load s) (df s) x (macd_data s) (histogram s)
     (signalma s) (emitted s) (started s).
Definition set_macd_data (y : list float64) (s : t) : t :=
  mk (source s) (slow_period s) (fast_period s) (signal_period s) (mamode s)
     (offset s) (first_gen s) (is_genering s) (is_current_update s)
     (is_histocric_load s) (df s) (xdata s) y (histogram s)
     (signalma s) (emitted s) (started s).
Definition set_histogram (y : list float64) (s : t) : t :=
  mk (source s) (slow_period s) (fast_period s) (signal_period s) (mamode s)
     (offset s) (first_gen s) (is_genering s) (is_current_update s)
     (is_histocric_load s) (df s) (xdata s) (macd_data s) y
     (signalma s) (emitted s) (started s).
Definition set_signalma (y : list float64) (s : t) : t :=
  mk (source s) (slow_period s) (fast_period s) (signal_period s) (mamode s)
     (offset s) (first_gen s) (is_genering s) (is_current_update s)
     (is_histocric_load s) (df s) (xdata s) (macd_data s) (histogram s)
     y (emitted s) (started s).
Definition set_emitted (e : list Signal) (s : t) : t :=
  mk (source s) (slow_period s) (fast_period s) (signal_period s) (mamode s)
     (offset s) (first_gen s) (is_genering s) (is_current_update s)
     (is_histocric_load s) (df s) (xdata s) (macd_data s) (histogram s)
     (signalma s) e (started s).
Definition set_started (j : list Job) (s : t) : t :=
  mk (source s) (slow_period s) (fast_period s) (signal_period s) (mamode s)
     (offset s) (first_gen s) (is_genering s) (is_current_update s)
     (is_histocric_load s) (df s) (xdata s) (macd_data s) (histogram s)
     (signalma s) (emitted s) j.

Definition emit (g : Signal) : M t unit :=
  modify (fun s => set_emitted (emitted s ++ [g]) s).

(** Modelled from the spec: the start of a [HeavyProcess], as for [RSI]. *)
Definition start_process (cb : Callback) (input : list Candle) : M t unit :=
  modify (fun s =>
    set_started (started s ++
      [mkJob cb input (source s) (fast_period s) (slow_period s)
             (signal_period s) (mamode s) (offset s)]) s).

Record Params : Type := mkParams {
  p_source : string;
  p_slow_period : Z;
  p_fast_period : Z;
  p_signal_period : Z;
  p_mamode : string;
  p_drift : option Z
}.

(** [MACD.__init__] *)
Definition init (p : Params) : t :=
  mk (p_source p) (p_slow_period p) (p_fast_period p) (p_signal_period p)
     (p_mamode p) (match p_drift p with Some d => d | None => 0 end)
     false true false false [] [] [] [] [] [] [].

Section Calculation.

Variable ma : string -> list float64 -> Z -> list float64.

(** [s.first_valid_index()], as a number of leading rows to skip; slicing
    from [None] keeps every row. *)
Fixpoint first_valid_index (xs : list float64) : option nat :=
  match xs with
  | [] => None
  | x :: xs' =>
      if notna x then Some 0%nat
      else match first_valid_index xs' with
           | Some i => Some (S i)
           | None => None
           end
  end.

(** A series given the labels [0 .. n-1]. *)
Definition reindex (n : nat) (xs : list float64) : list float64 :=
  map (cell xs) (labels n).

(** The function [macd], lines 18-147, as the engine calls it: [talib] and
    [asmode] are off and no keyword argument is given.  The numbers in the
    column names are left out; they contain no letter. *)
Definition macd (close : list float64) (fast slow signal : Z)
    (mamode : string) (offset : Z) : option Columns :=
  let fast := v_pos_default fast 12 in
  let slow := v_pos_default slow 26 in
  let signal := v_pos_default signal 9 in
  let '(fast, slow) := if (slow <? fast)%Z then (slow, fast) else (fast, slow) in
  let _length := (slow + signal - 1)%Z in
  match v_series close _length with
  | None => None
  | Some close =>
      let offset := v_offset offset in
      let fastma := ma mamode close fast in
      let slowma := ma mamode close slow in
      let macd := series_op fsub fastma slowma in
      let skipped := match first_valid_index macd with
                     | Some i => i
                     | None => 0%nat
                     end in
      let macd_fvi := skipn skipped macd in
      let signalma := repeat NaN skipped ++ ma mamode macd_fvi signal in
      let histogram := series_op fsub macd signalma in
      let shifted (xs : list float64) :=
        if (offset =? 0)%Z then xs else shift offset xs in
      let n := List.length close in
      Some [("MACD"%string, reindex n (shifted macd));
            ("HISTOGRAMh"%string, reindex n (shifted histogram));
            ("SIGNALs"%string, reindex n (shifted signalma))]
  end.

(** [series.dropna().round(6)], with the labels that are left. *)
Definition dropna_round (xs : list float64) : list (Z * float64) :=
  map (fun p => (fst p, round6 (snd p))) (dropna xs).

Definition value_at (l : Z) (s : list (Z * float64)) : float64 :=
  match lookup l s with Some y => y | None => NaN end.

(** [pd.DataFrame({'index': .., 'macd': .., 'histogram': .., 'signalma': ..})] *)
Definition frame (n : nat) (_index : list (Z * Z))
    (m h g : list (Z * float64)) : DataFrame :=
  map (fun l => mkRow (lookup l _index) (value_at l m) (value_at l h)
                      (value_at l g))
      (filter (fun l => has_label l _index || has_label l m
                        || has_label l h || has_label l g)
              (labels n)).

Definition min4 (a b c d : Z) : Z := Z.min (Z.min a b) (Z.min c d).

(** [MACD.calculate] *)
Definition calculate (df : list Candle) (source : string)
    (fast_period slow_period signal_period : Z) (mamode : string)
    (offset : Z) : Future :=
  match column source df with
  | Raise e => Raise e
  | Ret close =>
      match macd close fast_period slow_period signal_period mamode offset with
      | None => Raise AttributeError
      | Some INDICATOR =>
          let '(macd_name, histogram_name, signalma_name) :=
            pick_names (map fst INDICATOR) in
          match getitem INDICATOR macd_name,
                getitem INDICATOR histogram_name,
                getitem INDICATOR signalma_name with
          | Ret m, Ret h, Ret g =>
              let macd_data := dropna_round m in
              let histogram := dropna_round h in
              let signalma := dropna_round g in
              let _len :=
                min4 (Z.of_nat (List.length histogram))
                     (Z.of_nat (List.length macd_data))
                     (Z.of_nat (List.length signalma))
                     (Z.of_nat (List.length df) - slow_period) in
              let _index := combine (labels (List.length df)) (map index df) in
              Ret (frame (List.length df) (tail _len _index)
                         (tail _len macd_data) (tail _len histogram)
                         (tail _len signalma))
          | _, _, _ => Raise KeyError
          end
      end
  end.

(** [MACD.paire_data]: any exception gives three empty series. *)
Definition paire_data (INDICATOR : option Columns)
    : list (Z * float64) * list (Z * float64) * list (Z * float64) :=
  match INDICATOR with
  | None => ([], [], [])
  | Some INDICATOR =>
      let '(macd_name, histogram_name, signalma_name) :=
        pick_names (map fst INDICATOR) in
      match getitem INDICATOR macd_name,
            getitem INDICATOR histogram_name,
            getitem INDICATOR signalma_name with
      | Ret m, Ret h, Ret g => (dropna_round m, dropna_round h, dropna_round g)
      | _, _, _ => ([], [], [])
      end
  end.

Local Open Scope py_scope.

(** [MACD.add_update_calculate] *)
Definition add_update_calculate (df : list Candle)
    : M t (list (Z * float64) * list (Z * float64) * list (Z * float64)) :=
  s <- get ;;
  close <- lift (column (source s) df) ;;
  let INDICATOR := macd close (fast_period s) (slow_period s)
                        (signal_period s) (mamode s) (offset s) in
  ret (paire_data INDICATOR).

Definition values (s : list (Z * float64)) : list float64 := map snd s.

(** [MACD.add]: the computation runs in the handler itself. *)
Definition add (candles : list Candle) (new_candles : list Candle) : M t unit :=
  new_candle <- lift (iloc_last new_candles) ;;
  modify (set_is_current_update false) ;;
  s <- get ;;
  if first_gen s && negb (is_genering s) then
    let df_ := candles_get_df (Some (slow_period s * 5)%Z) candles in
    r <- add_update_calculate df_ ;;
    let '(macd_data_, histogram_, signalma_) := r in
    m <- lift (iloc_last (values macd_data_)) ;;
    h <- lift (iloc_last (values histogram_)) ;;
    g <- lift (iloc_last (values signalma_)) ;;
    let new_frame := [mkRow (Some (index new_candle)) m h g] in
    modify (fun s => set_df (df s ++ new_frame) s) ;;
    modify (fun s => set_xdata (xdata s ++ [Some (index new_candle)]) s) ;;
    modify (fun s => set_macd_data (macd_data s ++ [m]) s) ;;
    modify (fun s => set_histogram (histogram s ++ [h]) s) ;;
    modify (fun s => set_signalma (signalma s ++ [g]) s) ;;
    emit sig_add_candle
  else ret tt.

(** [MACD.update] *)
Definition update (candles : list Candle) (new_candles : list Candle) : M t unit :=
  new_candle <- lift (iloc_last new_candles) ;;
  modify (set_is_current_update false) ;;
  s <- get ;;
  if first_gen s && negb (is_genering s) then
    let df_ := candles_get_df (Some (slow_period s * 5)%Z) candles in
    r <- add_update_calculate df_ ;;
    let '(macd_data_, histogram_, signalma_) := r in
    m <- lift (iloc_last (values macd_data_)) ;;
    h <- lift (iloc_last (values histogram_)) ;;
    g <- lift (iloc_last (values signalma_)) ;;
    s <- get ;;
    d <- lift (assign_last (mkRow (Some (index new_candle)) m h g) (df s)) ;;
    modify (set_df d) ;;
    s <- get ;;
    x <- lift (assign_last (Some (index new_candle)) (xdata s)) ;;
    modify (set_xdata x) ;;
    s <- get ;;
    y <- lift (assign_last m (macd_data s)) ;;
    modify (set_macd_data y) ;;
    s <- get ;;
    y <- lift (assign_last h (histogram s)) ;;
    modify (set_histogram y) ;;
    s <- get ;;
    y <- lift (assign_last g (signalma s)) ;;
    modify (set_signalma y) ;;
    emit sig_update_candle
  else ret tt.

End Calculation.

Local Open Scope py_scope.

(** [MACD.fisrt_gen_data] *)
Definition fisrt_gen_data (candles : list Candle) : M t unit :=
  modify (set_is_current_update false) ;;
  modify (set_is_genering true) ;;
  modify (set_df []) ;;
  let df := candles_get_df None candles in
  start_process cb_first_gen df.

(** [MACD.add_historic] *)
Definition add_historic (candles : list Candle) (n : Z) : M t unit :=
  modify (set_is_genering true) ;;
  modify (set_is_histocric_load false) ;;
  s <- get ;;
  let _pre_len := Z.of_nat (List.length (df s)) in
  let candle_df := candles_get_df None candles in
  let df := head (- _pre_len) candle_df in
  start_process cb_gen_historic_data df.

(** [MACD.callback_first_gen] *)
Definition callback_first_gen (future : Future) : M t unit :=
  r <- lift future ;;
  modify (set_df r) ;;
  modify (fun s =>
    set_signalma (map r_signalma (df s))
      (set_histogram (map r_histogram (df s))
        (set_macd_data (map r_macd (df s))
          (set_xdata (map r_index (df s)) s)))) ;;
  modify (set_is_genering false) ;;
  s <- get ;;
  (if negb (first_gen s)
   then modify (set_first_gen true) ;; modify (set_is_genering false)
   else ret tt) ;;
  emit sig_reset_all.

(** [MACD.callback_gen_historic_data] *)
Definition callback_gen_historic_data (future : Future) : M t unit :=
  _df <- lift future ;;
  let _len := List.length _df in
  modify (fun s => set_df (_df ++ df s) s) ;;
  modify (fun s => set_xdata (map r_index _df ++ xdata s) s) ;;
  modify (fun s => set_macd_data (map r_macd _df ++ macd_data s) s) ;;
  modify (fun s => set_histogram (map r_histogram _df ++ histogram s) s) ;;
  modify (fun s => set_signalma (map r_signalma _df ++ signalma s) s) ;;
  modify (set_is_genering false) ;;
  s <- get ;;
  (if negb (first_gen s)
   then modify (set_first_gen true) ;; modify (set_is_genering false)
   else ret tt) ;;
  modify (set_is_histocric_load true) ;;
  emit (sig_add_historic _len).

(** [MACD.get_data] *)
Definition get_data (start stop : Z) (s : t)
    : list (option Z) * list float64 * list float64 * list float64 :=
  if (List.length (xdata s) =? 0)%nat then ([], [], [], [])
  else if (start =? 0)%Z && (stop =? 0)%Z then
    (xdata s, macd_data s, signalma s, histogram s)
  else if (start =? 0)%Z && negb (stop =? 0)%Z then
    (slice None (Some stop) (xdata s), slice None (Some stop) (macd_data s),
     slice None (Some stop) (signalma s), slice None (Some stop) (histogram s))
  else if negb (start =? 0)%Z && (stop =? 0)%Z then
    (slice (Some start) None (xdata s), slice (Some start) None (macd_data s),
     slice (Some start) None (signalma s), slice (Some start) None (histogram s))
  else
    (slice (Some start) (Some stop) (xdata s),
     slice (Some start) (Some stop) (macd_data s),
     slice (Some start) (Some stop) (signalma s),
     slice (Some start) (Some stop) (histogram s)).

(** [MACD.get_df] *)
Definition get_df (n : option Z) (s : t) : DataFrame :=
  match n with
  | None => df s
  | Some n => if (n =? 0)%Z then df s else tail n (df s)
  end.

(** [MACD.get_last_row_df] *)
Definition get_last_row_df (s : t) : res Row := iloc_last (df s).

(** [MACD.change_input]; [candles] is the table of the source the engine is
    bound to after the call, [p] the new parameters if any are given. *)
Definition change_input (candles : list Candle) (p : option Params) : M t unit :=
  modify (fun s =>
    match p with
    | None => s
    | Some p =>
        mk (p_source p) (p_slow_period p) (p_fast_period p) (p_signal_period p)
           (p_mamode p) (match p_drift p with Some d => d | None => 0 end)
           (first_gen s) (is_genering s) (is_current_update s)
           (is_histocric_load s) (df s) (xdata s) (macd_data s) (histogram s)
           (signalma s) (emitted s) (started s)
    end) ;;
  modify (set_first_gen false) ;;
  modify (set_is_genering true) ;;
  modify (set_is_current_update false) ;;
  fisrt_gen_data candles.

End MACD.

(** * The KC engine ([atklip/controls/volatility/kc.py]) *)

Module KC.

(** A row of the result table: [index], [lb], [cb], [ub]. *)
Record Row : Type := mkRow {
  r_index : option Z;
  r_lb : float64;
  r_cb : float64;
  r_ub : float64
}.
Definition DataFrame : Type := list Row.
Definition Future : Type := res DataFrame.

(** The fields of a [KC] object that the completions modelled below read
    or write, and the notifications it has emitted. *)
Record t : Type := mk {
  first_gen : bool;
  is_genering : bool;
  df : DataFrame;
  xdata : list (option Z);
  lb : list float64;
  cb : list float64;
  ub : list float64;
  emitted : list Signal
}.

Definition set_df (d : DataFrame) (s : t) : t :=
  mk (first_gen s) (is_genering s) d (xdata s) (lb s) (cb s) (ub s) (emitted s).
Definition set_xdata (x : list (option Z)) (s : t) : t :=
  mk (first_gen s) (is_genering s) (df s) x (lb s) (cb s) (ub s) (emitted s).
Definition set_lb (y : list float64) (s : t) : t :=
  mk (first_gen s) (is_genering s) (df s) (xdata s) y (cb s) (ub s) (emitted s).
Definition set_cb (y : list float64) (s : t) : t :=
  mk (first_gen s) (is_genering s) (df s) (xdata s) (lb s) y (ub s) (emitted s).
Definition set_ub (y : list float64) (s : t) : t :=
  mk (first_gen s) (is_genering s) (df s) (xdata s) (lb s) (cb s) y (emitted s).
Definition emit (g : Signal) : M t unit :=
  modify (fun s =>
    mk (first_gen s) (is_genering s) (df s) (xdata s) (lb s) (cb s) (ub s)
       (emitted s ++ [g])).

Local Open Scope py_scope.

(** [KC.callback_update] *)
Definition callback_update (future : Future) : M t unit :=
  df_ <- lift future ;;
  last_index <- lift (iloc_last (map r_index df_)) ;;
  last_lb <- lift (iloc_last (map r_lb df_)) ;;
  last_cb <- lift (iloc_last (map r_cb df_)) ;;
  last_ub <- lift (iloc_last (map r_ub df_)) ;;
  s <- get ;;
  d <- lift (assign_last (mkRow last_index last_lb last_cb last_ub) (df s)) ;;
  modify (set_df d) ;;
  s <- get ;;
  x <- lift (assign_last last_index (xdata s)) ;;
  modify (set_xdata x) ;;
  s <- get ;;
  y <- lift (assign_last last_lb (lb s)) ;;
  modify (set_lb y) ;;
  s <- get ;;
  y <- lift (assign_last last_cb (cb s)) ;;
  modify (set_cb y) ;;
  s <- get ;;
  y <- lift (assign_last last_ub (ub s)) ;;
  modify (set_ub y) ;;
  emit sig_update_candle.

Definition set_first_gen (b : bool) (s : t) : t :=
  mk b (is_genering s) (df s) (xdata s) (lb s) (cb s) (ub s) (emitted s).
Definition set_is_genering (b : bool) (s : t) : t :=
  mk (first_gen s) b (df s) (xdata s) (lb s) (cb s) (ub s) (emitted s).

(** [KC.callback_first_gen] *)
Definition callback_first_gen (future : Future) : M t unit :=
  r <- lift future ;;
  modify (set_df r) ;;
  modify (fun s =>
    set_ub (map r_ub (df s))
      (set_cb (map r_cb (df s))
        (set_lb (map r_lb (df s))
          (set_xdata (map r_index (df s)) s)))) ;;
  modify (set_is_genering false) ;;
  s <- get ;;
  (if negb (first_gen s)
   then modify (set_first_gen true) ;; modify (set_is_genering false)
   else ret tt) ;;
  emit sig_reset_all.

(** [KC.callback_add] *)
Definition callback_add (future : Future) : M t unit :=
  df_ <- lift future ;;
  last_index <- lift (iloc_last (map r_index df_)) ;;
  last_lb <- lift (iloc_last (map r_lb df_)) ;;
  last_cb <- lift (iloc_last (map r_cb df_)) ;;
  last_ub <- lift (iloc_last (map r_ub df_)) ;;
  let new_frame := [mkRow last_index last_lb last_cb last_ub] in
  modify (fun s => set_df (df s ++ new_frame) s) ;;
  modify (fun s => set_xdata (xdata s ++ [last_index]) s) ;;
  modify (fun s => set_lb (lb s ++ [last_lb]) s) ;;
  modify (fun s => set_cb (cb s ++ [last_cb]) s) ;;
  modify (fun s => set_ub (ub s ++ [last_ub]) s) ;;
  emit sig_add_candle.

(** [KC.get_data] *)
Definition get_data (start stop : Z) (s : t)
    : list (option Z) * list float64 * list float64 * list float64 :=
  if (List.length (xdata s) =? 0)%nat then ([], [], [], [])
  else if (start =? 0)%Z && (stop =? 0)%Z then
    (xdata s, lb s, cb s, ub s)
  else if (start =? 0)%Z && negb (stop =? 0)%Z then
    (slice None (Some stop) (xdata s), slice None (Some stop) (lb s),
     slice None (Some stop) (cb s), slice None (Some stop) (ub s))
  else if negb (start =? 0)%Z && (stop =? 0)%Z then
    (slice (Some start) None (xdata s), slice (Some start) None (lb s),
     slice (Some start) None (cb s), slice (Some start) None (ub s))
  else
    (slice (Some start) (Some stop) (xdata s),
     slice (Some start) (Some stop) (lb s),
     slice (Some start) (Some stop) (cb s),
     slice (Some start) (Some stop) (ub s)).

(** [KC.get_last_row_df] *)
Definition get_last_row_df (s : t) : res Row := iloc_last (df s).

End KC.

(** * An RSI engine bound to its Candle Source *)

Module System.

(** The table of the Candle Source and the engine subscribed to it. *)
Record t : Type := mk {
  table : list Candle;
  engine : RSI.t
}.

(** The four change notifications of the Candle Source. *)
Inductive Event : Type :=
| ev_reset (new_table : list Candle)
| ev_append (new_candle : Candle)
| ev_update (last_candle : Candle)
| ev_historic (older : list Candle).

(** Modelled from the spec: the Candle Source, whose classes are not part of
    the sources.  A reset replaces the table, an append adds a row at the
    end, a mutate-last replaces the last row, a historic load puts a batch
    of older rows before the first; the notification is sent after the
    change. *)
Definition source_step (ev : Event) (table : list Candle) : list Candle :=
  match ev with
  | ev_reset new_table => new_table
  | ev_append c => table ++ [c]
  | ev_update c => removelast table ++ [c]
  | ev_historic older => older ++ table
  end.

(** The slot connected to the notification, as [connect_signals] wires them
    (through [started_worker], [add_worker], [update_worker] and
    [add_historic_worker]). *)
Definition handler (ev : Event) (table : list Candle) : M RSI.t unit :=
  match ev with
  | ev_reset _ => RSI.fisrt_gen_data table
  | ev_append c => RSI.add table [c]
  | ev_update c => RSI.update table [c]
  | ev_historic older => RSI.add_historic table (Z.of_nat (List.length older))
  end.

(** The Candle Source changes and the engine's handler runs; the job the
    handler may have started stays outstanding. *)
Definition deliver (ev : Event) (sys : t) : t :=
  let table' := source_step ev (table sys) in
  mk table' (exec (handler ev table') (engine sys)).


Section Completion.

Variable ma : string -> list float64 -> Z -> list float64.

(** Modelled from the spec: the completion of an outstanding job; its
    callback is called once with the future, on the engine. *)
Definition complete_job (j : RSI.Job) (e : RSI.t) : RSI.t :=
  exec (RSI.callback (RSI.job_callback j) (RSI.run_job ma j)) e.

(** The oldest outstanding job completes. *)
Definition complete (sys : t) : t :=
  match RSI.started (engine sys) with
  | [] => sys
  | j :: rest =>
      mk (table sys) (complete_job j (RSI.set_started rest (engine sys)))
  end.

(** An event processed to completion: delivered, then the job it started
    completes before anything else happens. *)
Definition process (ev : Event) (sys : t) : t := complete (deliver ev sys).

Definition run (evs : list Event) (sys : t) : t :=
  fold_left (fun sys ev => process ev sys) evs sys.

End Completion.

End System.

(** ** Sample runs *)

Definition p2 : RSI.Params := RSI.mkParams "close" 2 "rma" None.
Definition p2_drift3 : RSI.Params := RSI.mkParams "close" 2 "rma" (Some 3).

Definition candles_of (rows : list (Z * Z)) : list Candle :=
  map (fun r => candle (fst r) (snd r)) rows.

(** Twelve candles; the close does not move after the third. *)
Definition table_flat_end : list Candle :=
  candles_of [(0,1); (1,2); (2,3); (3,3); (4,3); (5,3); (6,3); (7,3); (8,3);
              (9,3); (10,3); (11,3)].

(** Six candles whose close moves at every row. *)
Definition table_moving : list Candle :=
  candles_of [(0,1); (1,2); (2,4); (3,3); (4,5); (5,6)].

(** Twelve candles whose close moves at every row. *)
Definition table_moving12 : list Candle :=
  candles_of [(0,1); (1,2); (2,4); (3,3); (4,5); (5,6); (6,4); (7,5); (8,7);
              (9,6); (10,8); (11,9)].

(** Four candles: fewer than the rows a difference period of 3 needs. *)
Definition table_short : list Candle :=
  candles_of [(20,1); (21,2); (22,4); (23,3)].

Definition engine0 : System.t := System.mk [] (RSI.init p2).

(** A reset, an append whose window is flat, an append that moves, and a
    historic load of three older candles. *)
Definition events_lost_append : list System.Event :=
  [System.ev_reset table_flat_end;
   System.ev_append (candle 12 3);
   System.ev_append (candle 13 4);
   System.ev_historic (candles_of [(-3,5); (-2,4); (-1,6)])].

(** A reset, an append, a mutate-last and a historic load, on closes that
    move. *)
Definition events_moving : list System.Event :=
  [System.ev_reset table_moving;
   System.ev_append (candle 6 4);
   System.ev_update (candle 6 5);
   System.ev_historic (candles_of [(-2,3); (-1,2)])].

(** The engine after a completed reset on [table_moving]. *)
Definition ready_system : System.t :=
  System.process rma (System.ev_reset table_moving) engine0.

Definition pM : MACD.Params := MACD.mkParams "close" 3 2 2 "rma" None.

(** A MACD engine after a completed full regeneration on
    [table_moving12]. *)
Definition ready_macd : MACD.t :=
  exec (MACD.callback_first_gen
          (MACD.calculate rma table_moving12 "close" 2 3 2 "rma" 0))
       (MACD.init pM).

Definition ready_kc : KC.t :=
  KC.mk true false
        [KC.mkRow (Some 0) (Fin 1) (Fin 2) (Fin 3);
         KC.mkRow (Some 1) (Fin 2) (Fin 3) (Fin 4)]
        [Some 0; Some 1] [Fin 1; Fin 2] [Fin 2; Fin 3] [Fin 3; Fin 4] [].

(** The values the sample runs meet. *)
Definition macd_table : list Candle := table_moving12 ++ [candle 12 7].
Definition macd_close : list float64 :=
  Eval vm_compute in map close (candles_get_df (Some 15) macd_table).
Definition macd_series :=
  Eval vm_compute in MACD.paire_data (MACD.macd rma macd_close 2 3 2 "rma" 0).
Definition macd_m := Eval vm_compute in fst (fst macd_series).
Definition macd_h := Eval vm_compute in snd (fst macd_series).
Definition macd_g := Eval vm_compute in snd macd_series.
Definition last_value (s : list (Z * float64)) : float64 :=
  match iloc_last (MACD.values s) with Ret v => v | Raise _ => NaN end.
Definition macd_vm := Eval vm_compute in last_value macd_m.
Definition macd_vh := Eval vm_compute in last_value macd_h.
Definition macd_vg := Eval vm_compute in last_value macd_g.

Definition append_window : list Candle :=
  Eval vm_compute in candles_get_df (Some 10) (table_moving ++ [candle 6 4]).
Definition append_result : RSI.DataFrame :=
  Eval vm_compute in
    match RSI.calculate rma append_window "close" 2 "rma" 1 0 with
    | Ret R => R
    | Raise _ => []
    end.
Definition historic_input : list Candle :=
  candles_of [(-2,3); (-1,2); (0,1); (1,2)].

(** An engine of period 1, a table of five recent candles, and five older
    candles whose close stands still once, from the second to the third. *)
Definition p1 : RSI.Params := RSI.mkParams "close" 1 "rma" None.
Definition table_recent : list Candle :=
  candles_of [(20,1); (21,2); (22,4); (23,3); (24,5)].
Definition table_older : list Candle :=
  candles_of [(10,1); (11,2); (12,2); (13,3); (14,4)].
Definition historic_result : RSI.DataFrame :=
  Eval vm_compute in
    match RSI.calculate rma historic_input "close" 2 "rma" 1 0 with
    | Ret R => R
    | Raise _ => []
    end.

(** * Specification predicates *)

(** The guard of [RSI.add] and [RSI.update]: a full generation has
    completed and none is in progress. *)
Definition ready (s : RSI.t) : bool :=
  RSI.first_gen s && negb (RSI.is_genering s).

(** What a handler leaves untouched when it drops its event. *)
Definition same_series_and_jobs (s s' : RSI.t) : Prop :=
  RSI.started s' = RSI.started s /\
  RSI.emitted s' = RSI.emitted s /\
  RSI.df s' = RSI.df s /\
  RSI.xdata s' = RSI.xdata s /\
  RSI.data s' = RSI.data s /\
  RSI.first_gen s' = RSI.first_gen s /\
  RSI.is_genering s' = RSI.is_genering s.

(** [result] is a run of consecutive elements of [l], all at positions of
    [l]: reading it indexes nothing out of bounds. *)
Definition in_bounds_range {A} (result l : list A) : Prop :=
  exists lo : nat,
    (lo + List.length result <= List.length l)%nat /\
    forall k, (k < List.length result)%nat ->
              nth_error result k = nth_error l (lo + k).

(** Every channel array has the length of the index array. *)
Definition RSI_parity (s : RSI.t) : Prop :=
  List.length (RSI.data s) = List.length (RSI.xdata s).

Definition MACD_parity (s : MACD.t) : Prop :=
  List.length (MACD.macd_data s) = List.length (MACD.xdata s) /\
  List.length (MACD.histogram s) = List.length (MACD.xdata s) /\
  List.length (MACD.signalma s) = List.length (MACD.xdata s).

(** The index array is strictly increasing: every cell holds an index and
    the indices increase. *)
Definition increasing (xs : list (option Z)) : Prop :=
  exists zs, xs = map Some zs /\ StronglySorted Z.lt zs.

(** The index column of a candle table. *)
Definition idxs (table : list Candle) : list Z := map index table.

(** The invariant of the Candle Source: the index of its rows increases. *)
Definition candle_sorted (table : list Candle) : Prop :=
  StronglySorted Z.lt (idxs table).

(** The index column of [R] is the index of the last rows of [input]. *)
Definition aligned (R : RSI.DataFrame) (input : list Candle) : Prop :=
  RSI.col_index R = map Some (tail (Z.of_nat (List.length R)) (idxs input)).

Definition is_append (ev : System.Event) : bool :=
  match ev with System.ev_append _ => true | _ => false end.

(** What the claim assumes of the Candle Source at an event: its table is
    sorted after the change, and a mutate-last keeps the index of the last
    row. *)
Definition source_ok (ev : System.Event) (table : list Candle) : Prop :=
  candle_sorted (System.source_step ev table) /\
  match ev with
  | System.ev_update _ => idxs (System.source_step ev table) = idxs table
  | _ => True
  end.

(** The Candle Source keeps its invariant along a sequence of events. *)
Fixpoint sources_ok (evs : list System.Event) (table : list Candle) : Prop :=
  match evs with
  | [] => True
  | ev :: evs' =>
      source_ok ev table /\ sources_ok evs' (System.source_step ev table)
  end.

Section RunSpec.

Variable ma : string -> list float64 -> Z -> list float64.

(** The job an event starts, if it starts one, returns a table aligned with
    its input, with at least one row when the event is an append. *)
Definition job_ok (ev : System.Event) (sys : System.t) : Prop :=
  forall j,
    hd_error (RSI.started (System.engine (System.deliver ev sys))) = Some j ->
    exists R, RSI.run_job ma j = Ret R /\ aligned R (RSI.job_df j) /\
              (is_append ev = true -> R <> []).

(** Along a run: the source keeps its invariant and the jobs are as
    [job_ok] says, at every event. *)
Fixpoint steps_ok (evs : list System.Event) (sys : System.t) : Prop :=
  match evs with
  | [] => True
  | ev :: evs' =>
      source_ok ev (System.table sys) /\ job_ok ev sys /\
      steps_ok evs' (System.process ma ev sys)
  end.

End RunSpec.

(** Between two events: the table is sorted, the index array is the index
    of the last rows of the table, the engine's table has as many rows as
    the index array, no job is outstanding, and the engine is ready unless
    the series is empty. *)
Record Inv (sys : System.t) : Prop := mkInv {
  inv_sorted : candle_sorted (System.table sys);
  inv_suffix :
    exists k, (k <= List.length (System.table sys))%nat /\
      RSI.xdata (System.engine sys) =
        map Some (skipn (List.length (System.table sys) - k)
                        (idxs (System.table sys)));
  inv_df : List.length (RSI.df (System.engine sys)) =
           List.length (RSI.xdata (System.engine sys));
  inv_idle : RSI.started (System.engine sys) = [];
  inv_ready : ready (System.engine sys) = true \/
              RSI.xdata (System.engine sys) = []
}.

(** * Further predicates and samples *)

(** Every band array of a KC engine has the length of the index array. *)
Definition KC_parity (s : KC.t) : Prop :=
  List.length (KC.lb s) = List.length (KC.xdata s) /\
  List.length (KC.cb s) = List.length (KC.xdata s) /\
  List.length (KC.ub s) = List.length (KC.xdata s).

(** ** Calls on an engine *)

(** A call on an [RSI] object: one of its handlers, with the table its
    source holds at the call, or the completion of a job, with the job's
    future. *)
Inductive RSI_call : Type :=
| call_fisrt_gen_data (table : list Candle)
| call_add_historic (table : list Candle) (n : Z)
| call_add (table new_candles : list Candle)
| call_update (table new_candles : list Candle)
| call_change_input (table : list Candle) (p : option RSI.Params)
| call_change_source (table : list Candle)
| call_callback (cb : Callback) (future : RSI.Future).

Definition RSI_do (c : RSI_call) : M RSI.t unit :=
  match c with
  | call_fisrt_gen_data table => RSI.fisrt_gen_data table
  | call_add_historic table n => RSI.add_historic table n
  | call_add table new_candles => RSI.add table new_candles
  | call_update table new_candles => RSI.update table new_candles
  | call_change_input table p => RSI.change_input table p
  | call_change_source table => RSI.change_source table
  | call_callback cb future => RSI.callback cb future
  end.

(** The object after a sequence of calls, each run to its end or to the
    exception it raises. *)
Definition RSI_calls (cs : list RSI_call) (s : RSI.t) : RSI.t :=
  fold_left (fun s c => exec (RSI_do c) s) cs s.

(** The table has no more rows than the arrays, and the two arrays have one
    length. *)
Definition RSI_lengths (s : RSI.t) : Prop :=
  (List.length (RSI.df s) <= List.length (RSI.xdata s))%nat /\
  List.length (RSI.data s) = List.length (RSI.xdata s).

(** The three series of an engine. *)
Definition RSI_series (s : RSI.t)
    : RSI.DataFrame * list (option Z) * list float64 :=
  (RSI.df s, RSI.xdata s, RSI.data s).

(** The table a job returned, when it has rows, ends with a row that has
    its index. *)
Definition last_row_indexed (fut : RSI.Future) : Prop :=
  forall R0 row, fut = Ret (R0 ++ [row]) -> fst row <> None.

(** An event of the tip of the series: an append or a mutate-last. *)
Definition is_tip_event (ev : System.Event) : bool :=
  match ev with
  | System.ev_append _ | System.ev_update _ => true
  | _ => false
  end.

(** A short table, and two events of the tip that follow it. *)
Definition table_two : list Candle := candles_of [(0,1); (1,2)].
Definition events_after_failed_reset : list System.Event :=
  [System.ev_append (candle 2 4); System.ev_update (candle 2 5)].

(** ** Values of an indicator *)

(** A value that is missing or not negative, the positive infinity
    included. *)
Definition nonneg_or_nan (x : float64) : bool :=
  match x with
  | NaN => true
  | Inf s => negb s
  | Fin q => Qle_bool 0 q
  end.

(** Three candles with one close. *)
Definition table_flat3 : list Candle := candles_of [(0,3); (1,3); (2,3)].

(** The index of the six moving candles, for a period of 2. *)
Definition moving_rsi : list float64 :=
  Eval vm_compute in
    match RSI.rsi rma (map close table_moving) 2 "rma" 1 0 with
    | Some IND => IND
    | None => []
    end.
Definition moving_values : list float64 := Eval vm_compute in skipn 2 moving_rsi.

(** The table and the four arrays of a MACD engine. *)
Definition MACD_series (s : MACD.t)
    : MACD.DataFrame * list (option Z) * list float64 * list float64
      * list float64 :=
  (MACD.df s, MACD.xdata s, MACD.macd_data s, MACD.histogram s,
   MACD.signalma s).

(** A ready MACD engine whose signal period is longer than four slow
    periods. *)
Definition macd_long_signal : MACD.t :=
  MACD.mk "close" 3 2 14 "rma" 0 true false false false
          (MACD.df ready_macd) (MACD.xdata ready_macd)
          (MACD.macd_data ready_macd) (MACD.histogram ready_macd)
          (MACD.signalma ready_macd) [] [].

(** * Properties *)

(** ** Sequences *)

Lemma removelast_set_last {A} (x : A) (l : list A) :
  removelast (set_last x l) = removelast l.
Proof. unfold set_last. now rewrite removelast_last. Qed.

Lemma length_set_last {A} (x : A) (l : list A) :
  l <> [] -> List.length (set_last x l) = List.length l.
Proof.
  intros Hl. unfold set_last. rewrite length_app. simpl.
  destruct l as [|a l]; [congruence|].
  rewrite (app_removelast_last a Hl) at 2. rewrite length_app. simpl. lia.
Qed.

Lemma iloc_last_app {A} (l : list A) (x : A) : iloc_last (l ++ [x]) = Ret x.
Proof. unfold iloc_last. now rewrite rev_unit. Qed.

Lemma iloc_last_nil {A} : iloc_last (@nil A) = Raise IndexError.
Proof. reflexivity. Qed.

Lemma iloc_last_inv {A} (l : list A) (x : A) :
  iloc_last l = Ret x -> exists l0, l = l0 ++ [x].
Proof.
  unfold iloc_last. intros H.
  destruct (rev l) as [|y r] eqn:E; [discriminate|].
  injection H as ->. exists (rev r).
  rewrite <- (rev_involutive l), E. reflexivity.
Qed.

Lemma iloc_last_nonempty {A} (l : list A) :
  l <> [] -> exists x, iloc_last l = Ret x.
Proof.
  intros Hl. destruct (exists_last Hl) as [l0 [x ->]].
  exists x. apply iloc_last_app.
Qed.

Arguments exec : simpl never.
Arguments column : simpl never.
Arguments candles_get_df : simpl never.
Arguments iloc_last : simpl never.
Arguments assign_last : simpl never.
Arguments MACD.macd : simpl never.
Arguments MACD.paire_data : simpl never.
Arguments RSI.calculate : simpl never.
Arguments MACD.calculate : simpl never.

(** Running a method: one step of [bind] at a time. *)
Ltac run :=
  repeat (unfold exec, outcome, bind, lift, modify, get, ret, raise; simpl).

(** ** Completion of a full regeneration *)

(** C2.  When a full-regeneration job completes with the table [R], the
    callback installs [R] as the whole derived series: the table and the
    arrays are the columns of [R], of the length of [R], whatever was held
    before; [first_gen] is set, [is_genering] is cleared, and one
    [sig_reset_all] is emitted.  The same holds for the MACD engine. *)
Theorem full_regeneration_replaces_series :
  (forall (s : RSI.t) (R : RSI.DataFrame),
     let s' := exec (RSI.callback_first_gen (Ret R)) s in
     outcome (RSI.callback_first_gen (Ret R)) s = Ret tt /\
     RSI.df s' = R /\
     RSI.xdata s' = RSI.col_index R /\
     RSI.data s' = RSI.col_data R /\
     List.length (RSI.xdata s') = List.length R /\
     List.length (RSI.data s') = List.length R /\
     RSI.first_gen s' = true /\
     RSI.is_genering s' = false /\
     RSI.emitted s' = RSI.emitted s ++ [sig_reset_all] /\
     RSI.started s' = RSI.started s) /\
  (forall (s : MACD.t) (R : MACD.DataFrame),
     let s' := exec (MACD.callback_first_gen (Ret R)) s in
     outcome (MACD.callback_first_gen (Ret R)) s = Ret tt /\
     MACD.df s' = R /\
     MACD.xdata s' = map MACD.r_index R /\
     MACD.macd_data s' = map MACD.r_macd R /\
     MACD.histogram s' = map MACD.r_histogram R /\
     MACD.signalma s' = map MACD.r_signalma R /\
     List.length (MACD.xdata s') = List.length R /\
     MACD.first_gen s' = true /\
     MACD.is_genering s' = false /\
     MACD.emitted s' = MACD.emitted s ++ [sig_reset_all]).
Proof.
  split; intros s R s'; subst s'.
  - unfold RSI.callback_first_gen, RSI.emit. run.
    destruct (RSI.first_gen s) eqn:E; run;
      unfold RSI.col_index, RSI.col_data; rewrite ?length_map;
      repeat split; assumption.
  - unfold MACD.callback_first_gen, MACD.emit. run.
    destruct (MACD.first_gen s) eqn:E; run; rewrite ?length_map;
      repeat split; assumption.
Qed.

(** ** Completion of a mutate-last job *)

Lemma assign_last_frame {A} (x : A) (l l' : list A) :
  assign_last x l = Ret l' ->
  List.length l' = List.length l /\ removelast l' = removelast l /\
  l' = removelast l ++ [x].
Proof.
  unfold assign_last. destruct l as [|a l]; [discriminate|].
  intros H. injection H as <-. repeat split.
  - apply length_set_last. discriminate.
  - apply removelast_set_last.
Qed.

Lemma assign_last_ok {A} (x : A) (l : list A) :
  l <> [] -> assign_last x l = Ret (removelast l ++ [x]).
Proof. destruct l; [congruence|reflexivity]. Qed.

Lemma RSI_callback_update_frame (s : RSI.t) (fut : RSI.Future) :
  let s' := exec (RSI.callback_update fut) s in
  List.length (RSI.df s') = List.length (RSI.df s) /\
  List.length (RSI.xdata s') = List.length (RSI.xdata s) /\
  List.length (RSI.data s') = List.length (RSI.data s) /\
  removelast (RSI.df s') = removelast (RSI.df s) /\
  removelast (RSI.xdata s') = removelast (RSI.xdata s) /\
  removelast (RSI.data s') = removelast (RSI.data s).
Proof.
  unfold RSI.callback_update, RSI.emit. destruct fut as [R|e]; run; [|tauto].
  destruct (iloc_last (RSI.col_index R)) as [i|]; run; [|tauto].
  destruct (iloc_last (RSI.col_data R)) as [v|]; run; [|tauto].
  destruct (assign_last (i, v) (RSI.df s)) as [d|] eqn:Ed; run; [|tauto].
  destruct (assign_last_frame _ _ Ed) as (Ld & Rd & _).
  destruct (assign_last i (RSI.xdata s)) as [x|] eqn:Ex; run; [|tauto].
  destruct (assign_last_frame _ _ Ex) as (Lx & Rx & _).
  destruct (assign_last v (RSI.data s)) as [y|] eqn:Ey; run; [|tauto].
  destruct (assign_last_frame _ _ Ey) as (Ly & Ry & _).
  tauto.
Qed.

Lemma RSI_callback_update_last (s : RSI.t) (R0 : RSI.DataFrame) (row : RSI.Row) :
  RSI.df s <> [] -> RSI.xdata s <> [] -> RSI.data s <> [] ->
  let s' := exec (RSI.callback_update (Ret (R0 ++ [row]))) s in
  RSI.df s' = removelast (RSI.df s) ++ [row] /\
  RSI.xdata s' = removelast (RSI.xdata s) ++ [fst row] /\
  RSI.data s' = removelast (RSI.data s) ++ [snd row] /\
  RSI.emitted s' = RSI.emitted s ++ [sig_update_candle].
Proof.
  intros Hd Hx Hy.
  unfold RSI.callback_update, RSI.emit, RSI.col_index, RSI.col_data. run.
  rewrite !map_app. simpl. rewrite !iloc_last_app. run.
  rewrite (assign_last_ok _ Hd). run.
  rewrite (assign_last_ok _ Hx). run.
  rewrite (assign_last_ok _ Hy). run.
  destruct row. repeat split.
Qed.

Lemma KC_callback_update_frame (s : KC.t) (fut : KC.Future) :
  let s' := exec (KC.callback_update fut) s in
  List.length (KC.df s') = List.length (KC.df s) /\
  List.length (KC.xdata s') = List.length (KC.xdata s) /\
  List.length (KC.lb s') = List.length (KC.lb s) /\
  List.length (KC.cb s') = List.length (KC.cb s) /\
  List.length (KC.ub s') = List.length (KC.ub s) /\
  removelast (KC.df s') = removelast (KC.df s) /\
  removelast (KC.xdata s') = removelast (KC.xdata s) /\
  removelast (KC.lb s') = removelast (KC.lb s) /\
  removelast (KC.cb s') = removelast (KC.cb s) /\
  removelast (KC.ub s') = removelast (KC.ub s).
Proof.
  unfold KC.callback_update, KC.emit. destruct fut as [R|e]; run; [|tauto].
  destruct (iloc_last (map KC.r_index R)) as [i|]; run; [|tauto].
  destruct (iloc_last (map KC.r_lb R)) as [v1|]; run; [|tauto].
  destruct (iloc_last (map KC.r_cb R)) as [v2|]; run; [|tauto].
  destruct (iloc_last (map KC.r_ub R)) as [v3|]; run; [|tauto].
  destruct (assign_last (KC.mkRow i v1 v2 v3) (KC.df s)) as [d|] eqn:Ed;
    run; [|tauto].
  destruct (assign_last_frame _ _ Ed) as (Ld & Rd & _).
  destruct (assign_last i (KC.xdata s)) as [x|] eqn:Ex; run; [|tauto].
  destruct (assign_last_frame _ _ Ex) as (Lx & Rx & _).
  destruct (assign_last v1 (KC.lb s)) as [y1|] eqn:E1; run; [|tauto].
  destruct (assign_last_frame _ _ E1) as (L1 & R1 & _).
  destruct (assign_last v2 (KC.cb s)) as [y2|] eqn:E2; run; [|tauto].
  destruct (assign_last_frame _ _ E2) as (L2 & R2 & _).
  destruct (assign_last v3 (KC.ub s)) as [y3|] eqn:E3; run; [|tauto].
  destruct (assign_last_frame _ _ E3) as (L3 & R3 & _).
  tauto.
Qed.



(** ** The guard of the append and mutate-last handlers *)

Lemma RSI_add_dropped (table new_candles : list Candle) (s : RSI.t) :
  ready s = false ->
  same_series_and_jobs s (exec (RSI.add table new_candles) s).
Proof.
  unfold ready, same_series_and_jobs, RSI.add. intros Hg. run.
  destruct (iloc_last new_candles); run; [|tauto].
  rewrite Hg. run. tauto.
Qed.

Lemma RSI_update_dropped (table new_candles : list Candle) (s : RSI.t) :
  ready s = false ->
  same_series_and_jobs s (exec (RSI.update table new_candles) s).
Proof.
  unfold ready, same_series_and_jobs, RSI.update. intros Hg. run.
  destruct (iloc_last new_candles); run; [|tauto].
  rewrite Hg. run. tauto.
Qed.

Lemma RSI_add_submits (table cs : list Candle) (c : Candle) (s : RSI.t) :
  ready s = true ->
  let s' := exec (RSI.add table (cs ++ [c])) s in
  RSI.started s' =
    RSI.started s ++
      [RSI.mkJob cb_add (candles_get_df (Some (RSI.length s * 5)) table)
                 (RSI.source s) (RSI.length s) (RSI.mamode s) (RSI.drift s)
                 (RSI.offset s)] /\
  RSI.emitted s' = RSI.emitted s /\
  RSI.df s' = RSI.df s /\
  RSI.xdata s' = RSI.xdata s /\
  RSI.data s' = RSI.data s /\
  ready s' = true.
Proof.
  unfold ready, RSI.add, RSI.start_process. intros Hg. run.
  rewrite iloc_last_app. run. rewrite Hg. run. tauto.
Qed.

Lemma RSI_update_submits (table cs : list Candle) (c : Candle) (s : RSI.t) :
  ready s = true ->
  let s' := exec (RSI.update table (cs ++ [c])) s in
  RSI.started s' =
    RSI.started s ++
      [RSI.mkJob cb_update (candles_get_df (Some (RSI.length s * 5)) table)
                 (RSI.source s) (RSI.length s) (RSI.mamode s) (RSI.drift s)
                 (RSI.offset s)] /\
  RSI.emitted s' = RSI.emitted s /\
  RSI.df s' = RSI.df s /\
  RSI.xdata s' = RSI.xdata s /\
  RSI.data s' = RSI.data s /\
  ready s' = true.
Proof.
  unfold ready, RSI.update, RSI.start_process. intros Hg. run.
  rewrite iloc_last_app. run. rewrite Hg. run. tauto.
Qed.

(** C1, as the code has it.  An append or mutate-last event that arrives
    while the engine is generating ([is_genering] set, or no full generation
    completed yet) starts no job and changes neither the series nor the
    notifications: it is dropped.  While the engine is ready, each such
    event starts one trailing-window job, added to the jobs already
    outstanding, and the engine stays ready. *)
Theorem generating_guard_drops_events :
  (forall (table new_candles : list Candle) (s : RSI.t),
     ready s = false ->
     same_series_and_jobs s (exec (RSI.add table new_candles) s) /\
     same_series_and_jobs s (exec (RSI.update table new_candles) s)) /\
  (forall (table cs : list Candle) (c : Candle) (s : RSI.t),
     ready s = true ->
     let s1 := exec (RSI.add table (cs ++ [c])) s in
     let s2 := exec (RSI.update table (cs ++ [c])) s in
     List.length (RSI.started s1) = S (List.length (RSI.started s)) /\
     List.length (RSI.started s2) = S (List.length (RSI.started s)) /\
     ready s1 = true /\ ready s2 = true).
Proof.
  split.
  - intros table new_candles s Hg. split.
    + now apply RSI_add_dropped.
    + now apply RSI_update_dropped.
  - intros table cs c s Hg s1 s2.
    destruct (RSI_add_submits table cs c s Hg) as (Ha & _ & _ & _ & _ & Ra).
    destruct (RSI_update_submits table cs c s Hg) as (Hu & _ & _ & _ & _ & Ru).
    subst s1 s2. rewrite Ha, Hu, !length_app. simpl.
    repeat split; try lia; assumption.
Qed.

(** ** Completion of an append *)

Lemma RSI_callback_add_appends (s : RSI.t) (R0 : RSI.DataFrame) (row : RSI.Row) :
  let s' := exec (RSI.callback_add (Ret (R0 ++ [row]))) s in
  RSI.df s' = RSI.df s ++ [row] /\
  RSI.xdata s' = RSI.xdata s ++ [fst row] /\
  RSI.data s' = RSI.data s ++ [snd row] /\
  RSI.emitted s' = RSI.emitted s ++ [sig_add_candle] /\
  RSI.started s' = RSI.started s /\
  RSI.first_gen s' = RSI.first_gen s /\
  RSI.is_genering s' = RSI.is_genering s.
Proof.
  unfold RSI.callback_add, RSI.emit, RSI.col_index, RSI.col_data. run.
  rewrite !map_app. simpl. rewrite !iloc_last_app. run.
  destruct row. repeat split.
Qed.

Lemma RSI_callback_add_no_row (s : RSI.t) :
  exec (RSI.callback_add (Ret [])) s = s.
Proof. reflexivity. Qed.

Lemma MACD_add_appends (ma : string -> list float64 -> Z -> list float64)
    (table cs : list Candle) (c : Candle) (s : MACD.t)
    (close_ : list float64) (m h g : list (Z * float64)) (vm vh vg : float64) :
  MACD.first_gen s = true ->
  MACD.is_genering s = false ->
  column (MACD.source s)
         (candles_get_df (Some (MACD.slow_period s * 5)) table) = Ret close_ ->
  MACD.paire_data
    (MACD.macd ma close_ (MACD.fast_period s) (MACD.slow_period s)
               (MACD.signal_period s) (MACD.mamode s) (MACD.offset s))
    = (m, h, g) ->
  iloc_last (MACD.values m) = Ret vm ->
  iloc_last (MACD.values h) = Ret vh ->
  iloc_last (MACD.values g) = Ret vg ->
  let s' := exec (MACD.add ma table (cs ++ [c])) s in
  MACD.df s' = MACD.df s ++ [MACD.mkRow (Some (index c)) vm vh vg] /\
  MACD.xdata s' = MACD.xdata s ++ [Some (index c)] /\
  MACD.macd_data s' = MACD.macd_data s ++ [vm] /\
  MACD.histogram s' = MACD.histogram s ++ [vh] /\
  MACD.signalma s' = MACD.signalma s ++ [vg] /\
  MACD.emitted s' = MACD.emitted s ++ [sig_add_candle] /\
  MACD.first_gen s' = true /\
  MACD.is_genering s' = false.
Proof.
  intros Hf Hg Hc Hp Hm Hh Hs.
  unfold MACD.add, MACD.add_update_calculate, MACD.emit. run.
  rewrite iloc_last_app. run. rewrite Hf, Hg. run.
  rewrite Hc. run. rewrite Hp. run.
  rewrite Hm. run. rewrite Hh. run. rewrite Hs. run.
  repeat split; assumption.
Qed.

Lemma MACD_add_no_row (ma : string -> list float64 -> Z -> list float64)
    (table cs : list Candle) (c : Candle) (s : MACD.t)
    (close_ : list float64) (m h g : list (Z * float64)) :
  MACD.first_gen s = true ->
  MACD.is_genering s = false ->
  column (MACD.source s)
         (candles_get_df (Some (MACD.slow_period s * 5)) table) = Ret close_ ->
  MACD.paire_data
    (MACD.macd ma close_ (MACD.fast_period s) (MACD.slow_period s)
               (MACD.signal_period s) (MACD.mamode s) (MACD.offset s))
    = (m, h, g) ->
  m = [] \/ h = [] \/ g = [] ->
  let s' := exec (MACD.add ma table (cs ++ [c])) s in
  MACD.df s' = MACD.df s /\
  MACD.xdata s' = MACD.xdata s /\
  MACD.macd_data s' = MACD.macd_data s /\
  MACD.histogram s' = MACD.histogram s /\
  MACD.signalma s' = MACD.signalma s /\
  MACD.emitted s' = MACD.emitted s /\
  outcome (MACD.add ma table (cs ++ [c])) s = Raise IndexError.
Proof.
  intros Hf Hg Hc Hp He.
  unfold MACD.add, MACD.add_update_calculate, MACD.emit. run.
  rewrite iloc_last_app. run. rewrite Hf, Hg. run.
  rewrite Hc. run. rewrite Hp. run.
  assert (N : iloc_last (MACD.values []) = Raise IndexError) by reflexivity.
  destruct m as [|m0 m'].
  { rewrite N. run. repeat split. }
  destruct (@iloc_last_nonempty _ (MACD.values (m0 :: m'))) as [vm Em];
    [discriminate|]. rewrite Em. run.
  destruct h as [|h0 h'].
  { rewrite N. run. repeat split. }
  destruct (@iloc_last_nonempty _ (MACD.values (h0 :: h'))) as [vh Eh];
    [discriminate|]. rewrite Eh. run.
  destruct g as [|g0 g'].
  { rewrite N. run. repeat split. }
  destruct He as [He|[He|He]]; discriminate.
Qed.


(** ** Queries *)

Lemma whole_in_bounds {A} (l : list A) : in_bounds_range l l.
Proof. exists 0%nat. split; [lia|]. intros k _. reflexivity. Qed.

Lemma firstn_skipn_in_bounds {A} (n lo : nat) (l : list A) :
  in_bounds_range (firstn n (skipn lo l)) l.
Proof.
  destruct (Nat.le_gt_cases lo (List.length l)) as [Hlo|Hlo].
  - exists lo. rewrite length_firstn, length_skipn. split; [lia|].
    intros k Hk. rewrite nth_error_firstn.
    destruct (Nat.ltb_spec k n); [|lia]. apply nth_error_skipn.
  - exists 0%nat. rewrite skipn_all2 by lia. rewrite firstn_nil. simpl.
    split; [lia|]. intros k Hk. lia.
Qed.

Lemma slice_bounds_range (start stop : option Z) (len : Z) :
  0 <= len ->
  0 <= fst (slice_bounds start stop len) <= len /\
  0 <= snd (slice_bounds start stop len) <= len.
Proof.
  intros Hlen. unfold slice_bounds, adjust_index. simpl.
  destruct start as [i|], stop as [j|];
    repeat match goal with
           | |- context [(?a <? ?b)%Z] => destruct (Z.ltb_spec a b)
           end; lia.
Qed.

Lemma slice_in_bounds {A} (start stop : option Z) (l : list A) :
  in_bounds_range (slice start stop l) l.
Proof.
  unfold slice.
  destruct (slice_bounds start stop (Z.of_nat (List.length l))) as [lo hi].
  apply firstn_skipn_in_bounds.
Qed.

(** C10.  On an empty series [get_data] returns empty sequences for every
    [start] and [stop]; on any series each sequence it returns is a run of
    consecutive elements of the array it is taken from, so no position
    outside the array is read.  Stated for the RSI and the MACD engine. *)
Theorem get_data_is_total :
  (forall (s : RSI.t) (start stop : Z),
     RSI.xdata s = [] -> RSI.get_data start stop s = ([], [])) /\
  (forall (s : MACD.t) (start stop : Z),
     MACD.xdata s = [] -> MACD.get_data start stop s = ([], [], [], [])) /\
  (forall (s : RSI.t) (start stop : Z),
     in_bounds_range (fst (RSI.get_data start stop s)) (RSI.xdata s) /\
     in_bounds_range (snd (RSI.get_data start stop s)) (RSI.data s)) /\
  (forall (s : MACD.t) (start stop : Z),
     let '(x, m, g, h) := MACD.get_data start stop s in
     in_bounds_range x (MACD.xdata s) /\
     in_bounds_range m (MACD.macd_data s) /\
     in_bounds_range g (MACD.signalma s) /\
     in_bounds_range h (MACD.histogram s)).
Proof.
  repeat split.
  - intros s start stop Hx. unfold RSI.get_data. now rewrite Hx.
  - intros s start stop Hx. unfold MACD.get_data. now rewrite Hx.
  - unfold RSI.get_data.
    destruct (List.length (RSI.xdata s) =? 0)%nat eqn:E.
    + apply Nat.eqb_eq, length_zero_iff_nil in E. rewrite E. apply whole_in_bounds.
    + destruct (start =? 0)%Z, (stop =? 0)%Z; simpl;
        first [apply whole_in_bounds | apply slice_in_bounds].
  - unfold RSI.get_data.
    destruct (List.length (RSI.xdata s) =? 0)%nat eqn:E.
    + exists 0%nat. simpl. split; [lia|]. intros k Hk. lia.
    + destruct (start =? 0)%Z, (stop =? 0)%Z; simpl;
        first [apply whole_in_bounds | apply slice_in_bounds].
  - intros s start stop. unfold MACD.get_data.
    destruct (List.length (MACD.xdata s) =? 0)%nat eqn:E.
    + repeat split; exists 0%nat; simpl; (split; [lia|]); intros k Hk; lia.
    + destruct (start =? 0)%Z, (stop =? 0)%Z; simpl; repeat split;
        first [apply whole_in_bounds | apply slice_in_bounds].
Qed.

(** ** Channel length parity *)

Lemma RSI_callback_parity (cb : Callback) (fut : RSI.Future) (s : RSI.t) :
  RSI_parity s -> RSI_parity (exec (RSI.callback cb fut) s).
Proof.
  unfold RSI_parity. intros H. destruct cb; simpl.
  - unfold RSI.callback_first_gen, RSI.emit. destruct fut as [R|e]; run; [|exact H].
    destruct (RSI.first_gen s); run;
      unfold RSI.col_data, RSI.col_index; now rewrite !length_map.
  - unfold RSI.callback_gen_historic_data, RSI.emit.
    destruct fut as [R|e]; run; [|exact H].
    destruct (RSI.first_gen s); run;
      unfold RSI.col_data, RSI.col_index; rewrite !length_app, !length_map; lia.
  - unfold RSI.callback_add, RSI.emit. destruct fut as [R|e]; run; [|exact H].
    destruct (iloc_last (RSI.col_index R)) as [i|]; run; [|exact H].
    destruct (iloc_last (RSI.col_data R)) as [v|]; run; [|exact H].
    rewrite !length_app. simpl. lia.
  - destruct (RSI_callback_update_frame s fut) as (_ & Lx & Ly & _).
    simpl in Lx, Ly. rewrite Lx, Ly. exact H.
Qed.

Lemma RSI_handler_parity (ev : System.Event) (table : list Candle) (s : RSI.t) :
  RSI_parity s -> RSI_parity (exec (System.handler ev table) s).
Proof.
  unfold RSI_parity. intros H. destruct ev; simpl.
  - unfold RSI.fisrt_gen_data, RSI.start_process. run. exact H.
  - unfold RSI.add, RSI.start_process. run.
    destruct (ready s) eqn:E; unfold ready in E; rewrite E; run; exact H.
  - unfold RSI.update, RSI.start_process. run.
    destruct (ready s) eqn:E; unfold ready in E; rewrite E; run; exact H.
  - unfold RSI.add_historic, RSI.start_process. run. exact H.
Qed.

Lemma MACD_callback_first_gen_parity (fut : MACD.Future) (s : MACD.t) :
  MACD_parity s -> MACD_parity (exec (MACD.callback_first_gen fut) s).
Proof.
  unfold MACD_parity, MACD.callback_first_gen, MACD.emit. intros H.
  destruct fut as [R|e]; run; [|exact H].
  destruct (MACD.first_gen s); run; now rewrite !length_map.
Qed.

Lemma MACD_callback_historic_parity (fut : MACD.Future) (s : MACD.t) :
  MACD_parity s -> MACD_parity (exec (MACD.callback_gen_historic_data fut) s).
Proof.
  unfold MACD_parity, MACD.callback_gen_historic_data, MACD.emit.
  intros (H1 & H2 & H3).
  destruct fut as [R|e]; run; [|tauto].
  destruct (MACD.first_gen s); run; rewrite !length_app, !length_map; lia.
Qed.

Lemma MACD_add_parity (ma : string -> list float64 -> Z -> list float64)
    (table new_candles : list Candle) (s : MACD.t) :
  MACD_parity s -> MACD_parity (exec (MACD.add ma table new_candles) s).
Proof.
  unfold MACD_parity, MACD.add, MACD.add_update_calculate, MACD.emit.
  intros (H1 & H2 & H3). run.
  destruct (iloc_last new_candles) as [c|]; run; [|tauto].
  destruct (MACD.first_gen s && negb (MACD.is_genering s)); run; [|tauto].
  destruct (column _ _) as [close_|]; run; [|tauto].
  destruct (MACD.paire_data _) as [[m h] g]. run.
  destruct (iloc_last (MACD.values m)) as [vm|]; run; [|tauto].
  destruct (iloc_last (MACD.values h)) as [vh|]; run; [|tauto].
  destruct (iloc_last (MACD.values g)) as [vg|]; run; [|tauto].
  rewrite !length_app. simpl. lia.
Qed.

Lemma MACD_update_lengths (ma : string -> list float64 -> Z -> list float64)
    (table new_candles : list Candle) (s : MACD.t) :
  let s' := exec (MACD.update ma table new_candles) s in
  List.length (MACD.xdata s') = List.length (MACD.xdata s) /\
  List.length (MACD.macd_data s') = List.length (MACD.macd_data s) /\
  List.length (MACD.histogram s') = List.length (MACD.histogram s) /\
  List.length (MACD.signalma s') = List.length (MACD.signalma s).
Proof.
  unfold MACD.update, MACD.add_update_calculate, MACD.emit. run.
  destruct (iloc_last new_candles) as [c|]; run; [|tauto].
  destruct (MACD.first_gen s && negb (MACD.is_genering s)); run; [|tauto].
  destruct (column _ _) as [close_|]; run; [|tauto].
  destruct (MACD.paire_data _) as [[m h] g]. run.
  destruct (iloc_last (MACD.values m)) as [vm|]; run; [|tauto].
  destruct (iloc_last (MACD.values h)) as [vh|]; run; [|tauto].
  destruct (iloc_last (MACD.values g)) as [vg|]; run; [|tauto].
  destruct (assign_last (MACD.mkRow (Some (index c)) vm vh vg) (MACD.df s))
    as [d|] eqn:Ed; run; [|tauto].
  destruct (assign_last (Some (index c)) (MACD.xdata s)) as [x|] eqn:Ex;
    run; [|tauto].
  destruct (assign_last_frame _ _ Ex) as (Lx & _).
  destruct (assign_last vm (MACD.macd_data s)) as [y1|] eqn:E1; run; [|tauto].
  destruct (assign_last_frame _ _ E1) as (L1 & _).
  destruct (assign_last vh (MACD.histogram s)) as [y2|] eqn:E2; run; [|tauto].
  destruct (assign_last_frame _ _ E2) as (L2 & _).
  destruct (assign_last vg (MACD.signalma s)) as [y3|] eqn:E3; run; [|tauto].
  destruct (assign_last_frame _ _ E3) as (L3 & _).
  tauto.
Qed.

Lemma MACD_update_parity (ma : string -> list float64 -> Z -> list float64)
    (table new_candles : list Candle) (s : MACD.t) :
  MACD_parity s -> MACD_parity (exec (MACD.update ma table new_candles) s).
Proof.
  unfold MACD_parity. intros (H1 & H2 & H3).
  destruct (MACD_update_lengths ma table new_candles s) as (Lx & L1 & L2 & L3).
  simpl in Lx, L1, L2, L3. rewrite Lx, L1, L2, L3. tauto.
Qed.

Lemma MACD_handlers_parity (table : list Candle) (n : Z) (s : MACD.t) :
  MACD_parity s ->
  MACD_parity (exec (MACD.fisrt_gen_data table) s) /\
  MACD_parity (exec (MACD.add_historic table n) s).
Proof.
  unfold MACD_parity, MACD.fisrt_gen_data, MACD.add_historic, MACD.start_process.
  intros H. run. tauto.
Qed.

(** C7.  If every channel array has the length of the index array, it
    still has after any operation of the engine: the completion of a full
    regeneration, of a historic load, of an append and of a mutate-last,
    with any outcome of the job, and the handlers that start the jobs.
    Stated for the three channels of the MACD engine and for the RSI
    engine; the table a MACD job returns has columns of one length. *)
Theorem channel_length_parity_preserved :
  (forall (ma : string -> list float64 -> Z -> list float64)
          (table new_candles : list Candle) (n : Z) (fut : MACD.Future)
          (s : MACD.t),
     MACD_parity s ->
     MACD_parity (exec (MACD.fisrt_gen_data table) s) /\
     MACD_parity (exec (MACD.callback_first_gen fut) s) /\
     MACD_parity (exec (MACD.add_historic table n) s) /\
     MACD_parity (exec (MACD.callback_gen_historic_data fut) s) /\
     MACD_parity (exec (MACD.add ma table new_candles) s) /\
     MACD_parity (exec (MACD.update ma table new_candles) s)) /\
  (forall (ev : System.Event) (table : list Candle) (cb : Callback)
          (fut : RSI.Future) (s : RSI.t),
     RSI_parity s ->
     RSI_parity (exec (System.handler ev table) s) /\
     RSI_parity (exec (RSI.callback cb fut) s)) /\
  (forall (ma : string -> list float64 -> Z -> list float64)
          (df : list Candle) (source : string) (fast slow signal : Z)
          (mamode : string) (offset : Z) (R : MACD.DataFrame),
     MACD.calculate ma df source fast slow signal mamode offset = Ret R ->
     List.length (map MACD.r_macd R) = List.length (map MACD.r_index R) /\
     List.length (map MACD.r_histogram R) = List.length (map MACD.r_index R) /\
     List.length (map MACD.r_signalma R) = List.length (map MACD.r_index R)).
Proof.
  split; [|split].
  - intros ma table new_candles n fut s H.
    destruct (MACD_handlers_parity table n H) as [H1 H2].
    split; [exact H1|]. split; [now apply MACD_callback_first_gen_parity|].
    split; [exact H2|]. split; [now apply MACD_callback_historic_parity|].
    split; [now apply MACD_add_parity|now apply MACD_update_parity].
  - intros ev table cb fut s H.
    split; [now apply RSI_handler_parity|now apply RSI_callback_parity].
  - intros. now rewrite !length_map.
Qed.

(** ** The table a calculation returns *)

Lemma In_skipn {A} (n : nat) (l : list A) (x : A) : In x (skipn n l) -> In x l.
Proof.
  intros H. rewrite <- (firstn_skipn n l). apply in_or_app. now right.
Qed.

Lemma In_tail {A} (n : Z) (l : list A) (x : A) : In x (tail n l) -> In x l.
Proof. unfold tail. destruct (n <? 0)%Z; apply In_skipn. Qed.

Lemma In_firstn {A} (n : nat) (l : list A) (x : A) : In x (firstn n l) -> In x l.
Proof.
  intros H. rewrite <- (firstn_skipn n l). apply in_or_app. now left.
Qed.

Lemma In_head {A} (n : Z) (l : list A) (x : A) : In x (head n l) -> In x l.
Proof. unfold head. destruct (n <? 0)%Z; apply In_firstn. Qed.

Lemma tail_of_nat {A} (n : nat) (l : list A) :
  tail (Z.of_nat n) l = skipn (List.length l - n) l.
Proof.
  unfold tail. destruct (Z.ltb_spec (Z.of_nat n) 0); [lia|].
  now rewrite Nat2Z.id.
Qed.

Lemma lookup_In {B} (l : Z) (s : list (Z * B)) (b : B) :
  lookup l s = Some b -> In (l, b) s.
Proof.
  unfold lookup. destruct (find _ s) as [[l' b']|] eqn:E; [|discriminate].
  intros H. injection H as <-. apply find_some in E. destruct E as [Hin Heq].
  simpl in Heq. apply Z.eqb_eq in Heq. now subst.
Qed.

Lemma has_label_lookup {B} (l : Z) (s : list (Z * B)) :
  has_label l s = match lookup l s with Some _ => true | None => false end.
Proof.
  unfold has_label, lookup. induction s as [|p s IH]; simpl; [reflexivity|].
  destruct (fst p =? l)%Z; simpl; [reflexivity|exact IH].
Qed.

(** The labels of a table are the positions of its rows. *)
Lemma lookup_combine_from {B} (xs : list B) (a l : nat) :
  lookup (Z.of_nat l)
         (combine (map Z.of_nat (seq a (List.length xs))) xs)
  = if (a <=? l)%nat then nth_error xs (l - a) else None.
Proof.
  revert a. induction xs as [|x xs IH]; intros a.
  - simpl. destruct (a <=? l)%nat; [now destruct (l - a)%nat|reflexivity].
  - simpl. unfold lookup. simpl.
    destruct (Z.eqb_spec (Z.of_nat a) (Z.of_nat l)) as [E|E].
    + apply Nat2Z.inj in E. subst a. rewrite Nat.leb_refl, Nat.sub_diag.
      reflexivity.
    + fold (lookup (Z.of_nat l)
              (combine (map Z.of_nat (seq (S a) (List.length xs))) xs)).
      rewrite IH. assert (a <> l) by congruence.
      destruct (Nat.leb_spec (S a) l), (Nat.leb_spec a l); try lia.
      * replace (l - a)%nat with (S (l - S a)) by lia. reflexivity.
      * reflexivity.
Qed.

Lemma skipn_combine {A B} (k : nat) (xs : list A) (ys : list B) :
  skipn k (combine xs ys) = combine (skipn k xs) (skipn k ys).
Proof.
  revert xs ys. induction k as [|k IH]; intros xs ys; [reflexivity|].
  destruct xs as [|x xs]; [reflexivity|].
  destruct ys as [|y ys]; simpl; [now rewrite combine_nil|apply IH].
Qed.

Lemma lookup_skipn_rows {B} (xs : list B) (k l : nat) :
  lookup (Z.of_nat l) (skipn k (combine (labels (List.length xs)) xs))
  = if (k <=? l)%nat then nth_error xs l else None.
Proof.
  unfold labels. rewrite skipn_combine, skipn_map, skipn_seq. simpl.
  rewrite <- (length_skipn k xs), lookup_combine_from, nth_error_skipn.
  destruct (Nat.leb_spec k l); [|reflexivity].
  f_equal. lia.
Qed.

Lemma lookup_dropna_from (xs : list float64) (a l : nat) :
  lookup (Z.of_nat l)
    (map (fun p => (fst p, round6 (snd p)))
       (filter (fun p => notna (snd p))
          (combine (map Z.of_nat (seq a (List.length xs))) xs)))
  = if (a <=? l)%nat then
      match nth_error xs (l - a) with
      | Some x => if notna x then Some (round6 x) else None
      | None => None
      end
    else None.
Proof.
  revert a. induction xs as [|x xs IH]; intros a.
  - simpl. destruct (a <=? l)%nat; [now destruct (l - a)%nat|reflexivity].
  - simpl. destruct (notna x) eqn:Ex; simpl.
    + unfold lookup. simpl.
      destruct (Z.eqb_spec (Z.of_nat a) (Z.of_nat l)) as [E|E].
      * apply Nat2Z.inj in E. subst a.
        rewrite Nat.leb_refl, Nat.sub_diag. simpl. now rewrite Ex.
      * fold (lookup (Z.of_nat l)
          (map (fun p => (fst p, round6 (snd p)))
             (filter (fun p => notna (snd p))
                (combine (map Z.of_nat (seq (S a) (List.length xs))) xs)))).
        rewrite IH. assert (a <> l) by congruence.
        destruct (Nat.leb_spec (S a) l), (Nat.leb_spec a l); try lia;
          [|reflexivity].
        replace (l - a)%nat with (S (l - S a)) by lia. reflexivity.
    + rewrite IH.
      destruct (Nat.leb_spec (S a) l), (Nat.leb_spec a l); try lia.
      * replace (l - a)%nat with (S (l - S a)) by lia. reflexivity.
      * replace (l - a)%nat with 0%nat by lia. simpl. now rewrite Ex.
      * reflexivity.
Qed.

Lemma lookup_dropna (xs : list float64) (l : nat) :
  lookup (Z.of_nat l) (map (fun p => (fst p, round6 (snd p))) (dropna xs))
  = match nth_error xs l with
    | Some x => if notna x then Some (round6 x) else None
    | None => None
    end.
Proof.
  unfold dropna, labels. rewrite lookup_dropna_from. simpl.
  now rewrite Nat.sub_0_r.
Qed.

(** Every index a table of [RSI.calculate] holds is the index of a row of
    the input. *)
Lemma RSI_calculate_index_from_input
    (ma : string -> list float64 -> Z -> list float64) (df : list Candle)
    (source : string) (length : Z) (mamode : string) (drift offset : Z)
    (R : RSI.DataFrame) (i : Z) :
  RSI.calculate ma df source length mamode drift offset = Ret R ->
  In (Some i) (RSI.col_index R) ->
  In i (map index df).
Proof.
  unfold RSI.calculate. destruct (column source df) as [close_|]; [|discriminate].
  destruct (RSI.rsi ma close_ length mamode drift offset) as [IND|];
    [|discriminate].
  intros H. injection H as <-. unfold RSI.col_index, RSI.frame.
  rewrite map_map. simpl. intros Hin. apply in_map_iff in Hin.
  destruct Hin as (l & Hl & _). apply lookup_In, In_tail in Hl.
  now apply in_combine_r in Hl.
Qed.

Lemma length_labels (n : nat) : List.length (labels n) = n.
Proof. unfold labels. now rewrite length_map, length_seq. Qed.

Lemma labels_S (n : nat) : labels (S n) = labels n ++ [Z.of_nat n].
Proof. unfold labels. now rewrite seq_S, map_app. Qed.

Lemma length_series_op (f : float64 -> float64 -> float64) (xs ys : list float64) :
  List.length (series_op f xs ys) = Nat.max (List.length xs) (List.length ys).
Proof. unfold series_op. now rewrite length_map, length_labels. Qed.

Lemma length_shift (p : Z) (xs : list float64) :
  List.length (shift p xs) = List.length xs.
Proof. unfold shift. now rewrite length_map, length_labels. Qed.

Lemma length_diff (p : Z) (xs : list float64) :
  List.length (diff p xs) = List.length xs.
Proof. unfold diff. now rewrite length_map, length_labels. Qed.

Lemma length_column (source : string) (df : list Candle) (xs : list float64) :
  column source df = Ret xs -> List.length xs = List.length df.
Proof.
  unfold column.
  repeat match goal with
         | |- context [String.eqb ?a ?b] => destruct (String.eqb a b)
         end;
    intros H; try discriminate; injection H as <-; apply length_map.
Qed.

Section LengthPreservingAverage.

(** The moving average gives a series over the labels of its argument. *)
Variable ma : string -> list float64 -> Z -> list float64.
Hypothesis ma_length :
  forall mamode xs length, List.length (ma mamode xs length) = List.length xs.

Lemma length_rsi (close_ : list float64) (length : Z) (mamode : string)
    (drift offset : Z) (IND : list float64) :
  RSI.rsi ma close_ length mamode drift offset = Some IND ->
  List.length IND = List.length close_.
Proof.
  unfold RSI.rsi, v_series.
  destruct (_ <=? _)%Z; [|discriminate].
  intros H. injection H as <-.
  destruct (v_offset offset =? 0)%Z;
    repeat (rewrite ?length_shift, ?length_series_op, ?length_map,
              ?ma_length, ?length_diff);
    lia.
Qed.

(** The last row of a table of [RSI.calculate] carries the index of the last
    row of the input. *)
Lemma RSI_calculate_last_row (df : list Candle) (source : string)
    (length : Z) (mamode : string) (drift offset : Z) (R : RSI.DataFrame) :
  RSI.calculate ma df source length mamode drift offset = Ret R ->
  R <> [] ->
  exists df0 c R0 v, df = df0 ++ [c] /\ R = R0 ++ [(Some (index c), v)].
Proof.
  unfold RSI.calculate.
  destruct (column source df) as [close_|] eqn:Ec; [|discriminate].
  destruct (RSI.rsi ma close_ length mamode drift offset) as [IND|] eqn:Er;
    [|discriminate].
  apply length_column in Ec. apply length_rsi in Er. rewrite Ec in Er.
  rewrite Er, Nat.max_id.
  set (y_data := map (fun p => (fst p, round6 (snd p))) (dropna IND)).
  rewrite tail_of_nat, length_combine, length_labels, length_map, Nat.min_id.
  intros H. injection H as <-. intros Hne.
  destruct (rev df) as [|c rdf] eqn:Erev.
  { exfalso. apply Hne.
    assert (df = []) as -> by (rewrite <- (rev_involutive df), Erev; reflexivity).
    reflexivity. }
  assert (Hdf : df = rev rdf ++ [c])
    by (rewrite <- (rev_involutive df), Erev; reflexivity).
  exists (rev rdf), c.
  destruct y_data as [|y0 ys] eqn:Ey.
  { exfalso. apply Hne. unfold RSI.frame. simpl List.length.
    rewrite Nat.sub_0_r.
    rewrite skipn_all2 by (now rewrite length_combine, length_labels,
                             length_map, Nat.min_id).
    rewrite (filter_ext _ (fun _ => false)) by reflexivity.
    now rewrite filter_false. }
  rewrite <- Ey. set (_len := List.length y_data).
  assert (H_len : (1 <= _len)%nat) by (subst _len; rewrite Ey; simpl; lia).
  set (m := List.length (rev rdf)).
  assert (Hn : List.length df = S m)
    by (rewrite Hdf, length_app; simpl; subst m; lia).
  set (_index := skipn (List.length df - _len)
                   (combine (labels (List.length df)) (map index df))).
  assert (Hlast : lookup (Z.of_nat m) _index = Some (index c)).
  { subst _index. rewrite <- (length_map index df) at 2.
    rewrite lookup_skipn_rows.
    destruct (Nat.leb_spec (List.length df - _len) m); [|lia].
    rewrite Hdf, map_app, nth_error_app2 by (rewrite length_map; subst m; lia).
    rewrite length_map. fold m. now rewrite Nat.sub_diag. }
  unfold RSI.frame. rewrite Hn, labels_S, filter_app, map_app. simpl filter.
  rewrite (has_label_lookup (Z.of_nat m) _index), Hlast. simpl.
  eexists _, _. split; [exact Hdf|]. rewrite Hlast. reflexivity.
Qed.

End LengthPreservingAverage.

(** ** An append processed to completion *)

Lemma tail_snoc_last {A} (n : Z) (l w : list A) (c c' : A) :
  tail n (l ++ [c]) = w ++ [c'] -> c' = c.
Proof.
  unfold tail.
  assert (H : forall k, skipn k (l ++ [c]) = w ++ [c'] -> c' = c).
  { intros k. rewrite skipn_app.
    destruct (Nat.le_gt_cases k (List.length l)) as [Hk|Hk].
    - replace (k - List.length l)%nat with 0%nat by lia. simpl.
      intros E.
      apply app_inj_tail in E. now destruct E.
    - rewrite skipn_all2 by lia.
      destruct (k - List.length l)%nat eqn:E; [lia|]. simpl.
      rewrite skipn_nil. intros E'. now destruct w. }
  destruct (n <? 0)%Z; apply H.
Qed.

Section AppendCompletes.

Variable ma : string -> list float64 -> Z -> list float64.
Hypothesis ma_length :
  forall mamode xs length, List.length (ma mamode xs length) = List.length xs.

Lemma System_append_completes (sys : System.t) (c : Candle) (R : RSI.DataFrame) :
  ready (System.engine sys) = true ->
  RSI.started (System.engine sys) = [] ->
  RSI.calculate ma
    (candles_get_df (Some (RSI.length (System.engine sys) * 5))
                    (System.table sys ++ [c]))
    (RSI.source (System.engine sys)) (RSI.length (System.engine sys))
    (RSI.mamode (System.engine sys)) (RSI.drift (System.engine sys))
    (RSI.offset (System.engine sys)) = Ret R ->
  R <> [] ->
  let sys' := System.process ma (System.ev_append c) sys in
  exists R0 v,
    R = R0 ++ [(Some (index c), v)] /\
    System.table sys' = System.table sys ++ [c] /\
    RSI.xdata (System.engine sys') =
      RSI.xdata (System.engine sys) ++ [Some (index c)] /\
    RSI.data (System.engine sys') = RSI.data (System.engine sys) ++ [v] /\
    RSI.df (System.engine sys') =
      RSI.df (System.engine sys) ++ [(Some (index c), v)] /\
    RSI.emitted (System.engine sys') =
      RSI.emitted (System.engine sys) ++ [sig_add_candle] /\
    RSI.started (System.engine sys') = [] /\
    ready (System.engine sys') = true.
Proof.
  intros Hr Hs Hc Hne sys'.
  destruct (RSI_calculate_last_row ma ma_length _ _ _ _ _ _ Hc Hne)
    as (w & c' & R0 & v & Hw & HR).
  unfold candles_get_df in Hw. apply tail_snoc_last in Hw. subst c'.
  exists R0, v. split; [exact HR|].
  destruct (RSI_add_submits (System.table sys ++ [c]) [] c _ Hr)
    as (Hj & He & Hd & Hx & Hy & Hr').
  simpl app in Hj, He, Hd, Hx, Hy, Hr'. rewrite Hs in Hj. simpl in Hj.
  subst sys'. unfold System.process, System.complete, System.deliver.
  simpl System.engine. simpl System.table. simpl System.handler.
  rewrite Hj. unfold System.complete_job. simpl RSI.job_callback.
  unfold RSI.run_job. simpl. unfold RSI.callback. rewrite Hc, HR.
  set (s1 := RSI.set_started [] _).
  destruct (RSI_callback_add_appends s1 R0 (Some (index c), v))
    as (D & X & Y & E & S' & F & G).
  split; [reflexivity|].
  split; [etransitivity; [exact X|]; subst s1; simpl; now rewrite Hx|].
  split; [etransitivity; [exact Y|]; subst s1; simpl; now rewrite Hy|].
  split; [etransitivity; [exact D|]; subst s1; simpl; now rewrite Hd|].
  split; [etransitivity; [exact E|]; subst s1; simpl; now rewrite He|].
  split; [etransitivity; [exact S'|]; reflexivity|].
  unfold ready in *.
  etransitivity; [|exact Hr'].
  f_equal; [exact F|f_equal; exact G].
Qed.

End AppendCompletes.

Lemma System_append_no_row (ma : string -> list float64 -> Z -> list float64)
    (sys : System.t) (c : Candle) :
  ready (System.engine sys) = true ->
  RSI.started (System.engine sys) = [] ->
  (RSI.calculate ma
     (candles_get_df (Some (RSI.length (System.engine sys) * 5))
                     (System.table sys ++ [c]))
     (RSI.source (System.engine sys)) (RSI.length (System.engine sys))
     (RSI.mamode (System.engine sys)) (RSI.drift (System.engine sys))
     (RSI.offset (System.engine sys)) = Ret [] \/
   exists e,
     RSI.calculate ma
       (candles_get_df (Some (RSI.length (System.engine sys) * 5))
                       (System.table sys ++ [c]))
       (RSI.source (System.engine sys)) (RSI.length (System.engine sys))
       (RSI.mamode (System.engine sys)) (RSI.drift (System.engine sys))
       (RSI.offset (System.engine sys)) = Raise e) ->
  let sys' := System.process ma (System.ev_append c) sys in
  System.table sys' = System.table sys ++ [c] /\
  RSI.df (System.engine sys') = RSI.df (System.engine sys) /\
  RSI.xdata (System.engine sys') = RSI.xdata (System.engine sys) /\
  RSI.data (System.engine sys') = RSI.data (System.engine sys) /\
  RSI.emitted (System.engine sys') = RSI.emitted (System.engine sys) /\
  RSI.started (System.engine sys') = [].
Proof.
  intros Hr Hs Hc sys'.
  destruct (RSI_add_submits (System.table sys ++ [c]) [] c _ Hr)
    as (Hj & He & Hd & Hx & Hy & Hr').
  simpl app in Hj, He, Hd, Hx, Hy, Hr'. rewrite Hs in Hj. simpl in Hj.
  subst sys'. unfold System.process, System.complete, System.deliver.
  simpl System.engine. simpl System.table. simpl System.handler.
  rewrite Hj. unfold System.complete_job. simpl RSI.job_callback.
  unfold RSI.run_job. simpl. unfold RSI.callback.
  set (s1 := RSI.set_started [] _).
  assert (E : exec (RSI.callback_add
                      (RSI.calculate ma
                         (candles_get_df
                            (Some (RSI.length (System.engine sys) * 5))
                            (System.table sys ++ [c]))
                         (RSI.source (System.engine sys))
                         (RSI.length (System.engine sys))
                         (RSI.mamode (System.engine sys))
                         (RSI.drift (System.engine sys))
                         (RSI.offset (System.engine sys)))) s1 = s1).
  { destruct Hc as [-> | [e ->]]; reflexivity. }
  rewrite E. subst s1. simpl.
  repeat split; assumption.
Qed.

(** C3, as the code has it.  Completing an append job whose table has a
    last row appends that row, and only it, to the series: the table and
    each array get one more element and one [sig_add_candle] is emitted.
    Completing an append job whose table has no row, or that failed, raises
    before any write: the engine is left as it was, nothing is appended and
    nothing is emitted.  For an append event processed to completion on a
    ready engine: when the job's table has a row, the appended index is the
    index of the new candle (the moving average is taken to give a series
    over the labels of its argument); when it has none, the candle is in
    the source's table and the series is as before.  In the MACD engine the
    handler computes and appends at once, with the index of the new candle,
    when each of the three series has a last value, and appends and emits
    nothing when one of them is empty. *)
Theorem append_merges_last_row :
  (forall (s : RSI.t) (R0 : RSI.DataFrame) (row : RSI.Row),
     let s' := exec (RSI.callback_add (Ret (R0 ++ [row]))) s in
     RSI.df s' = RSI.df s ++ [row] /\
     RSI.xdata s' = RSI.xdata s ++ [fst row] /\
     RSI.data s' = RSI.data s ++ [snd row] /\
     List.length (RSI.xdata s') = S (List.length (RSI.xdata s)) /\
     List.length (RSI.data s') = S (List.length (RSI.data s)) /\
     RSI.emitted s' = RSI.emitted s ++ [sig_add_candle]) /\
  (forall (s : RSI.t),
     exec (RSI.callback_add (Ret [])) s = s /\
     outcome (RSI.callback_add (Ret [])) s = Raise IndexError /\
     forall e, exec (RSI.callback_add (Raise e)) s = s /\
               outcome (RSI.callback_add (Raise e)) s = Raise e) /\
  (forall (ma : string -> list float64 -> Z -> list float64)
          (sys : System.t) (c : Candle) (R : RSI.DataFrame),
     (forall mamode xs length,
        List.length (ma mamode xs length) = List.length xs) ->
     ready (System.engine sys) = true ->
     RSI.started (System.engine sys) = [] ->
     RSI.calculate ma
       (candles_get_df (Some (RSI.length (System.engine sys) * 5))
                       (System.table sys ++ [c]))
       (RSI.source (System.engine sys)) (RSI.length (System.engine sys))
       (RSI.mamode (System.engine sys)) (RSI.drift (System.engine sys))
       (RSI.offset (System.engine sys)) = Ret R ->
     R <> [] ->
     let sys' := System.process ma (System.ev_append c) sys in
     exists R0 v,
       R = R0 ++ [(Some (index c), v)] /\
       RSI.xdata (System.engine sys') =
         RSI.xdata (System.engine sys) ++ [Some (index c)] /\
       RSI.data (System.engine sys') = RSI.data (System.engine sys) ++ [v] /\
       RSI.emitted (System.engine sys') =
         RSI.emitted (System.engine sys) ++ [sig_add_candle]) /\
  (forall (ma : string -> list float64 -> Z -> list float64)
          (sys : System.t) (c : Candle),
     ready (System.engine sys) = true ->
     RSI.started (System.engine sys) = [] ->
     (RSI.calculate ma
        (candles_get_df (Some (RSI.length (System.engine sys) * 5))
                        (System.table sys ++ [c]))
        (RSI.source (System.engine sys)) (RSI.length (System.engine sys))
        (RSI.mamode (System.engine sys)) (RSI.drift (System.engine sys))
        (RSI.offset (System.engine sys)) = Ret [] \/
      exists e,
        RSI.calculate ma
          (candles_get_df (Some (RSI.length (System.engine sys) * 5))
                          (System.table sys ++ [c]))
          (RSI.source (System.engine sys)) (RSI.length (System.engine sys))
          (RSI.mamode (System.engine sys)) (RSI.drift (System.engine sys))
          (RSI.offset (System.engine sys)) = Raise e) ->
     let sys' := System.process ma (System.ev_append c) sys in
     System.table sys' = System.table sys ++ [c] /\
     RSI.df (System.engine sys') = RSI.df (System.engine sys) /\
     RSI.xdata (System.engine sys') = RSI.xdata (System.engine sys) /\
     RSI.data (System.engine sys') = RSI.data (System.engine sys) /\
     RSI.emitted (System.engine sys') = RSI.emitted (System.engine sys)) /\
  (forall (ma : string -> list float64 -> Z -> list float64)
          (table cs : list Candle) (c : Candle) (s : MACD.t)
          (close_ : list float64) (m h g : list (Z * float64))
          (vm vh vg : float64),
     MACD.first_gen s = true ->
     MACD.is_genering s = false ->
     column (MACD.source s)
            (candles_get_df (Some (MACD.slow_period s * 5)) table) = Ret close_ ->
     MACD.paire_data
       (MACD.macd ma close_ (MACD.fast_period s) (MACD.slow_period s)
                  (MACD.signal_period s) (MACD.mamode s) (MACD.offset s))
       = (m, h, g) ->
     iloc_last (MACD.values m) = Ret vm ->
     iloc_last (MACD.values h) = Ret vh ->
     iloc_last (MACD.values g) = Ret vg ->
     let s' := exec (MACD.add ma table (cs ++ [c])) s in
     MACD.xdata s' = MACD.xdata s ++ [Some (index c)] /\
     MACD.macd_data s' = MACD.macd_data s ++ [vm] /\
     MACD.histogram s' = MACD.histogram s ++ [vh] /\
     MACD.signalma s' = MACD.signalma s ++ [vg] /\
     MACD.emitted s' = MACD.emitted s ++ [sig_add_candle]) /\
  (forall (ma : string -> list float64 -> Z -> list float64)
          (table cs : list Candle) (c : Candle) (s : MACD.t)
          (close_ : list float64) (m h g : list (Z * float64)),
     MACD.first_gen s = true ->
     MACD.is_genering s = false ->
     column (MACD.source s)
            (candles_get_df (Some (MACD.slow_period s * 5)) table) = Ret close_ ->
     MACD.paire_data
       (MACD.macd ma close_ (MACD.fast_period s) (MACD.slow_period s)
                  (MACD.signal_period s) (MACD.mamode s) (MACD.offset s))
       = (m, h, g) ->
     m = [] \/ h = [] \/ g = [] ->
     let s' := exec (MACD.add ma table (cs ++ [c])) s in
     MACD.df s' = MACD.df s /\
     MACD.xdata s' = MACD.xdata s /\
     MACD.macd_data s' = MACD.macd_data s /\
     MACD.histogram s' = MACD.histogram s /\
     MACD.signalma s' = MACD.signalma s /\
     MACD.emitted s' = MACD.emitted s).
Proof.
  split; [|split; [|split; [|split; [|split]]]].
  - intros s R0 row s'.
    destruct (RSI_callback_add_appends s R0 row) as (D & X & Y & E & _).
    fold s' in D, X, Y, E. rewrite D, X, Y, E, !length_app. simpl.
    repeat split; lia.
  - intros s. split; [reflexivity|]. split; [reflexivity|].
    intros e. split; reflexivity.
  - intros ma sys c R Hma Hr Hs Hc Hne sys'.
    destruct (System_append_completes ma Hma sys c Hr Hs Hc Hne)
      as (R0 & v & HR & _ & X & Y & _ & E & _).
    exists R0, v. repeat split; assumption.
  - intros ma sys c Hr Hs Hc sys'.
    destruct (System_append_no_row ma sys c Hr Hs Hc)
      as (T & D & X & Y & E & _).
    repeat split; assumption.
  - intros ma table cs c s close_ m h g vm vh vg Hf Hg Hc Hp Hm Hh Hs s'.
    destruct (MACD_add_appends ma table cs c s Hf Hg Hc Hp Hm Hh Hs)
      as (_ & X & M1 & H1 & G1 & E & _).
    repeat split; assumption.
  - intros ma table cs c s close_ m h g Hf Hg Hc Hp He s'.
    destruct (MACD_add_no_row ma table cs c s Hf Hg Hc Hp He)
      as (D & X & M1 & H1 & G1 & E & _).
    repeat split; assumption.
Qed.

(** ** Completion of a historic load *)

Lemma RSI_callback_historic_prepends (s : RSI.t) (R : RSI.DataFrame) :
  let s' := exec (RSI.callback_gen_historic_data (Ret R)) s in
  RSI.df s' = R ++ RSI.df s /\
  RSI.xdata s' = RSI.col_index R ++ RSI.xdata s /\
  RSI.data s' = RSI.col_data R ++ RSI.data s /\
  RSI.emitted s' = RSI.emitted s ++ [sig_add_historic (List.length R)] /\
  RSI.started s' = RSI.started s /\
  RSI.first_gen s' = true /\
  RSI.is_genering s' = false.
Proof.
  unfold RSI.callback_gen_historic_data, RSI.emit. run.
  destruct (RSI.first_gen s) eqn:E; run; repeat split; assumption.
Qed.

Lemma RSI_add_historic_submits (table : list Candle) (n : Z) (s : RSI.t) :
  let s' := exec (RSI.add_historic table n) s in
  RSI.started s' =
    RSI.started s ++
      [RSI.mkJob cb_gen_historic_data
                 (head (- Z.of_nat (List.length (RSI.df s))) table)
                 (RSI.source s) (RSI.length s) (RSI.mamode s) (RSI.drift s)
                 (RSI.offset s)] /\
  RSI.emitted s' = RSI.emitted s /\
  RSI.df s' = RSI.df s /\
  RSI.xdata s' = RSI.xdata s /\
  RSI.data s' = RSI.data s /\
  RSI.first_gen s' = RSI.first_gen s /\
  RSI.is_genering s' = true.
Proof.
  unfold RSI.add_historic, RSI.start_process, candles_get_df. run. tauto.
Qed.

Lemma head_neg_firstn {A} (k : nat) (l : list A) :
  head (- Z.of_nat k) l =
    match k with
    | O => []
    | S _ => firstn (List.length l - k) l
    end.
Proof.
  unfold head. destruct k as [|k].
  - reflexivity.
  - destruct (Z.ltb_spec (- Z.of_nat (S k)) 0); [|lia].
    rewrite Z.opp_involutive, Nat2Z.id. reflexivity.
Qed.

(** C5, as the code has it.  Completing a historic-load job with the table
    [R] puts [R] before what the engine held, in the table and in each
    array, and emits [sig_add_historic] with the number of rows of [R].
    The job [add_historic] starts is computed over the candle table without
    its last rows, as many as the engine's table has.  Every index the
    prepended block holds is the index of a row of the job's input, so when
    those rows are all older than the first row held, every index the
    block holds is less than the previous first index; a cell of the block
    can hold no index.  When the index column of [R] is the index of the
    last rows of the input, every cell of the block holds an index, less
    than the previous first index. *)
Theorem historic_prepend_merge :
  (forall (s : RSI.t) (R : RSI.DataFrame),
     let s' := exec (RSI.callback_gen_historic_data (Ret R)) s in
     RSI.df s' = R ++ RSI.df s /\
     RSI.xdata s' = RSI.col_index R ++ RSI.xdata s /\
     RSI.data s' = RSI.col_data R ++ RSI.data s /\
     RSI.emitted s' = RSI.emitted s ++ [sig_add_historic (List.length R)]) /\
  (forall (table : list Candle) (n : Z) (s : RSI.t),
     exists j,
       RSI.started (exec (RSI.add_historic table n) s) = RSI.started s ++ [j] /\
       RSI.job_callback j = cb_gen_historic_data /\
       RSI.job_df j = head (- Z.of_nat (List.length (RSI.df s))) table) /\
  (forall (ma : string -> list float64 -> Z -> list float64)
          (input : list Candle) (source : string) (length : Z)
          (mamode : string) (drift offset : Z) (R : RSI.DataFrame)
          (s : RSI.t) (x0 : Z) (rest : list (option Z)),
     RSI.calculate ma input source length mamode drift offset = Ret R ->
     RSI.xdata s = Some x0 :: rest ->
     (forall c, In c input -> index c < x0) ->
     let s' := exec (RSI.callback_gen_historic_data (Ret R)) s in
     forall i, In (Some i) (firstn (List.length R) (RSI.xdata s')) -> i < x0) /\
  (forall (input : list Candle) (R : RSI.DataFrame)
          (s : RSI.t) (x0 : Z) (rest : list (option Z)),
     aligned R input ->
     RSI.xdata s = Some x0 :: rest ->
     (forall c, In c input -> index c < x0) ->
     let s' := exec (RSI.callback_gen_historic_data (Ret R)) s in
     forall cell, In cell (firstn (List.length R) (RSI.xdata s')) ->
                  exists i, cell = Some i /\ i < x0).
Proof.
  assert (B : forall (s : RSI.t) (R : RSI.DataFrame),
            firstn (List.length R)
                   (RSI.xdata (exec (RSI.callback_gen_historic_data (Ret R)) s))
            = RSI.col_index R).
  { intros s R.
    destruct (RSI_callback_historic_prepends s R) as (_ & X & _).
    rewrite X.
    assert (HL : List.length (RSI.col_index R) = List.length R)
      by apply length_map.
    rewrite <- HL, firstn_app, firstn_all, Nat.sub_diag. simpl.
    apply app_nil_r. }
  split; [|split; [|split]].
  - intros s R s'.
    destruct (RSI_callback_historic_prepends s R) as (D & X & Y & E & _).
    repeat split; assumption.
  - intros table n s.
    destruct (RSI_add_historic_submits table n s) as (J & _).
    eexists. split; [exact J|]. split; reflexivity.
  - intros ma input source length mamode drift offset R s x0 rest Hc Hx Hold s' i.
    subst s'. rewrite B. intros Hin.
    pose proof (RSI_calculate_index_from_input _ _ _ _ _ _ _ _ Hc Hin) as Hi.
    apply in_map_iff in Hi. destruct Hi as (c & <- & Hcin). now apply Hold.
  - intros input R s x0 rest Ha Hx Hold s' cell.
    subst s'. rewrite B. unfold aligned in Ha. rewrite Ha. intros Hin.
    apply in_map_iff in Hin. destruct Hin as (i & <- & Hi).
    exists i. split; [reflexivity|].
    apply In_tail in Hi. unfold idxs in Hi.
    apply in_map_iff in Hi. destruct Hi as (c & <- & Hcin). now apply Hold.
Qed.

(** ** Jobs that produce nothing *)

Lemma RSI_calculate_short_input
    (ma : string -> list float64 -> Z -> list float64) (df : list Candle)
    (source : string) (length : Z) (mamode : string) (drift offset : Z)
    (close_ : list float64) :
  column source df = Ret close_ ->
  Z.of_nat (List.length df) < v_pos_default length 14 + 1 ->
  RSI.calculate ma df source length mamode drift offset = Raise AttributeError.
Proof.
  intros Hc Hlen. unfold RSI.calculate. rewrite Hc.
  apply length_column in Hc. unfold RSI.rsi, v_series. rewrite Hc.
  destruct (Z.leb_spec (v_pos_default length 14 + 1) (Z.of_nat (List.length df)));
    [lia|reflexivity].
Qed.

Lemma RSI_callback_failed_job (cb : Callback) (e : exn) (s : RSI.t) :
  exec (RSI.callback cb (Raise e)) s = s /\
  outcome (RSI.callback cb (Raise e)) s = Raise e.
Proof. destruct cb; split; reflexivity. Qed.

(** C8, as the code has it.  For an input shorter than the [length + 1]
    rows the indicator asks for, the calculation has no result and the job
    fails; the completion callback of a failed job leaves the engine as it
    was.  When a job returns an empty table, the completion of an append and
    of a mutate-last leave the engine as it was, and the completion of a
    historic load leaves the table and the arrays as they were; the
    completion of a full regeneration installs the empty table as the
    series, sets [first_gen] and emits [sig_reset_all]. *)
Theorem empty_result_handling :
  (forall (ma : string -> list float64 -> Z -> list float64)
          (df : list Candle) (source : string) (length : Z) (mamode : string)
          (drift offset : Z) (close_ : list float64),
     column source df = Ret close_ ->
     Z.of_nat (List.length df) < v_pos_default length 14 + 1 ->
     RSI.calculate ma df source length mamode drift offset
       = Raise AttributeError) /\
  (forall (cb : Callback) (e : exn) (s : RSI.t),
     exec (RSI.callback cb (Raise e)) s = s) /\
  (forall s : RSI.t,
     exec (RSI.callback_add (Ret [])) s = s /\
     exec (RSI.callback_update (Ret [])) s = s) /\
  (forall s : RSI.t,
     let s' := exec (RSI.callback_gen_historic_data (Ret [])) s in
     RSI.df s' = RSI.df s /\ RSI.xdata s' = RSI.xdata s /\
     RSI.data s' = RSI.data s /\
     RSI.emitted s' = RSI.emitted s ++ [sig_add_historic 0]) /\
  (forall s : RSI.t,
     let s' := exec (RSI.callback_first_gen (Ret [])) s in
     RSI.df s' = [] /\ RSI.xdata s' = [] /\ RSI.data s' = [] /\
     RSI.first_gen s' = true /\ RSI.is_genering s' = false /\
     RSI.emitted s' = RSI.emitted s ++ [sig_reset_all]).
Proof.
  split; [exact RSI_calculate_short_input|].
  split; [intros cb e s; apply RSI_callback_failed_job|].
  split; [intros s; split; reflexivity|].
  split.
  - intros s s'.
    destruct (RSI_callback_historic_prepends s []) as (D & X & Y & E & _).
    repeat split; assumption.
  - intros s s'. subst s'. unfold RSI.callback_first_gen, RSI.emit. run.
    destruct (RSI.first_gen s) eqn:E; run; repeat split; assumption.
Qed.

(** ** A calculation whose missing values are its warm-up *)

Lemma length_filter_combine (ls : list Z) (xs : list float64) :
  List.length ls = List.length xs ->
  List.length (filter (fun p => notna (snd p)) (combine ls xs))
  = List.length (filter notna xs).
Proof.
  revert xs. induction ls as [|l ls IH]; intros [|x xs] H; try discriminate;
    [reflexivity|].
  simpl. injection H as H. destruct (notna x); simpl; now rewrite IH.
Qed.

Lemma filter_notna_warmup (w : nat) (vs : list float64) :
  forallb notna vs = true ->
  filter notna (repeat NaN w ++ vs) = vs.
Proof.
  intros Hv. rewrite filter_app, (forallb_filter_id _ _ Hv).
  induction w as [|w IH]; [reflexivity|exact IH].
Qed.

Lemma nth_error_warmup (w : nat) (vs : list float64) (l : nat) :
  forallb notna vs = true ->
  (l < w + List.length vs)%nat ->
  match nth_error (repeat NaN w ++ vs) l with
  | Some x => notna x
  | None => false
  end = (w <=? l)%nat.
Proof.
  intros Hv Hl. destruct (Nat.leb_spec w l) as [H|H].
  - rewrite nth_error_app2 by (rewrite repeat_length; lia).
    rewrite repeat_length.
    destruct (nth_error vs (l - w)) as [x|] eqn:E.
    + rewrite forallb_forall in Hv. apply Hv. eapply nth_error_In; exact E.
    + apply nth_error_None in E. lia.
  - rewrite nth_error_app1 by (rewrite repeat_length; lia).
    rewrite nth_error_repeat by lia. reflexivity.
Qed.

Lemma map_nth_error_seq {A} (xs : list A) (a : nat) :
  map (nth_error xs) (seq a (List.length xs - a)) = map Some (skipn a xs).
Proof.
  revert a. induction xs as [|x xs IH]; intros a;
    [simpl; now rewrite skipn_nil|].
  destruct a as [|a].
  - simpl. f_equal. rewrite <- seq_shift, map_map. simpl.
    specialize (IH 0%nat). rewrite Nat.sub_0_r in IH. exact IH.
  - simpl. rewrite <- seq_shift, map_map. simpl. apply IH.
Qed.

Lemma RSI_calculate_aligned
    (ma : string -> list float64 -> Z -> list float64) (df : list Candle)
    (source : string) (length : Z) (mamode : string) (drift offset : Z)
    (close_ : list float64) (w : nat) (vs : list float64) :
  column source df = Ret close_ ->
  RSI.rsi ma close_ length mamode drift offset = Some (repeat NaN w ++ vs) ->
  forallb notna vs = true ->
  (w + List.length vs)%nat = List.length df ->
  exists R,
    RSI.calculate ma df source length mamode drift offset = Ret R /\
    aligned R df /\ List.length R = List.length vs.
Proof.
  intros Hc Hr Hv Hn. unfold RSI.calculate. rewrite Hc, Hr.
  eexists. split; [reflexivity|].
  set (IND := repeat NaN w ++ vs).
  assert (HL : List.length IND = List.length df)
    by (subst IND; rewrite length_app, repeat_length; exact Hn).
  rewrite HL, Nat.max_id, length_map.
  assert (Hlen : List.length (dropna IND) = List.length vs).
  { unfold dropna. rewrite length_filter_combine by apply length_labels.
    subst IND. now rewrite filter_notna_warmup. }
  rewrite Hlen, tail_of_nat, length_combine, length_labels, length_map,
    Nat.min_id.
  replace (List.length df - List.length vs)%nat with w by lia.
  set (_index := skipn w (combine (labels (List.length df)) (map index df))).
  set (y_data := map (fun p => (fst p, round6 (snd p))) (dropna IND)).
  assert (HP : filter (fun l => has_label l _index || has_label l y_data)
                      (labels (List.length df))
               = map Z.of_nat (seq w (List.length vs))).
  { unfold labels. rewrite <- Hn, seq_app, map_app, filter_app. simpl.
    rewrite (filter_ext_in _ (fun _ => false)), filter_false.
    2:{ intros l Hl. apply in_map_iff in Hl. destruct Hl as (i & <- & Hi).
        apply in_seq in Hi. rewrite !has_label_lookup.
        subst _index y_data.
        rewrite <- (length_map index df) at 1.
        rewrite lookup_skipn_rows, lookup_dropna.
        destruct (Nat.leb_spec w i); [lia|].
        pose proof (@nth_error_warmup w vs i Hv ltac:(lia)) as E.
        fold IND in E. destruct (nth_error IND i) as [x|]; [|reflexivity].
        destruct (Nat.leb_spec w i); [lia|]. now rewrite E. }
    simpl. rewrite (filter_ext_in _ (fun _ => true)), filter_true; [reflexivity|].
    intros l Hl. apply in_map_iff in Hl. destruct Hl as (i & <- & Hi).
    apply in_seq in Hi. rewrite !has_label_lookup. subst _index.
    rewrite <- (length_map index df) at 1. rewrite lookup_skipn_rows.
    destruct (Nat.leb_spec w i); [|lia].
    destruct (nth_error (map index df) i) eqn:E; [reflexivity|].
    apply nth_error_None in E. rewrite length_map in E. lia. }
  split.
  - unfold aligned, RSI.frame, RSI.col_index. rewrite HP, !map_map. simpl.
    rewrite length_map, length_seq, tail_of_nat. unfold idxs.
    rewrite length_map.
    replace (List.length df - List.length vs)%nat with w by lia.
    rewrite <- (map_nth_error_seq (map index df) w), length_map.
    replace (List.length df - w)%nat with (List.length vs) by lia.
    apply map_ext_in. intros i Hi. apply in_seq in Hi. subst _index.
    rewrite <- (length_map index df) at 1. rewrite lookup_skipn_rows.
    destruct (Nat.leb_spec w i); [reflexivity|lia].
  - unfold RSI.frame. now rewrite HP, !length_map, length_seq.
Qed.

(** ** A flat window *)

Lemma Qzero_b_iff (q : Q) : Qzero_b q = true <-> (q == 0)%Q.
Proof.
  unfold Qzero_b, Qeq. simpl. rewrite Z.eqb_eq. lia.
Qed.

Lemma Qzero_b_Qred (q : Q) : (q == 0)%Q -> Qzero_b (Qred q) = true.
Proof. intros H. apply Qzero_b_iff. now rewrite Qred_correct. Qed.

Lemma fsub_same (q : Q) : zero_or_nan (fsub (Fin q) (Fin q)) = true.
Proof.
  cbn -[Qred Qplus Qopp Qzero_b]. apply Qzero_b_Qred.
  rewrite Qred_correct. ring.
Qed.

Lemma zero_or_nan_fmul (c : Q) (x : float64) :
  zero_or_nan x = true -> zero_or_nan (fmul (Fin c) x) = true.
Proof.
  destruct x as [|s|q]; cbn -[Qred Qmult Qzero_b]; try easy.
  intros H. apply Qzero_b_iff in H. apply Qzero_b_Qred. rewrite H. ring.
Qed.

Lemma zero_or_nan_fabs (x : float64) :
  zero_or_nan x = true -> zero_or_nan (fabs x) = true.
Proof.
  destruct x as [|s|q]; cbn -[Qred Qabs Qzero_b]; try easy.
  intros H. apply Qzero_b_iff in H. apply Qzero_b_Qred. now rewrite H.
Qed.

Lemma zero_or_nan_fadd (x y : float64) :
  zero_or_nan x = true -> zero_or_nan y = true ->
  zero_or_nan (fadd x y) = true.
Proof.
  destruct x as [|s|a], y as [|t|b]; cbn -[Qred Qplus Qzero_b]; try easy.
  intros Ha Hb. apply Qzero_b_iff in Ha, Hb. apply Qzero_b_Qred.
  rewrite Ha, Hb. ring.
Qed.

Lemma fdiv_zero_or_nan (x y : float64) :
  zero_or_nan x = true -> zero_or_nan y = true -> fdiv x y = NaN.
Proof.
  destruct x as [|s|a], y as [|t|b]; cbn -[Qred Qdiv Qzero_b]; try easy.
  intros Ha Hb. now rewrite Ha, Hb.
Qed.

Lemma cell_forallb (P : float64 -> bool) (xs : list float64) (i : Z) :
  P NaN = true -> forallb P xs = true -> P (cell xs i) = true.
Proof.
  intros HN Hxs. unfold cell. destruct (i <? 0)%Z; [exact HN|].
  destruct (nth_in_or_default (Z.to_nat i) xs NaN) as [H| ->]; [|exact HN].
  rewrite forallb_forall in Hxs. now apply Hxs.
Qed.

Lemma forallb_map_labels (P : float64 -> bool) (f : Z -> float64) (n : nat) :
  (forall i, P (f i) = true) -> forallb P (map f (labels n)) = true.
Proof.
  intros H. apply forallb_forall. intros x Hx.
  apply in_map_iff in Hx. destruct Hx as (i & <- & _). apply H.
Qed.

Lemma dropna_all_missing (xs : list float64) :
  forallb isna xs = true -> dropna xs = [].
Proof.
  unfold dropna. generalize (labels (List.length xs)).
  induction xs as [|x xs IH]; intros ls H; destruct ls as [|l ls];
    try reflexivity.
  simpl in H. apply andb_prop in H. destruct H as [Hx Hxs].
  simpl. unfold notna. rewrite Hx. simpl. now apply IH.
Qed.

(** On a window whose close is the same at every row the RSI is missing at
    every row, whatever the moving average, as long as it makes zeros and
    missing values of zeros and missing values: the table is empty. *)
Lemma RSI_calculate_flat_window
    (ma : string -> list float64 -> Z -> list float64) (df : list Candle)
    (q : Q) (length : Z) (mamode : string) (drift offset : Z) :
  (forall m xs l,
     forallb zero_or_nan xs = true -> forallb zero_or_nan (ma m xs l) = true) ->
  (forall c, In c df -> close c = Fin q) ->
  v_pos_default length 14 + 1 <= Z.of_nat (List.length df) ->
  RSI.calculate ma df "close" length mamode drift offset = Ret [].
Proof.
  intros Hma Hflat Hlen. unfold RSI.calculate.
  change (column "close" df) with (Ret (map close df)). cbv iota.
  unfold RSI.rsi, v_series. rewrite length_map.
  destruct (Z.leb_spec (v_pos_default length 14 + 1) (Z.of_nat (List.length df)))
    as [_|Hgt]; [|lia].
  set (negative := diff (v_drift drift) (map close df)).
  assert (Hneg : forallb zero_or_nan negative = true).
  { subst negative. unfold diff. apply forallb_map_labels. intros i.
    assert (Hc : forall j, cell (map close df) j = NaN \/
                           cell (map close df) j = Fin q).
    { intros j. unfold cell. destruct (j <? 0)%Z; [now left|].
      destruct (nth_in_or_default (Z.to_nat j) (map close df) NaN) as [H|H];
        [|now left].
      right. apply in_map_iff in H. destruct H as (c & <- & Hc).
      now apply Hflat. }
    destruct (Hc i) as [->| ->], (Hc (i - v_drift drift)) as [->| ->];
      try reflexivity.
    apply fsub_same. }
  set (positive := map (fun x => if flt0 x then Fin 0 else x) negative).
  set (negative' := map (fun x => if fgt0 x then Fin 0 else x) negative).
  assert (Hpos : forallb zero_or_nan positive = true).
  { subst positive. apply forallb_forall. intros x Hx.
    apply in_map_iff in Hx. destruct Hx as (y & <- & Hy).
    rewrite forallb_forall in Hneg. destruct (flt0 y); [reflexivity|].
    now apply Hneg. }
  assert (Hneg' : forallb zero_or_nan negative' = true).
  { subst negative'. apply forallb_forall. intros x Hx.
    apply in_map_iff in Hx. destruct Hx as (y & <- & Hy).
    rewrite forallb_forall in Hneg. destruct (fgt0 y); [reflexivity|].
    now apply Hneg. }
  pose proof (Hma mamode positive (v_pos_default length 14) Hpos) as Hpa.
  pose proof (Hma mamode negative' (v_pos_default length 14) Hneg') as Hna.
  set (positive_avg := ma mamode positive (v_pos_default length 14)) in *.
  set (negative_avg := ma mamode negative' (v_pos_default length 14)) in *.
  set (r := series_op fdiv (map (fmul (Fin 100)) positive_avg)
              (series_op fadd positive_avg (map fabs negative_avg))).
  assert (Hr : forallb isna r = true).
  { subst r. unfold series_op at 1. apply forallb_map_labels. intros i.
    rewrite fdiv_zero_or_nan; [reflexivity| |].
    - apply cell_forallb; [reflexivity|]. apply forallb_forall.
      intros x Hx. apply in_map_iff in Hx. destruct Hx as (y & <- & Hy).
      apply zero_or_nan_fmul. rewrite forallb_forall in Hpa. now apply Hpa.
    - apply cell_forallb; [reflexivity|]. unfold series_op.
      apply forallb_map_labels. intros j. apply zero_or_nan_fadd.
      + now apply cell_forallb.
      + apply cell_forallb; [reflexivity|]. apply forallb_forall.
        intros x Hx. apply in_map_iff in Hx. destruct Hx as (y & <- & Hy).
        apply zero_or_nan_fabs. rewrite forallb_forall in Hna. now apply Hna. }
  assert (Hind : forallb isna
            (if (v_offset offset =? 0)%Z then r else shift (v_offset offset) r)
            = true).
  { destruct (v_offset offset =? 0)%Z; [exact Hr|].
    unfold shift. apply forallb_map_labels. intros i.
    now apply cell_forallb. }
  cbv zeta. fold negative. fold positive. fold negative'.
  fold positive_avg. fold negative_avg. fold r.
  rewrite (dropna_all_missing _ Hind).
  change (List.length (map _ (@nil (Z * float64)))) with 0%nat.
  rewrite tail_of_nat, Nat.sub_0_r.
  rewrite skipn_all2 by (rewrite length_combine, length_labels, length_map; lia).
  unfold RSI.frame.
  rewrite (filter_ext _ (fun _ => false)) by reflexivity.
  now rewrite filter_false.
Qed.

Lemma rma_from_zero_or_nan (alpha : Q) (mp : nat) (xs : list float64) :
  forallb zero_or_nan xs = true ->
  forall avg count,
    match avg with Some a => zero_or_nan a = true | None => True end ->
    forallb zero_or_nan (rma_from alpha mp avg count xs) = true.
Proof.
  induction xs as [|x xs IH]; intros Hxs avg count Havg; [reflexivity|].
  simpl in Hxs. apply andb_prop in Hxs. destruct Hxs as [Hx Hxs].
  simpl. destruct (isna x) eqn:Ex.
  - simpl. rewrite IH by assumption. rewrite andb_true_r.
    destruct avg as [a|]; [|reflexivity].
    destruct (mp <=? count)%nat; [exact Havg|reflexivity].
  - set (a' := match avg with
               | Some a => fadd (fmul (Fin (1 - alpha)) a) (fmul (Fin alpha) x)
               | None => x
               end).
    assert (Ha' : zero_or_nan a' = true).
    { subst a'. destruct avg as [a|]; [|exact Hx].
      apply zero_or_nan_fadd; now apply zero_or_nan_fmul. }
    simpl. rewrite IH by assumption. rewrite andb_true_r.
    destruct (mp <=? S count)%nat; [exact Ha'|reflexivity].
Qed.

Lemma rma_zero_or_nan (m : string) (xs : list float64) (l : Z) :
  forallb zero_or_nan xs = true -> forallb zero_or_nan (rma m xs l) = true.
Proof. intros H. now apply rma_from_zero_or_nan. Qed.

(** ** The index of the series along a run of events *)

Lemma sorted_app (l1 l2 : list Z) :
  StronglySorted Z.lt (l1 ++ l2) ->
  StronglySorted Z.lt l1 /\ StronglySorted Z.lt l2.
Proof.
  induction l1 as [|a l1 IH]; simpl; intros H.
  - split; [constructor|exact H].
  - apply StronglySorted_inv in H. destruct H as [H Ha].
    destruct (IH H) as [H1 H2]. split; [|exact H2].
    constructor; [exact H1|].
    rewrite Forall_forall in *. intros x Hx. apply Ha, in_or_app. now left.
Qed.

Lemma sorted_skipn (k : nat) (l : list Z) :
  StronglySorted Z.lt l -> StronglySorted Z.lt (skipn k l).
Proof.
  intros H. rewrite <- (firstn_skipn k l) in H. now apply sorted_app in H.
Qed.

Lemma increasing_suffix (k : nat) (table : list Candle) :
  candle_sorted table -> increasing (map Some (skipn k (idxs table))).
Proof.
  intros H. exists (skipn k (idxs table)). split; [reflexivity|].
  now apply sorted_skipn.
Qed.

Lemma Inv_increasing (sys : System.t) :
  Inv sys -> increasing (RSI.xdata (System.engine sys)).
Proof.
  intros [Hs (k & _ & Hx) _ _ _]. rewrite Hx. now apply increasing_suffix.
Qed.

Lemma Inv_init (table : list Candle) (p : RSI.Params) :
  candle_sorted table -> Inv (System.mk table (RSI.init p)).
Proof.
  intros Hs. constructor; simpl; try reflexivity; try assumption.
  - exists 0%nat. split; [lia|]. rewrite Nat.sub_0_r.
    unfold idxs. rewrite <- (length_map index table), skipn_all. reflexivity.
  - now right.
Qed.

Lemma RSI_fisrt_gen_data_submits (table : list Candle) (s : RSI.t) :
  let s' := exec (RSI.fisrt_gen_data table) s in
  RSI.started s' =
    RSI.started s ++
      [RSI.mkJob cb_first_gen table (RSI.source s) (RSI.length s)
                 (RSI.mamode s) (RSI.drift s) (RSI.offset s)] /\
  RSI.emitted s' = RSI.emitted s /\
  RSI.df s' = [] /\
  RSI.xdata s' = RSI.xdata s /\
  RSI.data s' = RSI.data s /\
  RSI.first_gen s' = RSI.first_gen s /\
  RSI.is_genering s' = true.
Proof.
  unfold RSI.fisrt_gen_data, RSI.start_process, candles_get_df. run. tauto.
Qed.

Lemma RSI_callback_first_gen_installs (s : RSI.t) (R : RSI.DataFrame) :
  let s' := exec (RSI.callback_first_gen (Ret R)) s in
  RSI.df s' = R /\
  RSI.xdata s' = RSI.col_index R /\
  RSI.data s' = RSI.col_data R /\
  RSI.emitted s' = RSI.emitted s ++ [sig_reset_all] /\
  RSI.started s' = RSI.started s /\
  RSI.first_gen s' = true /\
  RSI.is_genering s' = false.
Proof.
  unfold RSI.callback_first_gen, RSI.emit. run.
  destruct (RSI.first_gen s) eqn:E; run; repeat split; assumption.
Qed.

(** What the completion of a mutate-last job does to the table and the
    index array, in every case. *)
Lemma RSI_callback_update_cases (s : RSI.t) (fut : RSI.Future) :
  let s' := exec (RSI.callback_update fut) s in
  RSI.started s' = RSI.started s /\
  RSI.first_gen s' = RSI.first_gen s /\
  RSI.is_genering s' = RSI.is_genering s /\
  ((RSI.df s' = RSI.df s /\ RSI.xdata s' = RSI.xdata s) \/
   (exists R0 row, fut = Ret (R0 ++ [row]) /\ RSI.df s <> [] /\
      RSI.df s' = removelast (RSI.df s) ++ [row] /\
      (RSI.xdata s' = RSI.xdata s \/
       (RSI.xdata s <> [] /\
        RSI.xdata s' = removelast (RSI.xdata s) ++ [fst row])))).
Proof.
  unfold RSI.callback_update, RSI.emit.
  destruct fut as [R|e]; run; [|tauto].
  destruct (iloc_last (RSI.col_index R)) as [i|] eqn:Ei; run; [|tauto].
  destruct (iloc_last (RSI.col_data R)) as [v|] eqn:Ev; run; [|tauto].
  assert (HR : exists R0, R = R0 ++ [(i, v)]).
  { apply iloc_last_inv in Ei. apply iloc_last_inv in Ev.
    destruct Ei as (l1 & E1), Ev as (l2 & E2).
    destruct (rev R) as [|[i' v'] r] eqn:Er.
    - assert (R = []) as -> by (rewrite <- (rev_involutive R), Er; reflexivity).
      now destruct l1.
    - assert (HR : R = rev r ++ [(i', v')])
        by (rewrite <- (rev_involutive R), Er; reflexivity).
      exists (rev r). rewrite HR in E1, E2.
      unfold RSI.col_index, RSI.col_data in E1, E2.
      rewrite map_app in E1, E2. simpl in E1, E2.
      apply app_inj_tail in E1. apply app_inj_tail in E2.
      destruct E1 as [_ ->], E2 as [_ ->]. exact HR. }
  destruct HR as (R0 & ->).
  destruct (assign_last (i, v) (RSI.df s)) as [d|] eqn:Ed; run; [|tauto].
  assert (Hd : RSI.df s <> [])
    by (intros E; rewrite E in Ed; discriminate).
  destruct (assign_last_frame _ _ Ed) as (_ & _ & Ed').
  destruct (assign_last i (RSI.xdata s)) as [x|] eqn:Ex; run.
  2:{ repeat split. right. exists R0, (i, v). repeat split; auto. }
  assert (Hx : RSI.xdata s <> [])
    by (intros E; rewrite E in Ex; discriminate).
  destruct (assign_last_frame _ _ Ex) as (_ & _ & Ex').
  destruct (assign_last v (RSI.data s)) as [y|] eqn:Ey; run;
    repeat split; right; exists R0, (i, v); repeat split; auto.
Qed.

Lemma aligned_skipn (R : RSI.DataFrame) (input : list Candle) :
  aligned R input ->
  RSI.col_index R =
    map Some (skipn (List.length input - List.length R) (idxs input)).
Proof.
  unfold aligned. rewrite tail_of_nat. unfold idxs. now rewrite length_map.
Qed.

Lemma aligned_last (R0 : RSI.DataFrame) (row : RSI.Row) (w0 : list Candle)
    (c : Candle) :
  aligned (R0 ++ [row]) (w0 ++ [c]) -> fst row = Some (index c).
Proof.
  intros H. apply aligned_skipn in H. revert H.
  unfold RSI.col_index, idxs. rewrite !map_app, !length_app. simpl.
  rewrite skipn_app, length_map.
  replace (List.length w0 + 1 - (List.length R0 + 1) - List.length w0)%nat
    with 0%nat by lia.
  simpl. rewrite map_app. simpl. intros H.
  apply app_inj_tail in H. now destruct H.
Qed.

Lemma aligned_nil_input (R : RSI.DataFrame) : aligned R [] -> R = [].
Proof.
  unfold aligned, tail, idxs. simpl.
  destruct (Z.of_nat (List.length R) <? 0)%Z; rewrite ?skipn_nil; simpl;
    destruct R; [reflexivity|discriminate|reflexivity|discriminate].
Qed.

Section Preservation.

Variable ma : string -> list float64 -> Z -> list float64.

Lemma Inv_reset (sys : System.t) (tbl : list Candle) :
  Inv sys ->
  source_ok (System.ev_reset tbl) (System.table sys) ->
  job_ok ma (System.ev_reset tbl) sys ->
  Inv (System.process ma (System.ev_reset tbl) sys).
Proof.
  intros [Hs Hk Hd Hi Hr] [Hsrc _] Hjob. simpl in Hsrc.
  destruct (RSI_fisrt_gen_data_submits tbl (System.engine sys))
    as (J & _). rewrite Hi in J. simpl in J.
  unfold job_ok, System.deliver in Hjob. simpl in Hjob.
  rewrite J in Hjob. destruct (Hjob _ eq_refl) as (R & HR & Ha & _).
  unfold System.process, System.complete, System.deliver. simpl.
  rewrite J. unfold System.complete_job. simpl RSI.job_callback.
  unfold RSI.callback. rewrite HR.
  set (s1 := RSI.set_started [] _).
  destruct (RSI_callback_first_gen_installs s1 R) as (D & X & _ & _ & S' & F & G).
  simpl in Ha. apply aligned_skipn in Ha.
  constructor; simpl.
  - exact Hsrc.
  - exists (Nat.min (List.length R) (List.length tbl)). split; [lia|].
    etransitivity; [exact X|]. rewrite Ha. do 2 f_equal. lia.
  - pose proof (f_equal (@List.length _) D) as D1.
    pose proof (f_equal (@List.length _) X) as X1.
    etransitivity; [exact D1|]. symmetry.
    etransitivity; [exact X1|]. apply length_map.
  - etransitivity; [exact S'|]. reflexivity.
  - left. unfold ready.
    replace (RSI.first_gen _) with true by (symmetry; exact F).
    replace (RSI.is_genering _) with false by (symmetry; exact G).
    reflexivity.
Qed.

End Preservation.

Section PreservationAppend.

Variable ma : string -> list float64 -> Z -> list float64.

Lemma Inv_append (sys : System.t) (c : Candle) :
  Inv sys ->
  source_ok (System.ev_append c) (System.table sys) ->
  job_ok ma (System.ev_append c) sys ->
  Inv (System.process ma (System.ev_append c) sys).
Proof.
  intros [Hs (k & Hk & Hx) Hd Hi Hr] [Hsrc _] Hjob.
  change (candle_sorted (System.table sys ++ [c])) in Hsrc.
  set (e := System.engine sys) in *. set (table := System.table sys) in *.
  unfold job_ok in Hjob.
  change (System.engine (System.deliver (System.ev_append c) sys))
    with (exec (RSI.add (table ++ [c]) [c]) e) in Hjob.
  unfold System.process, System.complete.
  change (System.engine (System.deliver (System.ev_append c) sys))
    with (exec (RSI.add (table ++ [c]) [c]) e).
  change (System.table (System.deliver (System.ev_append c) sys))
    with (table ++ [c]).
  destruct (ready e) eqn:Er.
  - destruct (RSI_add_submits (table ++ [c]) [] c e Er)
      as (J & _ & D1 & X1 & _ & R1).
    change ([] ++ [c]) with [c] in J, D1, X1, R1.
    rewrite Hi in J. change ([] ++ ?l) with l in J.
    rewrite J in Hjob. destruct (Hjob _ eq_refl) as (R & HR & Ha & Hne).
    specialize (Hne eq_refl).
    destruct (exists_last Hne) as (R0 & row & ->).
    change (RSI.job_df _)
      with (candles_get_df (Some (RSI.length e * 5)) (table ++ [c])) in Ha.
    assert (Hrow : fst row = Some (index c)).
    { destruct (candles_get_df (Some (RSI.length e * 5)) (table ++ [c]))
        as [|w0 ws] eqn:Ew.
      - apply aligned_nil_input in Ha. now destruct R0.
      - assert (Hw : w0 :: ws <> []) by discriminate.
        destruct (exists_last Hw) as (w & c' & Ew').
        rewrite Ew' in Ew, Ha. unfold candles_get_df in Ew.
        apply tail_snoc_last in Ew. subst c'.
        eapply aligned_last; exact Ha. }
    rewrite J. unfold System.complete_job.
    change (RSI.job_callback _) with cb_add. unfold RSI.callback. rewrite HR.
    set (s1 := RSI.set_started [] _).
    destruct (RSI_callback_add_appends s1 R0 row)
      as (D & X & _ & _ & S' & F & G).
    change (RSI.df s1) with (RSI.df (exec (RSI.add (table ++ [c]) [c]) e)) in D.
    change (RSI.xdata s1)
      with (RSI.xdata (exec (RSI.add (table ++ [c]) [c]) e)) in X.
    change (RSI.started s1) with (@nil RSI.Job) in S'.
    change (RSI.first_gen s1)
      with (RSI.first_gen (exec (RSI.add (table ++ [c]) [c]) e)) in F.
    change (RSI.is_genering s1)
      with (RSI.is_genering (exec (RSI.add (table ++ [c]) [c]) e)) in G.
    rewrite D1 in D. rewrite X1, Hrow, Hx in X.
    constructor.
    + exact Hsrc.
    + exists (S k). change (System.table _) with (table ++ [c]).
      change (RSI.xdata (System.engine _))
        with (RSI.xdata (exec (RSI.callback_add (Ret (R0 ++ [row]))) s1)).
      split; [rewrite length_app; simpl; lia|].
      etransitivity; [exact X|].
      unfold idxs. rewrite map_app, length_app. simpl.
      replace (List.length table + 1 - S k)%nat
        with (List.length table - k)%nat by lia.
      rewrite skipn_app, length_map.
      replace (List.length table - k - List.length table)%nat with 0%nat by lia.
      simpl. now rewrite map_app.
    + change (List.length (RSI.df (exec (RSI.callback_add (Ret (R0 ++ [row]))) s1))
              = List.length
                  (RSI.xdata (exec (RSI.callback_add (Ret (R0 ++ [row]))) s1))).
      pose proof (f_equal (@List.length _) D) as DL.
      pose proof (f_equal (@List.length _) X) as XL.
      etransitivity; [exact DL|]. symmetry. etransitivity; [exact XL|].
      rewrite !length_app, Hd, Hx. simpl. reflexivity.
    + exact S'.
    + left. unfold ready in *.
      change (RSI.first_gen (System.engine _))
        with (RSI.first_gen (exec (RSI.callback_add (Ret (R0 ++ [row]))) s1)).
      change (RSI.is_genering (System.engine _))
        with (RSI.is_genering (exec (RSI.callback_add (Ret (R0 ++ [row]))) s1)).
      etransitivity; [|exact R1]. f_equal; [exact F|f_equal; exact G].
  - destruct (RSI_add_dropped (table ++ [c]) [c] e Er)
      as (S1 & _ & D1 & X1 & _ & F1 & G1).
    rewrite S1, Hi.
    assert (Hnil : RSI.xdata e = []) by (destruct Hr; [discriminate|assumption]).
    constructor.
    + exact Hsrc.
    + exists 0%nat. split; [lia|].
      change (RSI.xdata (System.engine _))
        with (RSI.xdata (exec (RSI.add (table ++ [c]) [c]) e)).
      change (System.table _) with (table ++ [c]).
      rewrite X1, Hnil, Nat.sub_0_r, skipn_all2; [reflexivity|].
      unfold idxs. rewrite length_map. lia.
    + change (List.length (RSI.df (exec (RSI.add (table ++ [c]) [c]) e))
              = List.length (RSI.xdata (exec (RSI.add (table ++ [c]) [c]) e))).
      now rewrite D1, X1.
    + change (RSI.started (exec (RSI.add (table ++ [c]) [c]) e) = []).
      now rewrite S1.
    + right.
      change (RSI.xdata (exec (RSI.add (table ++ [c]) [c]) e) = []).
      now rewrite X1.
Qed.

End PreservationAppend.

Lemma skipn_firstn_skipn {A} (a b : nat) (l : list A) :
  (a <= b)%nat -> skipn a (firstn b l) ++ skipn b l = skipn a l.
Proof.
  intros Hab. rewrite <- (firstn_skipn b l) at 3.
  rewrite skipn_app, length_firstn.
  destruct (Nat.le_gt_cases b (List.length l)) as [Hb|Hb].
  - replace (a - Nat.min b (List.length l))%nat with 0%nat by lia. reflexivity.
  - rewrite (skipn_all2 l) by lia. now rewrite skipn_nil.
Qed.

Lemma length_suffix (k : nat) (table : list Candle) :
  (k <= List.length table)%nat ->
  List.length (map Some (skipn (List.length table - k) (idxs table))) = k.
Proof.
  intros Hk. unfold idxs. rewrite length_map, length_skipn, length_map. lia.
Qed.

Section PreservationUpdate.

Variable ma : string -> list float64 -> Z -> list float64.

Lemma Inv_update (sys : System.t) (c : Candle) :
  Inv sys ->
  source_ok (System.ev_update c) (System.table sys) ->
  job_ok ma (System.ev_update c) sys ->
  Inv (System.process ma (System.ev_update c) sys).
Proof.
  intros [Hs (k & Hk & Hx) Hd Hi Hr] [Hsrc Hidx] Hjob.
  set (e := System.engine sys) in *. set (table := System.table sys) in *.
  change (System.source_step (System.ev_update c) table)
    with (removelast table ++ [c]) in Hsrc, Hidx.
  set (table' := removelast table ++ [c]) in *.
  assert (Hlen : List.length table' = List.length table).
  { pose proof (f_equal (@List.length _) Hidx) as H.
    unfold idxs in H. now rewrite !length_map in H. }
  assert (Hsuf : forall x, x = RSI.xdata e ->
            exists k', (k' <= List.length table')%nat /\
              x = map Some (skipn (List.length table' - k') (idxs table'))).
  { intros x ->. exists k. rewrite Hlen, Hidx. split; assumption. }
  unfold job_ok in Hjob.
  change (System.engine (System.deliver (System.ev_update c) sys))
    with (exec (RSI.update table' [c]) e) in Hjob.
  unfold System.process, System.complete.
  change (System.engine (System.deliver (System.ev_update c) sys))
    with (exec (RSI.update table' [c]) e).
  change (System.table (System.deliver (System.ev_update c) sys)) with table'.
  destruct (ready e) eqn:Er.
  - destruct (RSI_update_submits table' [] c e Er)
      as (J & _ & D1 & X1 & _ & R1).
    change ([] ++ [c]) with [c] in J, D1, X1, R1.
    rewrite Hi in J. change ([] ++ ?l) with l in J.
    rewrite J in Hjob. destruct (Hjob _ eq_refl) as (R & HR & Ha & _).
    change (RSI.job_df _)
      with (candles_get_df (Some (RSI.length e * 5)) table') in Ha.
    rewrite J. unfold System.complete_job.
    change (RSI.job_callback _) with cb_update. unfold RSI.callback. rewrite HR.
    set (s1 := RSI.set_started [] _).
    destruct (RSI_callback_update_cases s1 (Ret R)) as (S' & F & G & Hcases).
    destruct (RSI_callback_update_frame s1 (Ret R)) as (LD & LX & _).
    set (s2 := exec (RSI.callback_update (Ret R)) s1) in *.
    change (RSI.df s1) with (RSI.df (exec (RSI.update table' [c]) e))
      in Hcases, LD.
    change (RSI.xdata s1) with (RSI.xdata (exec (RSI.update table' [c]) e))
      in Hcases, LX.
    change (RSI.started s1) with (@nil RSI.Job) in S'.
    change (RSI.first_gen s1)
      with (RSI.first_gen (exec (RSI.update table' [c]) e)) in F.
    change (RSI.is_genering s1)
      with (RSI.is_genering (exec (RSI.update table' [c]) e)) in G.
    rewrite D1 in Hcases, LD. rewrite X1 in Hcases, LX.
    assert (HX : RSI.xdata s2 = RSI.xdata e).
    { destruct Hcases as [[_ H]|(R0 & row & HR0 & _ & _ & [H|[Hne H]])];
        try exact H.
      injection HR0 as ->. rewrite H.
      assert (Hrow : fst row = Some (index c)).
      { destruct (candles_get_df (Some (RSI.length e * 5)) table')
          as [|w0 ws] eqn:Ew.
        - apply aligned_nil_input in Ha. now destruct R0.
        - assert (Hw : w0 :: ws <> []) by discriminate.
          destruct (exists_last Hw) as (w & c' & Ew').
          rewrite Ew' in Ew, Ha. unfold candles_get_df in Ew.
          subst table'. apply tail_snoc_last in Ew. subst c'.
          eapply aligned_last; exact Ha. }
      rewrite Hrow, Hx. rewrite <- Hidx. subst table'.
      unfold idxs. rewrite map_app. simpl.
      assert (Hk1 : (1 <= k)%nat).
      { destruct k; [|lia]. exfalso. apply Hne. rewrite Hx, Nat.sub_0_r.
        unfold idxs. now rewrite <- (length_map index table), skipn_all. }
      rewrite skipn_app, length_map.
      assert (Hl : List.length table = S (List.length (removelast table))).
      { rewrite <- Hlen, length_app. simpl. lia. }
      replace (List.length table - k - List.length (removelast table))%nat
        with 0%nat by lia.
      simpl. rewrite map_app. simpl. now rewrite removelast_last. }
    constructor.
    + exact Hsrc.
    + apply Hsuf. exact HX.
    + change (List.length (RSI.df s2) = List.length (RSI.xdata s2)).
      now rewrite LD, LX.
    + exact S'.
    + left. unfold ready in *.
      change (RSI.first_gen (System.engine _)) with (RSI.first_gen s2).
      change (RSI.is_genering (System.engine _)) with (RSI.is_genering s2).
      etransitivity; [|exact R1]. f_equal; [exact F|f_equal; exact G].
  - destruct (RSI_update_dropped table' [c] e Er)
      as (S1 & _ & D1 & X1 & _ & F1 & G1).
    rewrite S1, Hi.
    constructor.
    + exact Hsrc.
    + apply Hsuf. exact X1.
    + change (List.length (RSI.df (exec (RSI.update table' [c]) e))
              = List.length (RSI.xdata (exec (RSI.update table' [c]) e))).
      now rewrite D1, X1.
    + change (RSI.started (exec (RSI.update table' [c]) e) = []).
      now rewrite S1.
    + right. destruct Hr as [Hr|Hr]; [unfold e in Er; congruence|].
      change (RSI.xdata (exec (RSI.update table' [c]) e) = []).
      now rewrite X1.
Qed.

End PreservationUpdate.

Section PreservationHistoric.

Variable ma : string -> list float64 -> Z -> list float64.

Lemma Inv_historic (sys : System.t) (older : list Candle) :
  Inv sys ->
  source_ok (System.ev_historic older) (System.table sys) ->
  job_ok ma (System.ev_historic older) sys ->
  Inv (System.process ma (System.ev_historic older) sys).
Proof.
  intros [Hs (k & Hk & Hx) Hd Hi Hr] [Hsrc _] Hjob.
  set (e := System.engine sys) in *. set (table := System.table sys) in *.
  change (System.source_step (System.ev_historic older) table)
    with (older ++ table) in Hsrc.
  set (table' := older ++ table) in *.
  set (n := Z.of_nat (List.length older)).
  unfold job_ok in Hjob.
  change (System.engine (System.deliver (System.ev_historic older) sys))
    with (exec (RSI.add_historic table' n) e) in Hjob.
  unfold System.process, System.complete.
  change (System.engine (System.deliver (System.ev_historic older) sys))
    with (exec (RSI.add_historic table' n) e).
  change (System.table (System.deliver (System.ev_historic older) sys))
    with table'.
  destruct (RSI_add_historic_submits table' n e) as (J & _ & D1 & X1 & _).
  rewrite Hi in J. change ([] ++ ?l) with l in J.
  rewrite J in Hjob. destruct (Hjob _ eq_refl) as (R & HR & Ha & _).
  change (RSI.job_df _)
    with (head (- Z.of_nat (List.length (RSI.df e))) table') in Ha.
  rewrite J. unfold System.complete_job.
  change (RSI.job_callback _) with cb_gen_historic_data.
  unfold RSI.callback. rewrite HR.
  set (s1 := RSI.set_started [] _).
  destruct (RSI_callback_historic_prepends s1 R)
    as (D & X & _ & _ & S' & F & G).
  set (s2 := exec (RSI.callback_gen_historic_data (Ret R)) s1) in *.
  change (RSI.df s1) with (RSI.df (exec (RSI.add_historic table' n) e)) in D.
  change (RSI.xdata s1)
    with (RSI.xdata (exec (RSI.add_historic table' n) e)) in X.
  change (RSI.started s1) with (@nil RSI.Job) in S'.
  rewrite D1 in D. rewrite X1 in X.
  assert (Hdk : List.length (RSI.df e) = k)
    by (rewrite Hd, Hx; now apply length_suffix).
  rewrite Hdk, head_neg_firstn in Ha.
  assert (Hn' : List.length table' = (List.length older + List.length table)%nat)
    by (subst table'; apply length_app).
  assert (Hold : skipn (List.length table' - k) (idxs table')
                 = skipn (List.length table - k) (idxs table)).
  { subst table'. unfold idxs. rewrite map_app, skipn_app, length_map.
    rewrite skipn_all2 by (rewrite length_map; rewrite length_app; lia).
    simpl. f_equal. rewrite length_app. lia. }
  constructor.
  - exact Hsrc.
  - change (System.table _) with table'.
    change (RSI.xdata (System.engine _)) with (RSI.xdata s2).
    rewrite X, Hx.
    destruct k as [|k0].
    + apply aligned_nil_input in Ha. subst R. exists 0%nat.
      split; [lia|]. simpl. rewrite !Nat.sub_0_r. unfold idxs.
      rewrite <- (length_map index table), skipn_all.
      rewrite <- (length_map index table'), skipn_all. reflexivity.
    + apply aligned_skipn in Ha. rewrite Ha, length_firstn.
      replace (idxs (firstn (List.length table' - S k0) table'))
        with (firstn (List.length table' - S k0) (idxs table'))
        by (unfold idxs; apply firstn_map).
      rewrite <- Hold, <- map_app.
      set (b := (List.length table' - S k0)%nat).
      replace (Nat.min b (List.length table')) with b by lia.
      rewrite skipn_firstn_skipn by lia.
      exists (List.length table' - (b - List.length R))%nat.
      split; [lia|]. do 2 f_equal. lia.
  - change (List.length (RSI.df s2) = List.length (RSI.xdata s2)).
    rewrite D, X, !length_app. unfold RSI.col_index.
    rewrite length_map, Hd. reflexivity.
  - exact S'.
  - left. unfold ready.
    change (RSI.first_gen (System.engine _)) with (RSI.first_gen s2).
    change (RSI.is_genering (System.engine _)) with (RSI.is_genering s2).
    now rewrite F, G.
Qed.

(** An event processed to completion keeps the invariant. *)
Lemma Inv_process (ev : System.Event) (sys : System.t) :
  Inv sys ->
  source_ok ev (System.table sys) ->
  job_ok ma ev sys ->
  Inv (System.process ma ev sys).
Proof.
  destruct ev.
  - apply Inv_reset.
  - apply Inv_append.
  - apply Inv_update.
  - apply Inv_historic.
Qed.

Lemma Inv_run (evs : list System.Event) (sys : System.t) :
  Inv sys -> steps_ok ma evs sys -> Inv (System.run ma evs sys).
Proof.
  revert sys. induction evs as [|ev evs IH]; intros sys HI Hok.
  - exact HI.
  - destruct Hok as (Hsrc & Hjob & Hrest). simpl.
    apply IH; [|exact Hrest]. now apply Inv_process.
Qed.

End PreservationHistoric.

(** C6, as the code has it.  Start from a new engine on a sorted candle
    table and process any sequence of reset, append, mutate-last and
    historic-load events to completion, the table of the Candle Source
    staying sorted.  If every job returns a table whose index column is the
    index of the last rows of its input, and every append job returns at
    least one row, the index array of the series is strictly increasing
    after the run. *)
Theorem index_increasing_when_jobs_aligned
    (ma : string -> list float64 -> Z -> list float64)
    (p : RSI.Params) (table : list Candle) (evs : list System.Event) :
  candle_sorted table ->
  steps_ok ma evs (System.mk table (RSI.init p)) ->
  increasing
    (RSI.xdata (System.engine (System.run ma evs (System.mk table (RSI.init p))))).
Proof.
  intros Hs Hok. apply Inv_increasing, Inv_run; [|exact Hok].
  now apply Inv_init.
Qed.

(** ** Runs of the engine

    The sample moving average keeps the labels of its argument. *)

Lemma length_rma_from (alpha : Q) (mp : nat) (xs : list float64) :
  forall avg count, List.length (rma_from alpha mp avg count xs) = List.length xs.
Proof.
  induction xs as [|x xs IH]; intros avg count; simpl; [reflexivity|].
  destruct (isna x); simpl; now rewrite IH.
Qed.

Lemma length_rma (mamode : string) (xs : list float64) (length : Z) :
  List.length (rma mamode xs length) = List.length xs.
Proof. apply length_rma_from. Qed.

Lemma increasing_adjacent (l1 l2 : list (option Z)) (a b : Z) :
  increasing (l1 ++ Some a :: Some b :: l2) -> a < b.
Proof.
  intros (zs & E & S). symmetry in E.
  apply map_eq_app in E. destruct E as (z1 & z2 & -> & _ & E).
  apply map_eq_cons in E. destruct E as (a' & z3 & -> & Ea & E).
  apply map_eq_cons in E. destruct E as (b' & z4 & -> & Eb & _).
  injection Ea as ->. injection Eb as ->.
  apply sorted_app in S. destruct S as [_ S].
  apply StronglySorted_inv in S. destruct S as [_ S].
  rewrite Forall_forall in S. apply S. now left.
Qed.

(** The append that the run below loses is lost with every moving average
    that makes zeros and missing values of zeros and missing values: its
    window is flat. *)
Lemma flat_append_window_any_average
    (ma : string -> list float64 -> Z -> list float64) :
  (forall m xs l,
     forallb zero_or_nan xs = true -> forallb zero_or_nan (ma m xs l) = true) ->
  RSI.calculate ma
    (candles_get_df (Some 10) (table_flat_end ++ [candle 12 3]))
    "close" 2 "rma" 1 0 = Ret [].
Proof.
  intros Hma. apply RSI_calculate_flat_window with (q := inject_Z 3).
  - exact Hma.
  - intros c Hc. vm_compute in Hc.
    repeat (destruct Hc as [<-|Hc]; [reflexivity|]). destruct Hc.
  - vm_compute. discriminate.
Qed.

(** *** Runs that show what the engine does not guarantee *)

(** Against C1 as stated: on a ready engine with no job outstanding, two
    mutate-last events delivered one after the other, before any job
    completes, leave two jobs outstanding; the second trailing-window job is
    started while the first has not completed. *)
Lemma two_jobs_outstanding :
  let sys1 := System.deliver (System.ev_update (candle 5 7)) ready_system in
  let sys2 := System.deliver (System.ev_update (candle 5 8)) sys1 in
  ready (System.engine ready_system) = true /\
  RSI.started (System.engine ready_system) = [] /\
  List.length (RSI.started (System.engine sys1)) = 1%nat /\
  List.length (RSI.started (System.engine sys2)) = 2%nat /\
  map RSI.job_callback (RSI.started (System.engine sys2))
    = [cb_update; cb_update].
Proof. vm_compute. repeat split. Qed.

(** Against C3 as stated: on a ready engine with no job outstanding, an
    append whose trailing window is flat completes with an empty table;
    the candle is in the source's table, but no array grows and nothing is
    emitted. *)
Lemma flat_append_adds_no_row :
  let sys := System.process rma (System.ev_reset table_flat_end) engine0 in
  let sys' := System.process rma (System.ev_append (candle 12 3)) sys in
  ready (System.engine sys) = true /\
  RSI.started (System.engine sys) = [] /\
  RSI.calculate rma
    (candles_get_df (Some 10) (table_flat_end ++ [candle 12 3]))
    "close" 2 "rma" 1 0 = Ret [] /\
  System.table sys' = System.table sys ++ [candle 12 3] /\
  RSI.started (System.engine sys') = [] /\
  RSI.df (System.engine sys') = RSI.df (System.engine sys) /\
  RSI.xdata (System.engine sys') = RSI.xdata (System.engine sys) /\
  RSI.data (System.engine sys') = RSI.data (System.engine sys) /\
  List.length (RSI.xdata (System.engine sys')) <>
    S (List.length (RSI.xdata (System.engine sys))) /\
  RSI.emitted (System.engine sys') = RSI.emitted (System.engine sys) /\
  RSI.emitted (System.engine sys') = [sig_reset_all].
Proof. vm_compute. repeat split. discriminate. Qed.

(** Against C5 as stated: the engine holds the indices 21 to 24 and the
    historic job is computed over six rows, all older than 21.  The close
    stands still from the second row to the third, so the indicator is
    missing there, after its warm-up; the alignment of the index and the
    value columns gives a table of five rows whose first row has no index.
    The five prepended cells are not all indices below 21. *)
Lemma prepended_row_without_index :
  let sys := System.process rma (System.ev_reset table_recent)
               (System.mk [] (RSI.init p1)) in
  let sys' := System.process rma (System.ev_historic table_older) sys in
  RSI.xdata (System.engine sys) = [Some 21; Some 22; Some 23; Some 24] /\
  map RSI.job_df
      (RSI.started
         (System.engine (System.deliver (System.ev_historic table_older) sys)))
    = [table_older ++ [candle 20 1]] /\
  (forall c, In c (table_older ++ [candle 20 1]) -> index c < 21) /\
  RSI.emitted (System.engine sys') = [sig_reset_all; sig_add_historic 5] /\
  RSI.xdata (System.engine sys') =
    [None; Some 12; Some 13; Some 14; Some 20;
     Some 21; Some 22; Some 23; Some 24] /\
  ~ (forall cell, In cell (firstn 5 (RSI.xdata (System.engine sys'))) ->
                  exists i, cell = Some i /\ i < 21).
Proof.
  assert (E : RSI.xdata
                (System.engine
                   (System.process rma (System.ev_historic table_older)
                      (System.process rma (System.ev_reset table_recent)
                         (System.mk [] (RSI.init p1))))) =
              [None; Some 12; Some 13; Some 14; Some 20;
               Some 21; Some 22; Some 23; Some 24])
    by (vm_compute; reflexivity).
  cbv zeta.
  split; [vm_compute; reflexivity|].
  split; [vm_compute; reflexivity|].
  split.
  { intros c Hc. simpl in Hc.
    destruct Hc as [<-|[<-|[<-|[<-|[<-|[<-|[]]]]]]]; vm_compute; reflexivity. }
  split; [vm_compute; reflexivity|].
  split; [exact E|].
  rewrite E. intros H.
  destruct (H None) as (i & Hi & _); [now left|discriminate].
Qed.

(** Against C6 as stated: the source table is sorted at every event and
    every event is processed to completion, yet the index array ends up
    with the index 2 twice.  The window of the first append is flat, so its
    table is empty and the row is lost; the historic load then takes more
    rows from the table than the series lacks. *)
Lemma index_not_increasing_after_lost_append :
  sources_ok events_lost_append [] /\
  RSI.calculate rma
    (candles_get_df (Some 10) (table_flat_end ++ [candle 12 3]))
    "close" 2 "rma" 1 0 = Ret [] /\
  RSI.xdata (System.engine (System.run rma events_lost_append engine0)) =
    [Some (-1); Some 0; Some 1; Some 2; Some 2; Some 3; Some 4; Some 5;
     Some 6; Some 7; Some 8; Some 9; Some 10; Some 11; Some 13] /\
  ~ increasing
      (RSI.xdata (System.engine (System.run rma events_lost_append engine0))).
Proof.
  assert (E : RSI.xdata (System.engine (System.run rma events_lost_append engine0)) =
    [Some (-1); Some 0; Some 1; Some 2; Some 2; Some 3; Some 4; Some 5;
     Some 6; Some 7; Some 8; Some 9; Some 10; Some 11; Some 13])
    by (vm_compute; reflexivity).
  split; [|split; [vm_compute; reflexivity|split; [exact E|]]].
  - vm_compute; repeat constructor.
  - rewrite E. intros H.
    apply (increasing_adjacent [Some (-1); Some 0; Some 1]) in H. lia.
Qed.

(** Against C8 as stated: with a difference period of 3 a table of four
    rows is shorter than the warm-up of the indicator; the calculation
    returns an empty table and the completion of the full regeneration
    installs it: the series that held five rows is empty afterwards and a
    second [sig_reset_all] is emitted. *)
Lemma empty_result_merged_as_reset :
  let sys := System.process rma (System.ev_reset table_moving12)
               (System.mk [] (RSI.init p2_drift3)) in
  let sys' := System.process rma (System.ev_reset table_short) sys in
  RSI.calculate rma table_short "close" 2 "rma" 3 3 = Ret [] /\
  RSI.xdata (System.engine sys) = [Some 7; Some 8; Some 9; Some 10; Some 11] /\
  RSI.emitted (System.engine sys) = [sig_reset_all] /\
  RSI.xdata (System.engine sys') = [] /\
  RSI.data (System.engine sys') = [] /\
  RSI.first_gen (System.engine sys') = true /\
  RSI.is_genering (System.engine sys') = false /\
  RSI.emitted (System.engine sys') = [sig_reset_all; sig_reset_all].
Proof. vm_compute. repeat split. Qed.


(** *** Instances of the theorems *)

Lemma generating_guard_drops_events_witness :
  ready (RSI.init p2) = false /\
  same_series_and_jobs (RSI.init p2)
    (exec (RSI.add table_moving [candle 5 6]) (RSI.init p2)) /\
  ready (System.engine ready_system) = true /\
  List.length
    (RSI.started
       (exec (RSI.add table_moving ([] ++ [candle 5 6]))
             (System.engine ready_system)))
  = S (List.length (RSI.started (System.engine ready_system))).
Proof.
  assert (H0 : ready (RSI.init p2) = false) by (vm_compute; reflexivity).
  assert (H1 : ready (System.engine ready_system) = true)
    by (vm_compute; reflexivity).
  exact (conj H0
           (conj (proj1 (proj1 generating_guard_drops_events table_moving
                               [candle 5 6] (RSI.init p2) H0))
              (conj H1
                 (proj1 (proj2 generating_guard_drops_events table_moving []
                               (candle 5 6) (System.engine ready_system) H1))))).
Defined.

Lemma append_merges_last_row_witness :
  (ready (System.engine ready_system) = true /\
   RSI.started (System.engine ready_system) = [] /\
   exists R0 v,
     append_result = R0 ++ [(Some (index (candle 6 4)), v)] /\
     RSI.xdata (System.engine
                  (System.process rma (System.ev_append (candle 6 4)) ready_system)) =
       RSI.xdata (System.engine ready_system) ++ [Some (index (candle 6 4))] /\
     RSI.data (System.engine
                 (System.process rma (System.ev_append (candle 6 4)) ready_system)) =
       RSI.data (System.engine ready_system) ++ [v] /\
     RSI.emitted (System.engine
                    (System.process rma (System.ev_append (candle 6 4)) ready_system)) =
       RSI.emitted (System.engine ready_system) ++ [sig_add_candle]) /\
  (let sys := System.process rma (System.ev_reset table_flat_end) engine0 in
   let sys' := System.process rma (System.ev_append (candle 12 3)) sys in
   ready (System.engine sys) = true /\
   RSI.started (System.engine sys) = [] /\
   System.table sys' = System.table sys ++ [candle 12 3] /\
   RSI.df (System.engine sys') = RSI.df (System.engine sys) /\
   RSI.xdata (System.engine sys') = RSI.xdata (System.engine sys) /\
   RSI.data (System.engine sys') = RSI.data (System.engine sys) /\
   RSI.emitted (System.engine sys') = RSI.emitted (System.engine sys)) /\
  (MACD.first_gen ready_macd = true /\
   MACD.is_genering ready_macd = false /\
   let s' := exec (MACD.add rma macd_table ([] ++ [candle 12 7])) ready_macd in
   MACD.xdata s' = MACD.xdata ready_macd ++ [Some (index (candle 12 7))] /\
   MACD.macd_data s' = MACD.macd_data ready_macd ++ [macd_vm] /\
   MACD.histogram s' = MACD.histogram ready_macd ++ [macd_vh] /\
   MACD.signalma s' = MACD.signalma ready_macd ++ [macd_vg] /\
   MACD.emitted s' = MACD.emitted ready_macd ++ [sig_add_candle]) /\
  (let s' := exec (MACD.add rma (firstn 2 table_moving) ([] ++ [candle 1 2]))
                  ready_macd in
   MACD.df s' = MACD.df ready_macd /\
   MACD.xdata s' = MACD.xdata ready_macd /\
   MACD.macd_data s' = MACD.macd_data ready_macd /\
   MACD.histogram s' = MACD.histogram ready_macd /\
   MACD.signalma s' = MACD.signalma ready_macd /\
   MACD.emitted s' = MACD.emitted ready_macd).
Proof.
  assert (H1 : ready (System.engine ready_system) = true)
    by (vm_compute; reflexivity).
  assert (H2 : RSI.started (System.engine ready_system) = [])
    by (vm_compute; reflexivity).
  assert (H3 : RSI.calculate rma
       (candles_get_df (Some (RSI.length (System.engine ready_system) * 5))
                       (System.table ready_system ++ [candle 6 4]))
       (RSI.source (System.engine ready_system))
       (RSI.length (System.engine ready_system))
       (RSI.mamode (System.engine ready_system))
       (RSI.drift (System.engine ready_system))
       (RSI.offset (System.engine ready_system)) = Ret append_result)
    by (vm_compute; reflexivity).
  assert (H4 : append_result <> []) by (vm_compute; discriminate).
  pose (flat := System.process rma (System.ev_reset table_flat_end) engine0).
  assert (F1 : ready (System.engine flat) = true) by (vm_compute; reflexivity).
  assert (F2 : RSI.started (System.engine flat) = [])
    by (vm_compute; reflexivity).
  assert (F3 : RSI.calculate rma
       (candles_get_df (Some (RSI.length (System.engine flat) * 5))
                       (System.table flat ++ [candle 12 3]))
       (RSI.source (System.engine flat)) (RSI.length (System.engine flat))
       (RSI.mamode (System.engine flat)) (RSI.drift (System.engine flat))
       (RSI.offset (System.engine flat)) = Ret [] \/
     exists e,
       RSI.calculate rma
         (candles_get_df (Some (RSI.length (System.engine flat) * 5))
                         (System.table flat ++ [candle 12 3]))
         (RSI.source (System.engine flat)) (RSI.length (System.engine flat))
         (RSI.mamode (System.engine flat)) (RSI.drift (System.engine flat))
         (RSI.offset (System.engine flat)) = Raise e)
    by (left; vm_compute; reflexivity).
  assert (M1 : MACD.first_gen ready_macd = true) by (vm_compute; reflexivity).
  assert (M2 : MACD.is_genering ready_macd = false) by (vm_compute; reflexivity).
  assert (M3 : column (MACD.source ready_macd)
                 (candles_get_df (Some (MACD.slow_period ready_macd * 5))
                                 macd_table) = Ret macd_close)
    by (vm_compute; reflexivity).
  assert (M4 : MACD.paire_data
                 (MACD.macd rma macd_close (MACD.fast_period ready_macd)
                    (MACD.slow_period ready_macd)
                    (MACD.signal_period ready_macd) (MACD.mamode ready_macd)
                    (MACD.offset ready_macd)) = (macd_m, macd_h, macd_g))
    by (vm_compute; reflexivity).
  assert (M5 : iloc_last (MACD.values macd_m) = Ret macd_vm)
    by (vm_compute; reflexivity).
  assert (M6 : iloc_last (MACD.values macd_h) = Ret macd_vh)
    by (vm_compute; reflexivity).
  assert (M7 : iloc_last (MACD.values macd_g) = Ret macd_vg)
    by (vm_compute; reflexivity).
  assert (N3 : column (MACD.source ready_macd)
                 (candles_get_df (Some (MACD.slow_period ready_macd * 5))
                                 (firstn 2 table_moving)) = Ret [Fin 1; Fin 2])
    by (vm_compute; reflexivity).
  assert (N4 : MACD.paire_data
                 (MACD.macd rma [Fin 1; Fin 2] (MACD.fast_period ready_macd)
                    (MACD.slow_period ready_macd)
                    (MACD.signal_period ready_macd) (MACD.mamode ready_macd)
                    (MACD.offset ready_macd)) = ([], [], []))
    by (vm_compute; reflexivity).
  assert (N5 : @nil (Z * float64) = [] \/ @nil (Z * float64) = []
               \/ @nil (Z * float64) = [])
    by (left; reflexivity).
  exact (conj
    (conj H1 (conj H2
       (proj1 (proj2 (proj2 append_merges_last_row)) rma ready_system
              (candle 6 4) append_result length_rma H1 H2 H3 H4)))
    (conj
       (conj F1 (conj F2
          (proj1 (proj2 (proj2 (proj2 append_merges_last_row))) rma flat
                 (candle 12 3) F1 F2 F3)))
       (conj
          (conj M1 (conj M2
             (proj1 (proj2 (proj2 (proj2 (proj2 append_merges_last_row))))
                    rma macd_table [] (candle 12 7) ready_macd macd_close
                    macd_m macd_h macd_g macd_vm macd_vh macd_vg
                    M1 M2 M3 M4 M5 M6 M7)))
          (proj2 (proj2 (proj2 (proj2 (proj2 append_merges_last_row))))
                 rma (firstn 2 table_moving) [] (candle 1 2) ready_macd
                 [Fin 1; Fin 2] [] [] [] M1 M2 N3 N4 N5)))).
Defined.


Lemma historic_prepend_merge_witness :
  RSI.calculate rma historic_input "close" 2 "rma" 1 0 = Ret historic_result /\
  aligned historic_result historic_input /\
  RSI.xdata (System.engine ready_system) = Some 2 :: [Some 3; Some 4; Some 5] /\
  (forall c, In c historic_input -> index c < 2) /\
  (forall i,
     In (Some i)
        (firstn (List.length historic_result)
           (RSI.xdata (exec (RSI.callback_gen_historic_data (Ret historic_result))
                            (System.engine ready_system)))) ->
     i < 2) /\
  (forall cell,
     In cell
        (firstn (List.length historic_result)
           (RSI.xdata (exec (RSI.callback_gen_historic_data (Ret historic_result))
                            (System.engine ready_system)))) ->
     exists i, cell = Some i /\ i < 2).
Proof.
  assert (H1 : RSI.calculate rma historic_input "close" 2 "rma" 1 0
               = Ret historic_result) by (vm_compute; reflexivity).
  assert (H2 : RSI.xdata (System.engine ready_system)
               = Some 2 :: [Some 3; Some 4; Some 5])
    by (vm_compute; reflexivity).
  assert (H3 : forall c, In c historic_input -> index c < 2).
  { intros c Hc. simpl in Hc.
    destruct Hc as [<-|[<-|[<-|[<-|[]]]]]; vm_compute; reflexivity. }
  assert (H4 : aligned historic_result historic_input)
    by (vm_compute; reflexivity).
  exact (conj H1 (conj H4 (conj H2 (conj H3 (conj
    (proj1 (proj2 (proj2 historic_prepend_merge)) rma historic_input
           "close"%string 2 "rma"%string 1 0 historic_result
           (System.engine ready_system) 2 [Some 3; Some 4; Some 5] H1 H2 H3)
    (proj2 (proj2 (proj2 historic_prepend_merge)) historic_input
           historic_result (System.engine ready_system) 2
           [Some 3; Some 4; Some 5] H4 H2 H3)))))).
Defined.

Lemma index_increasing_when_jobs_aligned_witness :
  candle_sorted [] /\
  steps_ok rma events_moving (System.mk [] (RSI.init p2)) /\
  increasing
    (RSI.xdata (System.engine
                  (System.run rma events_moving (System.mk [] (RSI.init p2))))).
Proof.
  assert (H1 : candle_sorted []) by constructor.
  assert (H2 : steps_ok rma events_moving (System.mk [] (RSI.init p2))).
  { unfold events_moving. cbn [steps_ok].
    repeat match goal with
           | |- _ /\ _ => split
           | |- True => exact I
           | |- candle_sorted _ => vm_compute; repeat constructor
           | |- source_ok _ _ =>
               split; [vm_compute; repeat constructor
                      |first [exact I|vm_compute; reflexivity]]
           | |- job_ok _ _ _ =>
               intros j Hj; vm_compute in Hj; injection Hj as <-;
               eexists; split; [vm_compute; reflexivity|];
               split; [vm_compute; reflexivity|intros _; discriminate]
           end. }
  exact (conj H1 (conj H2
    (@index_increasing_when_jobs_aligned rma p2 [] events_moving H1 H2))).
Defined.

Lemma channel_length_parity_preserved_witness :
  MACD_parity ready_macd /\
  MACD_parity (exec (MACD.add rma macd_table [candle 12 7]) ready_macd) /\
  MACD_parity (exec (MACD.update rma macd_table [candle 12 7]) ready_macd) /\
  RSI_parity (System.engine ready_system) /\
  RSI_parity (exec (RSI.callback cb_add (Ret [(Some 6, Fin 50)]))
                   (System.engine ready_system)).
Proof.
  assert (H1 : MACD_parity ready_macd) by (vm_compute; repeat split).
  assert (H2 : RSI_parity (System.engine ready_system))
    by (vm_compute; reflexivity).
  exact (conj H1
    (conj (proj1 (proj2 (proj2 (proj2 (proj2
             (proj1 channel_length_parity_preserved rma macd_table
                    [candle 12 7] 0 (Raise IndexError) ready_macd H1))))))
    (conj (proj2 (proj2 (proj2 (proj2 (proj2
             (proj1 channel_length_parity_preserved rma macd_table
                    [candle 12 7] 0 (Raise IndexError) ready_macd H1))))))
    (conj H2
          (proj2 (proj1 (proj2 channel_length_parity_preserved)
                        (System.ev_reset []) [] cb_add
                        (Ret [(Some 6, Fin 50)])
                        (System.engine ready_system) H2)))))).
Defined.

Lemma empty_result_handling_witness :
  column "close" (firstn 2 table_moving) = Ret [Fin 1; Fin 2] /\
  Z.of_nat (List.length (firstn 2 table_moving)) < v_pos_default 2 14 + 1 /\
  RSI.calculate rma (firstn 2 table_moving) "close" 2 "rma" 1 0
    = Raise AttributeError.
Proof.
  assert (H1 : column "close" (firstn 2 table_moving) = Ret [Fin 1; Fin 2])
    by (vm_compute; reflexivity).
  assert (H2 : Z.of_nat (List.length (firstn 2 table_moving))
               < v_pos_default 2 14 + 1) by (vm_compute; reflexivity).
  exact (conj H1 (conj H2
    (proj1 empty_result_handling rma (firstn 2 table_moving) "close"%string 2
           "rma"%string 1 0 [Fin 1; Fin 2] H1 H2))).
Defined.


Lemma get_data_is_total_witness :
  RSI.xdata (RSI.init p2) = [] /\
  RSI.get_data 3 (-2) (RSI.init p2) = ([], []).
Proof.
  assert (H1 : RSI.xdata (RSI.init p2) = []) by reflexivity.
  exact (conj H1 (proj1 get_data_is_total (RSI.init p2) 3 (-2) H1)).
Defined.


(** * Further properties *)

(** ** More on the queries *)

Lemma length_slice {A B} (start stop : option Z) (l : list A) (l' : list B) :
  List.length l = List.length l' ->
  List.length (slice start stop l) = List.length (slice start stop l').
Proof.
  intros H. unfold slice. rewrite H.
  destruct (slice_bounds start stop (Z.of_nat (List.length l'))) as [lo hi].
  rewrite !length_firstn, !length_skipn, H. reflexivity.
Qed.

Lemma slice_split {A} (k : Z) (l : list A) :
  slice None (Some k) l ++ slice (Some k) None l = l.
Proof.
  unfold slice, slice_bounds.
  set (len := Z.of_nat (List.length l)).
  set (a := adjust_index k len).
  assert (Ha : 0 <= a <= len).
  { unfold a, adjust_index. destruct (k <? 0) eqn:E; lia. }
  rewrite Z.sub_0_r. change (Z.to_nat 0) with 0%nat. rewrite skipn_O.
  rewrite (firstn_all2 (n := Z.to_nat (len - a))).
  - apply firstn_skipn.
  - rewrite length_skipn. unfold len in *. lia.
Qed.

(** X1. In a state where every channel array has the length of the index
    array, the sequences [get_data] returns have one length, for every
    [start] and [stop] ([RSI], [MACD] and [KC]). *)
Theorem get_data_sequences_have_one_length :
  (forall (s : RSI.t) (start stop : Z),
     RSI_parity s ->
     List.length (snd (RSI.get_data start stop s))
       = List.length (fst (RSI.get_data start stop s))) /\
  (forall (s : MACD.t) (start stop : Z),
     MACD_parity s ->
     let '(x, m, g, h) := MACD.get_data start stop s in
     List.length m = List.length x /\
     List.length g = List.length x /\
     List.length h = List.length x) /\
  (forall (s : KC.t) (start stop : Z),
     KC_parity s ->
     let '(x, l, c, u) := KC.get_data start stop s in
     List.length l = List.length x /\
     List.length c = List.length x /\
     List.length u = List.length x).
Proof.
  split; [|split].
  - intros s start stop H. unfold RSI_parity in H. unfold RSI.get_data.
    destruct (List.length (RSI.xdata s) =? 0)%nat; [reflexivity|].
    destruct ((start =? 0) && (stop =? 0)); [exact H|].
    destruct ((start =? 0) && negb (stop =? 0));
      [now apply length_slice|].
    destruct (negb (start =? 0) && (stop =? 0)); now apply length_slice.
  - intros s start stop (H1 & H2 & H3). unfold MACD.get_data.
    destruct (List.length (MACD.xdata s) =? 0)%nat; [now repeat split|].
    destruct ((start =? 0) && (stop =? 0)); [now repeat split|].
    destruct ((start =? 0) && negb (stop =? 0));
      [repeat split; now apply length_slice|].
    destruct (negb (start =? 0) && (stop =? 0));
      repeat split; now apply length_slice.
  - intros s start stop (H1 & H2 & H3). unfold KC.get_data.
    destruct (List.length (KC.xdata s) =? 0)%nat; [now repeat split|].
    destruct ((start =? 0) && (stop =? 0)); [now repeat split|].
    destruct ((start =? 0) && negb (stop =? 0));
      [repeat split; now apply length_slice|].
    destruct (negb (start =? 0) && (stop =? 0));
      repeat split; now apply length_slice.
Qed.

(** X2. For a bound [k] other than 0, the rows before [k] and the rows from
    [k] on, as [get_data(0, k)] and [get_data(k, 0)] return them, are the
    whole series in order; this holds for a negative [k] and for a [k]
    beyond the end as well. *)
Theorem get_data_splits_the_series (s : RSI.t) (k : Z) :
  k <> 0 ->
  RSI_parity s ->
  fst (RSI.get_data 0 k s) ++ fst (RSI.get_data k 0 s) = RSI.xdata s /\
  snd (RSI.get_data 0 k s) ++ snd (RSI.get_data k 0 s) = RSI.data s.
Proof.
  intros Hk H. unfold RSI_parity in H. unfold RSI.get_data.
  destruct (List.length (RSI.xdata s) =? 0)%nat eqn:E.
  - apply Nat.eqb_eq in E. rewrite E in H.
    destruct (RSI.xdata s); [|discriminate].
    destruct (RSI.data s); [|discriminate]. now split.
  - assert (Hk' : (k =? 0) = false) by now apply Z.eqb_neq.
    rewrite Hk'. simpl. split; apply slice_split.
Qed.

Lemma get_data_splits_the_series_witness :
  (-1) <> 0 /\
  RSI_parity (System.engine ready_system) /\
  fst (RSI.get_data 0 (-1) (System.engine ready_system))
    ++ fst (RSI.get_data (-1) 0 (System.engine ready_system))
    = RSI.xdata (System.engine ready_system).
Proof.
  assert (H1 : (-1) <> 0) by discriminate.
  assert (H2 : RSI_parity (System.engine ready_system))
    by (vm_compute; reflexivity).
  exact (conj H1 (conj H2
           (proj1 (@get_data_splits_the_series
                     (System.engine ready_system) (-1) H1 H2)))).
Defined.

Lemma get_data_sequences_have_one_length_witness :
  RSI_parity (System.engine ready_system) /\
  List.length (snd (RSI.get_data (-3) (-1) (System.engine ready_system)))
    = List.length (fst (RSI.get_data (-3) (-1) (System.engine ready_system))).
Proof.
  assert (H : RSI_parity (System.engine ready_system))
    by (vm_compute; reflexivity).
  exact (conj H (proj1 get_data_sequences_have_one_length
                   (System.engine ready_system) (-3) (-1) H)).
Defined.

(** X3. [get_df(n)] returns the last rows of the table: the whole table
    for no [n] and for 0, the last [min(n, len)] rows for a positive [n],
    all rows but the first [|n|] for a negative one. *)
Theorem get_df_returns_last_rows (s : RSI.t) (n : option Z) :
  (exists older, RSI.df s = older ++ RSI.get_df n s) /\
  match n with
  | None => RSI.get_df n s = RSI.df s
  | Some n =>
      (n = 0 -> RSI.get_df (Some n) s = RSI.df s) /\
      (0 < n -> List.length (RSI.get_df (Some n) s)
                = Nat.min (Z.to_nat n) (List.length (RSI.df s))) /\
      (n < 0 -> List.length (RSI.get_df (Some n) s)
                = (List.length (RSI.df s) - Z.to_nat (- n))%nat)
  end.
Proof.
  split.
  - destruct n as [n|]; simpl; [|now exists []].
    destruct (n =? 0); [now exists []|].
    unfold tail. destruct (n <? 0).
    + exists (firstn (Z.to_nat (- n)) (RSI.df s)).
      symmetry. apply firstn_skipn.
    + exists (firstn (List.length (RSI.df s) - Z.to_nat n) (RSI.df s)).
      symmetry. apply firstn_skipn.
  - destruct n as [n|]; simpl; [|reflexivity].
    split; [|split]; intros Hn.
    + subst n. reflexivity.
    + assert (E : (n =? 0) = false) by (apply Z.eqb_neq; lia). rewrite E.
      unfold tail. assert (E' : (n <? 0) = false) by (apply Z.ltb_ge; lia).
      rewrite E', length_skipn. lia.
    + assert (E : (n =? 0) = false) by (apply Z.eqb_neq; lia). rewrite E.
      unfold tail. assert (E' : (n <? 0) = true) by (apply Z.ltb_lt; lia).
      rewrite E', length_skipn. reflexivity.
Qed.

Lemma get_df_returns_last_rows_witness :
  (exists older,
     RSI.df (System.engine ready_system)
       = older ++ RSI.get_df (Some 3) (System.engine ready_system)) /\
  List.length (RSI.get_df (Some 3) (System.engine ready_system))
    = Nat.min (Z.to_nat 3) (List.length (RSI.df (System.engine ready_system))).
Proof.
  assert (H : 0 < 3) by reflexivity.
  exact (conj (proj1 (get_df_returns_last_rows (System.engine ready_system) (Some 3)))
              (proj1 (proj2 (proj2 (get_df_returns_last_rows
                                      (System.engine ready_system) (Some 3)))) H)).
Defined.

(** ** The life cycle of an engine *)

Lemma RSI_add_series (table cs : list Candle) (s : RSI.t) :
  RSI_series (exec (RSI.add table cs) s) = RSI_series s.
Proof.
  unfold RSI.add, RSI.start_process, RSI_series. run.
  destruct (iloc_last cs); run; [|reflexivity].
  destruct (RSI.first_gen s && negb (RSI.is_genering s)); reflexivity.
Qed.

Lemma RSI_update_series (table cs : list Candle) (s : RSI.t) :
  RSI_series (exec (RSI.update table cs) s) = RSI_series s.
Proof.
  unfold RSI.update, RSI.start_process, RSI_series. run.
  destruct (iloc_last cs); run; [|reflexivity].
  destruct (RSI.first_gen s && negb (RSI.is_genering s)); reflexivity.
Qed.

Lemma RSI_callback_update_nothing (s : RSI.t) :
  exec (RSI.callback_update (Ret [])) s = s.
Proof. reflexivity. Qed.

Lemma RSI_callback_update_no_table (s : RSI.t) (R : RSI.DataFrame) :
  RSI.df s = [] -> exec (RSI.callback_update (Ret R)) s = s.
Proof.
  intros Hd. unfold RSI.callback_update. run.
  destruct (iloc_last (RSI.col_index R)); run; [|reflexivity].
  destruct (iloc_last (RSI.col_data R)); run; [|reflexivity].
  rewrite Hd. reflexivity.
Qed.

Lemma RSI_lengths_do (c : RSI_call) (s : RSI.t) :
  RSI_lengths s -> RSI_lengths (exec (RSI_do c) s).
Proof.
  unfold RSI_lengths. intros [Hd Hy].
  destruct c as [table|table n|table cs|table cs|table p|table|cb fut];
    cbn [RSI_do].
  - pose proof (RSI_fisrt_gen_data_submits table s) as H. cbv zeta in H.
    destruct H as (_ & _ & -> & -> & -> & _).
    simpl. split; [lia|assumption].
  - pose proof (RSI_add_historic_submits table n s) as H. cbv zeta in H.
    destruct H as (_ & _ & -> & -> & -> & _).
    now split.
  - pose proof (RSI_add_series table cs s) as E. unfold RSI_series in E.
    injection E as -> -> ->. now split.
  - pose proof (RSI_update_series table cs s) as E. unfold RSI_series in E.
    injection E as -> -> ->. now split.
  - unfold RSI.change_input, RSI.fisrt_gen_data, RSI.start_process.
    destruct p; run; (split; [lia|assumption]).
  - unfold RSI.change_source.
    pose proof (RSI_fisrt_gen_data_submits table s) as H. cbv zeta in H.
    destruct H as (_ & _ & -> & -> & -> & _).
    simpl. split; [lia|assumption].
  - destruct fut as [R|e].
    2:{ destruct (RSI_callback_failed_job cb e s) as [-> _]. now split. }
    destruct cb; cbn [RSI.callback].
    + pose proof (RSI_callback_first_gen_installs s R) as H. cbv zeta in H.
      destruct H as (-> & -> & -> & _).
      unfold RSI.col_index, RSI.col_data. rewrite !length_map.
      split; [apply Nat.eq_le_incl|]; reflexivity.
    + pose proof (RSI_callback_historic_prepends s R) as H. cbv zeta in H.
      destruct H as (-> & -> & -> & _).
      unfold RSI.col_index, RSI.col_data. rewrite !length_app, !length_map.
      split; [apply Nat.add_le_mono_l; exact Hd|now rewrite Hy].
    + destruct R as [|r R] using rev_ind.
      * rewrite RSI_callback_add_no_row. now split.
      * pose proof (RSI_callback_add_appends s R r) as H. cbv zeta in H.
        destruct H as (E1 & E2 & E3 & _).
        split.
        -- etransitivity; [apply Nat.eq_le_incl, (f_equal (@List.length _) E1)|].
           etransitivity;
             [|apply Nat.eq_le_incl; symmetry; apply (f_equal (@List.length _) E2)].
           rewrite !length_app. simpl. lia.
        -- etransitivity; [apply (f_equal (@List.length _) E3)|].
           etransitivity; [|symmetry; apply (f_equal (@List.length _) E2)].
           rewrite !length_app. simpl. lia.
    + pose proof (RSI_callback_update_frame s (Ret R)) as H. cbv zeta in H.
      destruct H as (-> & -> & -> & _).
      now split.
Qed.

(** X4. From its construction on, whatever handlers are called and whatever
    futures the completions receive (also failed jobs and empty tables),
    an [RSI] object keeps [len(data) = len(xdata)] and
    [len(df) <= len(xdata)]; the table can be shorter, because the start of
    a full regeneration empties it and leaves the arrays. *)
Theorem lengths_hold_after_any_calls (p : RSI.Params) (cs : list RSI_call) :
  RSI_lengths (RSI_calls cs (RSI.init p)).
Proof.
  unfold RSI_calls.
  assert (H0 : RSI_lengths (RSI.init p)) by (split; simpl; lia).
  revert H0. generalize (RSI.init p). induction cs as [|c cs IH]; intros s Hs.
  - exact Hs.
  - simpl. apply IH. now apply RSI_lengths_do.
Qed.

(** X5. In a state with [len(df) <= len(xdata) = len(data)], the completion
    of a mutate-last job whose table, when it has rows, ends with a row
    that has its index, is all or nothing: either the object is left as it
    was (failed job, empty result, or empty table), or the table and both
    arrays have their last row replaced by the last row of the result and
    [sig_update_candle] is emitted once.  (A last row without index is left
    out: the code then raises between the write of the table and the write
    of the arrays when the index array holds integers.) *)
Theorem mutate_last_is_all_or_nothing (s : RSI.t) (fut : RSI.Future) :
  RSI_lengths s ->
  last_row_indexed fut ->
  let s' := exec (RSI.callback_update fut) s in
  s' = s \/
  (exists R0 row,
     fut = Ret (R0 ++ [row]) /\
     fst row <> None /\
     RSI.df s' = removelast (RSI.df s) ++ [row] /\
     RSI.xdata s' = removelast (RSI.xdata s) ++ [fst row] /\
     RSI.data s' = removelast (RSI.data s) ++ [snd row] /\
     RSI.emitted s' = RSI.emitted s ++ [sig_update_candle]).
Proof.
  intros [Hd Hy] Hi s'. subst s'.
  destruct fut as [R|e].
  2:{ left. exact (proj1 (RSI_callback_failed_job cb_update e s)). }
  destruct R as [|row R0 _] using rev_ind.
  { left. apply RSI_callback_update_nothing. }
  destruct (RSI.df s) as [|d0 d] eqn:Ed.
  { left. now apply RSI_callback_update_no_table. }
  right. exists R0, row. split; [reflexivity|].
  split; [exact (Hi R0 row eq_refl)|].
  rewrite <- Ed. apply RSI_callback_update_last.
  - rewrite Ed. discriminate.
  - intros E. rewrite E in Hd. simpl in Hd. lia.
  - intros E. rewrite E in Hy. simpl in Hd, Hy. lia.
Qed.

Lemma mutate_last_is_all_or_nothing_witness :
  let s := System.engine ready_system in
  let s' := exec (RSI.callback_update (Ret [(Some 5, Fin 50)])) s in
  RSI_lengths s /\
  last_row_indexed (Ret [(Some 5, Fin 50)]) /\
  (s' = s \/
   exists R0 row,
     Ret [(Some 5, Fin 50)] = Ret (R0 ++ [row]) /\
     fst row <> None /\
     RSI.df s' = removelast (RSI.df s) ++ [row] /\
     RSI.xdata s' = removelast (RSI.xdata s) ++ [fst row] /\
     RSI.data s' = removelast (RSI.data s) ++ [snd row] /\
     RSI.emitted s' = RSI.emitted s ++ [sig_update_candle]).
Proof.
  assert (H : RSI_lengths (System.engine ready_system)).
  { split; vm_compute; [lia|reflexivity]. }
  assert (Hi : last_row_indexed (Ret [(Some 5, Fin 50)])).
  { intros R0 row E. injection E as E. destruct R0 as [|r0 R0].
    - injection E as <-. discriminate.
    - destruct R0; discriminate. }
  exact (conj H (conj Hi
           (@mutate_last_is_all_or_nothing _ (Ret [(Some 5, Fin 50)]) H Hi))).
Defined.

(** ** The last row of the table *)

Lemma iloc_last_app_nonempty {A} (l1 l2 : list A) :
  l2 <> [] -> iloc_last (l1 ++ l2) = iloc_last l2.
Proof.
  intros H. destruct l2 as [|x l2 _] using rev_ind; [congruence|].
  rewrite app_assoc, !iloc_last_app. reflexivity.
Qed.

(** X6. [get_last_row_df] raises [IndexError] on an empty table; after the
    completion of an append or of a full regeneration with a result that
    has rows it returns the last row of that result, after a mutate-last
    on a table with rows too, and the completion of a historic load does
    not change the row it returns. *)
Theorem last_row_follows_the_merges :
  (forall s : RSI.t,
     RSI.df s = [] -> RSI.get_last_row_df s = Raise IndexError) /\
  (forall (s : RSI.t) (R0 : RSI.DataFrame) (row : RSI.Row),
     RSI.get_last_row_df (exec (RSI.callback_add (Ret (R0 ++ [row]))) s)
       = Ret row) /\
  (forall (s : RSI.t) (R0 : RSI.DataFrame) (row : RSI.Row),
     RSI.get_last_row_df (exec (RSI.callback_first_gen (Ret (R0 ++ [row]))) s)
       = Ret row) /\
  (forall (s : RSI.t) (R0 : RSI.DataFrame) (row : RSI.Row),
     RSI.df s <> [] ->
     RSI.get_last_row_df (exec (RSI.callback_update (Ret (R0 ++ [row]))) s)
       = Ret row) /\
  (forall (s : RSI.t) (R : RSI.DataFrame),
     RSI.df s <> [] ->
     RSI.get_last_row_df (exec (RSI.callback_gen_historic_data (Ret R)) s)
       = RSI.get_last_row_df s).
Proof.
  unfold RSI.get_last_row_df. repeat split.
  - intros s ->. reflexivity.
  - intros s R0 row.
    pose proof (RSI_callback_add_appends s R0 row) as H. cbv zeta in H.
    destruct H as (E & _).
    etransitivity; [exact (f_equal (@iloc_last _) E)|]. apply iloc_last_app.
  - intros s R0 row.
    pose proof (RSI_callback_first_gen_installs s (R0 ++ [row])) as H.
    cbv zeta in H. destruct H as (E & _).
    etransitivity; [exact (f_equal (@iloc_last _) E)|]. apply iloc_last_app.
  - intros s R0 row Hd.
    unfold RSI.callback_update, RSI.emit, RSI.col_index, RSI.col_data. run.
    rewrite !map_app. simpl. rewrite !iloc_last_app. run.
    rewrite (assign_last_ok _ Hd). run.
    destruct (assign_last (fst row) (RSI.xdata s)); run;
      [|destruct row; apply iloc_last_app].
    destruct (assign_last (snd row) (RSI.data s)); run;
      destruct row; apply iloc_last_app.
  - intros s R Hd.
    pose proof (RSI_callback_historic_prepends s R) as H. cbv zeta in H.
    destruct H as (E & _).
    etransitivity; [exact (f_equal (@iloc_last _) E)|].
    now apply iloc_last_app_nonempty.
Qed.

Lemma last_row_follows_the_merges_witness :
  RSI.df (RSI.init p2) = [] /\
  RSI.get_last_row_df (RSI.init p2) = Raise IndexError /\
  RSI.df (System.engine ready_system) <> [] /\
  RSI.get_last_row_df
    (exec (RSI.callback_update (Ret ([] ++ [(Some 5, Fin 50)])))
          (System.engine ready_system)) = Ret (Some 5, Fin 50).
Proof.
  assert (H1 : RSI.df (RSI.init p2) = []) by reflexivity.
  assert (H2 : RSI.df (System.engine ready_system) <> [])
    by (vm_compute; discriminate).
  exact (conj H1
          (conj (proj1 last_row_follows_the_merges (RSI.init p2) H1)
            (conj H2
              (proj1 (proj2 (proj2 (proj2 last_row_follows_the_merges)))
                 (System.engine ready_system) [] (Some 5, Fin 50) H2)))).
Defined.

(** ** A full regeneration in progress *)

(** X7. The start of a full regeneration ([fisrt_gen_data], also through
    [change_source]) empties the table at once and leaves the arrays: until
    the job completes, [get_data] returns what it returned before,
    [get_df] returns an empty table, [get_last_row_df] raises [IndexError],
    and appends and mutate-lasts are dropped. *)
Theorem regeneration_in_progress_serves_the_old_arrays
    (table : list Candle) (s : RSI.t) :
  let s' := exec (RSI.fisrt_gen_data table) s in
  exec (RSI.change_source table) s = s' /\
  (forall start stop, RSI.get_data start stop s' = RSI.get_data start stop s) /\
  (forall n, RSI.get_df n s' = []) /\
  RSI.get_last_row_df s' = Raise IndexError /\
  ready s' = false /\
  (forall table' new_candles,
     same_series_and_jobs s' (exec (RSI.add table' new_candles) s') /\
     same_series_and_jobs s' (exec (RSI.update table' new_candles) s')).
Proof.
  intros s'.
  pose proof (RSI_fisrt_gen_data_submits table s) as H. cbv zeta in H.
  fold s' in H. destruct H as (_ & _ & Ed & Ex & Ey & _ & Eg).
  assert (Hr : ready s' = false).
  { unfold ready. rewrite Eg. apply andb_false_r. }
  split; [reflexivity|]. split; [|split; [|split; [|split]]].
  - intros start stop. unfold RSI.get_data. rewrite Ex, Ey. reflexivity.
  - intros n. unfold RSI.get_df. rewrite Ed. destruct n as [n|]; [|reflexivity].
    destruct (n =? 0); [reflexivity|]. unfold tail.
    destruct (n <? 0); apply skipn_nil.
  - unfold RSI.get_last_row_df. rewrite Ed. reflexivity.
  - exact Hr.
  - intros table' cs. split.
    + now apply RSI_add_dropped.
    + now apply RSI_update_dropped.
Qed.

(** X8. [change_input] with new parameters starts one full-regeneration job
    on the whole candle table with those parameters, the offset being read
    from the key of the difference period; the engine is Generating with
    [first_gen] cleared, so appends and mutate-lasts are dropped, and the
    completion of the job with a table installs it and makes the engine
    ready. *)
Theorem change_input_restarts_generation
    (table : list Candle) (p : RSI.Params) (s : RSI.t) :
  let s' := exec (RSI.change_input table (Some p)) s in
  RSI.started s' =
    RSI.started s ++
      [RSI.mkJob cb_first_gen table (RSI.p_source p) (RSI.p_length p)
                 (RSI.p_mamode p)
                 (match RSI.p_drift p with Some d => d | None => 1 end)
                 (match RSI.p_drift p with Some d => d | None => 0 end)] /\
  RSI.first_gen s' = false /\
  RSI.is_genering s' = true /\
  RSI.df s' = [] /\
  RSI.xdata s' = RSI.xdata s /\
  RSI.data s' = RSI.data s /\
  RSI.emitted s' = RSI.emitted s /\
  (forall table' new_candles,
     same_series_and_jobs s' (exec (RSI.add table' new_candles) s') /\
     same_series_and_jobs s' (exec (RSI.update table' new_candles) s')) /\
  (forall R : RSI.DataFrame,
     let s'' := exec (RSI.callback_first_gen (Ret R)) s' in
     RSI.df s'' = R /\
     RSI.xdata s'' = RSI.col_index R /\
     RSI.data s'' = RSI.col_data R /\
     ready s'' = true /\
     RSI.emitted s'' = RSI.emitted s ++ [sig_reset_all]).
Proof.
  intros s'.
  assert (E : s' =
    RSI.mk (RSI.p_source p) (RSI.p_length p) (RSI.p_mamode p)
      (match RSI.p_drift p with Some d => d | None => 1 end)
      (match RSI.p_drift p with Some d => d | None => 0 end)
      false true false (RSI.is_histocric_load s) [] (RSI.xdata s) (RSI.data s)
      (RSI.emitted s)
      (RSI.started s ++
        [RSI.mkJob cb_first_gen table (RSI.p_source p) (RSI.p_length p)
           (RSI.p_mamode p)
           (match RSI.p_drift p with Some d => d | None => 1 end)
           (match RSI.p_drift p with Some d => d | None => 0 end)])).
  { reflexivity. }
  assert (Hr : ready s' = false) by (rewrite E; reflexivity).
  repeat (split; [rewrite E; reflexivity|]).
  split.
  - intros table' cs. split.
    + now apply RSI_add_dropped.
    + now apply RSI_update_dropped.
  - intros R s''.
    pose proof (RSI_callback_first_gen_installs s' R) as H. cbv zeta in H.
    fold s'' in H. destruct H as (E1 & E2 & E3 & E4 & _ & E6 & E7).
    split; [exact E1|]. split; [exact E2|]. split; [exact E3|]. split.
    + unfold ready. rewrite E6, E7. reflexivity.
    + rewrite E4, E. reflexivity.
Qed.

(** ** Completions that follow one another *)

Lemma set_last_twice {A} (x y : A) (l : list A) :
  set_last y (set_last x l) = set_last y l.
Proof. unfold set_last at 1. now rewrite removelast_set_last. Qed.

Lemma set_last_snoc {A} (x y : A) (l : list A) :
  set_last y (l ++ [x]) = l ++ [y].
Proof. unfold set_last. now rewrite removelast_last. Qed.

Lemma set_last_nonempty {A} (x : A) (l : list A) : set_last x l <> [].
Proof. unfold set_last. intros E. symmetry in E. now apply app_cons_not_nil in E. Qed.

Lemma assign_last_set_last {A} (x y : A) (l : list A) :
  assign_last y (set_last x l) = Ret (set_last y l).
Proof.
  rewrite assign_last_ok by apply set_last_nonempty.
  fold (set_last y (set_last x l)). now rewrite set_last_twice.
Qed.

Lemma RSI_callback_update_series (s : RSI.t) (R0 : RSI.DataFrame)
    (row : RSI.Row) :
  RSI_series (exec (RSI.callback_update (Ret (R0 ++ [row]))) s) =
    match RSI.df s with
    | [] => RSI_series s
    | _ :: _ =>
        match RSI.xdata s with
        | [] => (set_last row (RSI.df s), [], RSI.data s)
        | _ :: _ =>
            match RSI.data s with
            | [] => (set_last row (RSI.df s), set_last (fst row) (RSI.xdata s), [])
            | _ :: _ =>
                (set_last row (RSI.df s), set_last (fst row) (RSI.xdata s),
                 set_last (snd row) (RSI.data s))
            end
        end
    end.
Proof.
  unfold RSI_series at 1.
  unfold RSI.callback_update, RSI.emit, RSI.col_index, RSI.col_data.
  run. rewrite !map_app. simpl. rewrite !iloc_last_app. run.
  destruct row as [i v]. simpl.
  destruct (RSI.df s) as [|d0 d] eqn:Ed.
  { reflexivity. }
  unfold assign_last at 1. run.
  destruct (RSI.xdata s) as [|x0 x] eqn:Ex.
  { unfold assign_last at 1. run. now rewrite Ex. }
  unfold assign_last at 1. run.
  destruct (RSI.data s) as [|y0 y] eqn:Ey.
  { unfold assign_last at 1. run. now rewrite Ey. }
  unfold assign_last at 1. run. reflexivity.
Qed.

Lemma RSI_update_series_again (s s1 : RSI.t) (row : RSI.Row) :
  RSI_series s1 =
    match RSI.df s with
    | [] => RSI_series s
    | _ :: _ =>
        match RSI.xdata s with
        | [] => (set_last row (RSI.df s), [], RSI.data s)
        | _ :: _ =>
            match RSI.data s with
            | [] => (set_last row (RSI.df s), set_last (fst row) (RSI.xdata s), [])
            | _ :: _ =>
                (set_last row (RSI.df s), set_last (fst row) (RSI.xdata s),
                 set_last (snd row) (RSI.data s))
            end
        end
    end ->
  match RSI.df s1 with
  | [] => RSI_series s1
  | _ :: _ =>
      match RSI.xdata s1 with
      | [] => (set_last row (RSI.df s1), [], RSI.data s1)
      | _ :: _ =>
          match RSI.data s1 with
          | [] => (set_last row (RSI.df s1), set_last (fst row) (RSI.xdata s1), [])
          | _ :: _ =>
              (set_last row (RSI.df s1), set_last (fst row) (RSI.xdata s1),
               set_last (snd row) (RSI.data s1))
          end
      end
  end = RSI_series s1.
Proof.
  unfold RSI_series. intros H.
  destruct (RSI.df s) as [|d0 d] eqn:Ed.
  - injection H as H1 H2 H3. rewrite H1. reflexivity.
  - destruct (RSI.xdata s) as [|x0 x] eqn:Ex.
    + injection H as H1 H2 H3. rewrite H1, H2.
      destruct (set_last row (d0 :: d)) eqn:E;
        [now apply set_last_nonempty in E|].
      rewrite <- E, set_last_twice. reflexivity.
    + destruct (RSI.data s) as [|y0 y] eqn:Ey.
      * injection H as H1 H2 H3. rewrite H1, H2, H3.
        destruct (set_last row (d0 :: d)) eqn:E;
          [now apply set_last_nonempty in E|].
        destruct (set_last (fst row) (x0 :: x)) eqn:E';
          [now apply set_last_nonempty in E'|].
        rewrite <- E, <- E', !set_last_twice. reflexivity.
      * injection H as H1 H2 H3. rewrite H1, H2, H3.
        destruct (set_last row (d0 :: d)) eqn:E;
          [now apply set_last_nonempty in E|].
        destruct (set_last (fst row) (x0 :: x)) eqn:E';
          [now apply set_last_nonempty in E'|].
        destruct (set_last (snd row) (y0 :: y)) eqn:E'';
          [now apply set_last_nonempty in E''|].
        rewrite <- E, <- E', <- E'', !set_last_twice. reflexivity.
Qed.

(** X9. The last completion wins, for results whose last row has its
    index: a mutate-last completed after an append leaves the series the
    append of the later result would have left, and a mutate-last completed
    twice with the same future leaves the series of the first completion,
    in every state.  (A last row without index is left out: the code then
    raises at the write of the index array when it holds integers, and the
    earlier index stays.) *)
Theorem last_completion_wins :
  (forall (s : RSI.t) (R0 R1 : RSI.DataFrame) (row0 row1 : RSI.Row),
     fst row1 <> None ->
     RSI_series
       (exec (RSI.callback_update (Ret (R1 ++ [row1])))
          (exec (RSI.callback_add (Ret (R0 ++ [row0]))) s))
     = RSI_series (exec (RSI.callback_add (Ret (R1 ++ [row1]))) s)) /\
  (forall (s : RSI.t) (fut : RSI.Future),
     last_row_indexed fut ->
     RSI_series
       (exec (RSI.callback_update fut) (exec (RSI.callback_update fut) s))
     = RSI_series (exec (RSI.callback_update fut) s)).
Proof.
  split.
  - intros s R0 R1 row0 row1 _.
    rewrite RSI_callback_update_series.
    pose proof (RSI_callback_add_appends s R0 row0) as H. cbv zeta in H.
    destruct H as (E1 & E2 & E3 & _).
    pose proof (RSI_callback_add_appends s R1 row1) as H. cbv zeta in H.
    destruct H as (F1 & F2 & F3 & _).
    unfold RSI_series at 2. rewrite F1, F2, F3.
    set (s1 := exec (RSI.callback_add (Ret (R0 ++ [row0]))) s) in *.
    rewrite E1, E2, E3, !set_last_snoc.
    destruct (RSI.df s); destruct (RSI.xdata s); destruct (RSI.data s);
      reflexivity.
  - intros s fut _. destruct fut as [R|e].
    2:{ now rewrite !(proj1 (RSI_callback_failed_job cb_update e _)). }
    destruct R as [|row R0 _] using rev_ind.
    { now rewrite !RSI_callback_update_nothing. }
    rewrite RSI_callback_update_series.
    apply RSI_update_series_again with (s := s).
    apply RSI_callback_update_series.
Qed.

Lemma last_completion_wins_witness :
  let s := System.engine ready_system in
  (fst (Some 6, Fin 60) <> None /\
   RSI_series
     (exec (RSI.callback_update (Ret ([] ++ [(Some 6, Fin 60)])))
        (exec (RSI.callback_add (Ret ([] ++ [(Some 6, Fin 50)]))) s))
   = RSI_series (exec (RSI.callback_add (Ret ([] ++ [(Some 6, Fin 60)]))) s)) /\
  (last_row_indexed (Ret [(Some 5, Fin 50)]) /\
   RSI_series
     (exec (RSI.callback_update (Ret [(Some 5, Fin 50)]))
        (exec (RSI.callback_update (Ret [(Some 5, Fin 50)])) s))
   = RSI_series (exec (RSI.callback_update (Ret [(Some 5, Fin 50)])) s)).
Proof.
  assert (H1 : fst (Some 6, Fin 60) <> @None Z) by discriminate.
  assert (H2 : last_row_indexed (Ret [(Some 5, Fin 50)])).
  { intros R0 row E. injection E as E. destruct R0 as [|r0 R0].
    - injection E as <-. discriminate.
    - destruct R0; discriminate. }
  exact (conj
    (conj H1 (proj1 last_completion_wins (System.engine ready_system)
                    [] [] (Some 6, Fin 50) (Some 6, Fin 60) H1))
    (conj H2 (proj2 last_completion_wins (System.engine ready_system)
                    (Ret [(Some 5, Fin 50)]) H2))).
Defined.

(** ** A generation that fails *)

Section FailedGeneration.

Variable ma : string -> list float64 -> Z -> list float64.

Lemma System_tip_event_dropped (ev : System.Event) (sys : System.t) :
  is_tip_event ev = true ->
  RSI.started (System.engine sys) = [] ->
  RSI.is_genering (System.engine sys) = true ->
  let sys' := System.process ma ev sys in
  RSI.started (System.engine sys') = [] /\
  RSI.is_genering (System.engine sys') = true /\
  RSI_series (System.engine sys') = RSI_series (System.engine sys) /\
  RSI.emitted (System.engine sys') = RSI.emitted (System.engine sys).
Proof.
  intros Hev Hs Hg sys'.
  assert (Hr : ready (System.engine sys) = false).
  { unfold ready. rewrite Hg. apply andb_false_r. }
  assert (D : same_series_and_jobs (System.engine sys)
                (System.engine (System.deliver ev sys))).
  { destruct ev as [tbl|c|c|older]; try discriminate;
      unfold System.deliver;
      cbn [System.engine System.handler System.source_step].
    - now apply RSI_add_dropped.
    - now apply RSI_update_dropped. }
  destruct D as (D1 & D2 & D3 & D4 & D5 & D6 & D7).
  assert (E : sys' = System.deliver ev sys).
  { unfold sys', System.process, System.complete. rewrite D1, Hs. reflexivity. }
  rewrite E. unfold RSI_series. rewrite D1, D2, D3, D4, D5, D7.
  repeat split; assumption.
Qed.

Lemma System_tip_events_dropped (evs : list System.Event) (sys : System.t) :
  forallb is_tip_event evs = true ->
  RSI.started (System.engine sys) = [] ->
  RSI.is_genering (System.engine sys) = true ->
  let sys' := System.run ma evs sys in
  RSI.started (System.engine sys') = [] /\
  RSI.is_genering (System.engine sys') = true /\
  RSI_series (System.engine sys') = RSI_series (System.engine sys) /\
  RSI.emitted (System.engine sys') = RSI.emitted (System.engine sys).
Proof.
  revert sys. induction evs as [|ev evs IH]; intros sys Hevs Hs Hg.
  - simpl. repeat split; assumption.
  - simpl in Hevs. apply andb_prop in Hevs as [Hev Hevs].
    destruct (System_tip_event_dropped ev sys Hev Hs Hg) as (A1 & A2 & A3 & A4).
    destruct (IH (System.process ma ev sys) Hevs A1 A2) as (B1 & B2 & B3 & B4).
    cbv zeta. unfold System.run in *. simpl.
    split; [exact B1|]. split; [exact B2|]. split; congruence.
Qed.

Lemma System_failed_generation (ev : System.Event) (sys : System.t) :
  RSI.started (System.engine sys) = [] ->
  is_tip_event ev = false ->
  (forall j,
     hd_error (RSI.started (System.engine (System.deliver ev sys))) = Some j ->
     exists e, RSI.run_job ma j = Raise e) ->
  let sys' := System.process ma ev sys in
  RSI.started (System.engine sys') = [] /\
  RSI.is_genering (System.engine sys') = true /\
  RSI.xdata (System.engine sys') = RSI.xdata (System.engine sys) /\
  RSI.data (System.engine sys') = RSI.data (System.engine sys) /\
  RSI.emitted (System.engine sys') = RSI.emitted (System.engine sys) /\
  (List.length (RSI.df (System.engine sys'))
    <= List.length (RSI.df (System.engine sys)))%nat.
Proof.
  intros Hs Hev Hj sys'.
  assert (D : exists j,
    RSI.started (System.engine (System.deliver ev sys)) = [j] /\
    RSI.is_genering (System.engine (System.deliver ev sys)) = true /\
    RSI.xdata (System.engine (System.deliver ev sys))
      = RSI.xdata (System.engine sys) /\
    RSI.data (System.engine (System.deliver ev sys))
      = RSI.data (System.engine sys) /\
    RSI.emitted (System.engine (System.deliver ev sys))
      = RSI.emitted (System.engine sys) /\
    (List.length (RSI.df (System.engine (System.deliver ev sys)))
      <= List.length (RSI.df (System.engine sys)))%nat).
  { destruct ev as [tbl|c|c|older]; try discriminate;
      unfold System.deliver;
      cbn [System.engine System.handler System.source_step].
    - pose proof (RSI_fisrt_gen_data_submits tbl (System.engine sys)) as H.
      cbv zeta in H. destruct H as (-> & -> & -> & -> & -> & _ & ->).
      rewrite Hs. eexists. repeat split. simpl. lia.
    - pose proof (RSI_add_historic_submits (older ++ System.table sys)
                    (Z.of_nat (List.length older)) (System.engine sys)) as H.
      cbv zeta in H. destruct H as (-> & -> & -> & -> & -> & _ & ->).
      rewrite Hs. eexists. repeat split. lia. }
  destruct D as (j & D1 & D2 & D3 & D4 & D5 & D6).
  destruct (Hj j) as [e He]; [now rewrite D1|].
  assert (E : System.engine sys' =
              RSI.set_started [] (System.engine (System.deliver ev sys))).
  { unfold sys', System.process, System.complete. rewrite D1. simpl.
    unfold System.complete_job. rewrite He.
    apply (proj1 (RSI_callback_failed_job _ e _)). }
  rewrite E. unfold RSI.set_started.
  cbn [RSI.started RSI.is_genering RSI.xdata RSI.data RSI.emitted RSI.df].
  rewrite D2, D3, D4, D5. repeat split. exact D6.
Qed.

End FailedGeneration.

(** X10. When the job of a reset or of a historic load fails, the engine
    stays Generating: every append and every mutate-last that follows,
    each processed to completion, is dropped; the arrays and the
    notifications stay as they were before the failed event, however many
    such events follow. *)
Theorem failed_generation_blocks_the_tip
    (ma : string -> list float64 -> Z -> list float64)
    (sys : System.t) (ev : System.Event) (evs : list System.Event) :
  RSI.started (System.engine sys) = [] ->
  is_tip_event ev = false ->
  (forall j,
     hd_error (RSI.started (System.engine (System.deliver ev sys))) = Some j ->
     exists e, RSI.run_job ma j = Raise e) ->
  forallb is_tip_event evs = true ->
  let sys' := System.run ma (ev :: evs) sys in
  RSI.is_genering (System.engine sys') = true /\
  RSI.xdata (System.engine sys') = RSI.xdata (System.engine sys) /\
  RSI.data (System.engine sys') = RSI.data (System.engine sys) /\
  RSI.emitted (System.engine sys') = RSI.emitted (System.engine sys) /\
  RSI.started (System.engine sys') = [].
Proof.
  intros Hs Hev Hj Hevs sys'.
  destruct (System_failed_generation ma ev sys Hs Hev Hj)
    as (A1 & A2 & A3 & A4 & A5 & _).
  destruct (System_tip_events_dropped ma evs (System.process ma ev sys) Hevs A1 A2)
    as (B1 & B2 & B3 & B4).
  unfold RSI_series in B3. injection B3 as _ B3x B3y.
  unfold sys', System.run. simpl. unfold System.run in *.
  split; [exact B2|]. split; [congruence|]. split; [congruence|].
  split; [congruence|exact B1].
Qed.

Lemma failed_generation_blocks_the_tip_witness :
  RSI.started (System.engine ready_system) = [] /\
  is_tip_event (System.ev_reset table_two) = false /\
  forallb is_tip_event events_after_failed_reset = true /\
  RSI.is_genering
    (System.engine
       (System.run rma (System.ev_reset table_two :: events_after_failed_reset)
                   ready_system)) = true /\
  RSI.xdata
    (System.engine
       (System.run rma (System.ev_reset table_two :: events_after_failed_reset)
                   ready_system))
  = RSI.xdata (System.engine ready_system).
Proof.
  assert (H1 : RSI.started (System.engine ready_system) = [])
    by (vm_compute; reflexivity).
  assert (H2 : is_tip_event (System.ev_reset table_two) = false) by reflexivity.
  assert (H3 : forall j,
     hd_error (RSI.started (System.engine
        (System.deliver (System.ev_reset table_two) ready_system))) = Some j ->
     exists e, RSI.run_job rma j = Raise e).
  { intros j Hj. vm_compute in Hj. injection Hj as <-.
    exists AttributeError. vm_compute. reflexivity. }
  assert (H4 : forallb is_tip_event events_after_failed_reset = true)
    by reflexivity.
  pose proof (@failed_generation_blocks_the_tip rma ready_system
                (System.ev_reset table_two) events_after_failed_reset
                H1 H2 H3 H4) as T.
  exact (conj H1 (conj H2 (conj H4 (conj (proj1 T) (proj1 (proj2 T)))))).
Defined.

Lemma RSI_calculate_no_rows
    (ma : string -> list float64 -> Z -> list float64)
    (source : string) (length : Z) (mamode : string) (drift offset : Z) :
  exists e, RSI.calculate ma [] source length mamode drift offset = Raise e.
Proof.
  destruct (column source []) as [close_|e] eqn:Ec.
  - exists AttributeError. apply RSI_calculate_short_input with (close_ := close_).
    + exact Ec.
    + unfold v_pos_default. simpl. destruct (0 <? length) eqn:E; [|lia].
      apply Z.ltb_lt in E. lia.
  - exists e. unfold RSI.calculate. now rewrite Ec.
Qed.

(** X11. A historic load that reaches an engine whose table is empty (before
    the first table is installed, while a regeneration is in progress, or
    after a regeneration that returned no row) computes over
    [candle_df.head(-0)], which is no row at all: its job fails for every
    moving average and every candle table, nothing is merged or emitted,
    and the engine is left Generating, so that the appends and the
    mutate-lasts that follow are dropped. *)
Theorem historic_load_on_an_empty_table_fails
    (ma : string -> list float64 -> Z -> list float64)
    (sys : System.t) (older : list Candle) (evs : list System.Event) :
  RSI.df (System.engine sys) = [] ->
  RSI.started (System.engine sys) = [] ->
  forallb is_tip_event evs = true ->
  let sys1 := System.deliver (System.ev_historic older) sys in
  let sys' := System.run ma (System.ev_historic older :: evs) sys in
  (exists j e, RSI.started (System.engine sys1) = [j] /\
               RSI.job_df j = [] /\ RSI.run_job ma j = Raise e) /\
  RSI.is_genering (System.engine sys') = true /\
  RSI.xdata (System.engine sys') = RSI.xdata (System.engine sys) /\
  RSI.data (System.engine sys') = RSI.data (System.engine sys) /\
  RSI.emitted (System.engine sys') = RSI.emitted (System.engine sys) /\
  RSI.started (System.engine sys') = [].
Proof.
  intros Hd Hs Hevs sys1 sys'.
  pose proof (RSI_add_historic_submits (older ++ System.table sys)
                (Z.of_nat (List.length older)) (System.engine sys)) as H.
  cbv zeta in H. destruct H as (Hj & _).
  rewrite Hs, Hd in Hj. simpl in Hj.
  change (head (- 0) (older ++ System.table sys)) with (@nil Candle) in Hj.
  destruct (RSI_calculate_no_rows ma
              (RSI.source (System.engine sys)) (RSI.length (System.engine sys))
              (RSI.mamode (System.engine sys)) (RSI.drift (System.engine sys))
              (RSI.offset (System.engine sys))) as [e He].
  assert (Hfail : forall j,
     hd_error (RSI.started (System.engine sys1)) = Some j ->
     exists e, RSI.run_job ma j = Raise e).
  { intros j Hh. unfold sys1 in Hh. simpl in Hh. rewrite Hj in Hh.
    injection Hh as <-. exists e. exact He. }
  split.
  - eexists. exists e. split; [exact Hj|]. split; [reflexivity|exact He].
  - destruct (System_failed_generation ma (System.ev_historic older) sys Hs
                eq_refl Hfail) as (A1 & A2 & A3 & A4 & A5 & _).
    destruct (System_tip_events_dropped ma evs
                (System.process ma (System.ev_historic older) sys) Hevs A1 A2)
      as (B1 & B2 & B3 & B4).
    unfold RSI_series in B3. injection B3 as _ B3x B3y.
    unfold sys', System.run. simpl. unfold System.run in *.
    split; [exact B2|]. split; [congruence|]. split; [congruence|].
    split; [congruence|exact B1].
Qed.

Lemma historic_load_on_an_empty_table_fails_witness :
  RSI.df (System.engine engine0) = [] /\
  RSI.started (System.engine engine0) = [] /\
  forallb is_tip_event events_after_failed_reset = true /\
  RSI.is_genering
    (System.engine
       (System.run rma (System.ev_historic table_moving :: events_after_failed_reset)
                   engine0)) = true /\
  RSI.xdata
    (System.engine
       (System.run rma (System.ev_historic table_moving :: events_after_failed_reset)
                   engine0))
  = RSI.xdata (System.engine engine0).
Proof.
  assert (H1 : RSI.df (System.engine engine0) = []) by reflexivity.
  assert (H2 : RSI.started (System.engine engine0) = []) by reflexivity.
  assert (H3 : forallb is_tip_event events_after_failed_reset = true)
    by reflexivity.
  pose proof (@historic_load_on_an_empty_table_fails rma engine0 table_moving
                events_after_failed_reset H1 H2 H3) as T.
  cbv zeta in T.
  exact (conj H1 (conj H2 (conj H3
           (conj (proj1 (proj2 T)) (proj1 (proj2 (proj2 T))))))).
Defined.

(** ** When a calculation returns *)

Lemma column_raises_KeyError (source : string) (df : list Candle) (e : exn) :
  column source df = Raise e -> e = KeyError.
Proof.
  unfold column.
  repeat match goal with
         | |- context [if ?b then _ else _] => destruct b; [discriminate|]
         end.
  congruence.
Qed.

Lemma column_KeyError_iff (source : string) (df : list Candle) :
  column source df = Raise KeyError <->
  ~ In source ["index"; "open"; "high"; "low"; "close"; "volume"]%string.
Proof.
  unfold column.
  repeat match goal with
         | |- context [String.eqb source ?b] =>
             destruct (String.eqb_spec source b) as [->|?];
               [split; [discriminate|intros H; exfalso; apply H; simpl; tauto]|]
         end.
  split; [|reflexivity].
  intros _ H. simpl in H. intuition congruence.
Qed.

Lemma RSI_calculate_outcome
    (ma : string -> list float64 -> Z -> list float64) (df : list Candle)
    (source : string) (length : Z) (mamode : string) (drift offset : Z) :
  match RSI.calculate ma df source length mamode drift offset with
  | Ret _ =>
      (exists xs, column source df = Ret xs) /\
      v_pos_default length 14 + 1 <= Z.of_nat (List.length df)
  | Raise e =>
      (e = KeyError /\ column source df = Raise KeyError) \/
      (e = AttributeError /\ (exists xs, column source df = Ret xs) /\
       Z.of_nat (List.length df) < v_pos_default length 14 + 1)
  end.
Proof.
  unfold RSI.calculate.
  destruct (column source df) as [close_|e] eqn:Ec.
  - pose proof (length_column _ _ Ec) as Hl.
    unfold RSI.rsi, v_series. rewrite Hl.
    destruct (v_pos_default length 14 + 1 <=? Z.of_nat (List.length df)) eqn:E.
    + apply Z.leb_le in E. split; [now exists close_|exact E].
    + apply Z.leb_gt in E. right. split; [reflexivity|].
      split; [now exists close_|exact E].
  - left. apply column_raises_KeyError in Ec as ->. now split.
Qed.

(** X12. [RSI.calculate] returns a table exactly when the source names a
    column of the candle table ([index], [open], [high], [low], [close] or
    [volume]) and the input has at least [length + 1] rows ([length]
    replaced by 14 when it is not positive); it raises [KeyError] for any
    other name and [AttributeError] for a shorter input, whatever the
    moving average does. *)
Theorem calculate_returns_exactly_when
    (ma : string -> list float64 -> Z -> list float64) (df : list Candle)
    (source : string) (length : Z) (mamode : string) (drift offset : Z) :
  match RSI.calculate ma df source length mamode drift offset with
  | Ret _ =>
      (exists xs, column source df = Ret xs) /\
      v_pos_default length 14 + 1 <= Z.of_nat (List.length df)
  | Raise e =>
      (e = KeyError /\ column source df = Raise KeyError) \/
      (e = AttributeError /\ (exists xs, column source df = Ret xs) /\
       Z.of_nat (List.length df) < v_pos_default length 14 + 1)
  end /\
  (column source df = Raise KeyError <->
   ~ In source ["index"; "open"; "high"; "low"; "close"; "volume"]%string).
Proof.
  split; [|apply column_KeyError_iff].
  unfold RSI.calculate.
  destruct (column source df) as [close_|e] eqn:Ec.
  - pose proof (length_column _ _ Ec) as Hl.
    unfold RSI.rsi, v_series. rewrite Hl.
    destruct (v_pos_default length 14 + 1 <=? Z.of_nat (List.length df)) eqn:E.
    + apply Z.leb_le in E. split; [now exists close_|exact E].
    + apply Z.leb_gt in E. right. split; [reflexivity|].
      split; [now exists close_|exact E].
  - left. apply column_raises_KeyError in Ec as ->. now split.
Qed.

(** ** The sign of the index *)

Lemma Qle_bool_0 (q : Q) : Qle_bool 0 q = true <-> (0 <= Qnum q)%Z.
Proof.
  rewrite Qle_bool_iff. unfold Qle. simpl. lia.
Qed.

Lemma nonneg_clip (x : float64) :
  nonneg_or_nan (if flt0 x then Fin 0 else x) = true.
Proof.
  destruct x as [|s|q]; simpl; [reflexivity| |].
  - destruct s; reflexivity.
  - unfold Qneg_b. destruct (Qnum q <? 0) eqn:E; [reflexivity|].
    simpl. apply Qle_bool_0. apply Z.ltb_ge in E. exact E.
Qed.

Lemma nonneg_fabs (x : float64) : nonneg_or_nan (fabs x) = true.
Proof.
  destruct x as [|s|q]; simpl; try reflexivity.
  apply Qle_bool_iff. rewrite Qred_correct. apply Qabs_nonneg.
Qed.

Lemma Qzero_b_false (q : Q) : (0 <= q)%Q -> Qzero_b q = false -> (0 < q)%Q.
Proof.
  unfold Qzero_b, Qle, Qlt. simpl. intros H E. apply Z.eqb_neq in E. lia.
Qed.

Lemma Qneg_b_nonneg (q : Q) : (0 <= q)%Q -> Qneg_b q = false.
Proof.
  unfold Qneg_b, Qle. simpl. intros H. apply Z.ltb_ge. lia.
Qed.

Lemma nonneg_of_parts (p n : float64) :
  nonneg_or_nan p = true -> nonneg_or_nan n = true ->
  nonneg_or_nan (fdiv (fmul (Fin 100) p) (fadd p n)) = true.
Proof.
  destruct p as [|sp|a]; [reflexivity| |].
  - destruct sp; [discriminate|]. intros _.
    destruct n as [|sn|b]; [reflexivity| |reflexivity].
    destruct sn; [discriminate|reflexivity].
  - intros Ha. apply Qle_bool_iff in Ha.
    destruct n as [|sn|b]; [reflexivity| |].
    + destruct sn; [discriminate|]. intros _. reflexivity.
    + intros Hb. apply Qle_bool_iff in Hb.
      cbn -[Qred Qplus Qmult Qdiv Qzero_b Qle_bool Qneg_b].
      assert (Hs : (0 <= Qred (a + b))%Q).
      { rewrite Qred_correct. change 0%Q with (0 + 0)%Q.
        now apply Qplus_le_compat. }
      assert (Hm : (0 <= Qred (100 * a))%Q).
      { rewrite Qred_correct. change 0%Q with (100 * 0)%Q.
        apply Qmult_le_l; [reflexivity|exact Ha]. }
      destruct (Qzero_b (Qred (a + b))) eqn:Ez.
      * destruct (Qzero_b (Qred (100 * a))); [reflexivity|].
        cbn [nonneg_or_nan]. now rewrite (Qneg_b_nonneg Hm).
      * pose proof (Qzero_b_false Hs Ez) as Hpos.
        cbn [nonneg_or_nan]. apply Qle_bool_iff.
        rewrite (Qred_correct (_ / _)).
        apply Qle_shift_div_l; [exact Hpos|].
        rewrite Qmult_0_l. exact Hm.
Qed.

Lemma cell_map (f : float64 -> float64) (xs : list float64) (i : Z) :
  f NaN = NaN -> cell (map f xs) i = f (cell xs i).
Proof.
  intros Hf. unfold cell. destruct (i <? 0); [now rewrite Hf|].
  rewrite <- Hf at 1. apply map_nth.
Qed.

Lemma forallb_series_op (P : float64 -> bool)
    (f : float64 -> float64 -> float64) (xs ys : list float64) :
  (forall i, P (f (cell xs i) (cell ys i)) = true) ->
  forallb P (series_op f xs ys) = true.
Proof.
  intros H. unfold series_op. apply forallb_forall. intros x Hx.
  apply in_map_iff in Hx as (i & <- & _). apply H.
Qed.

Lemma forallb_shift (P : float64 -> bool) (p : Z) (xs : list float64) :
  P NaN = true -> forallb P xs = true -> forallb P (shift p xs) = true.
Proof.
  intros H0 H. unfold shift. apply forallb_forall. intros x Hx.
  apply in_map_iff in Hx as (i & <- & _). now apply cell_forallb.
Qed.

Lemma cell_map_labels (g : Z -> float64) (n : nat) (i : Z) :
  cell (map g (labels n)) i =
    if (0 <=? i) && (i <? Z.of_nat n) then g i else NaN.
Proof.
  unfold cell. destruct (i <? 0) eqn:Ei.
  - apply Z.ltb_lt in Ei.
    assert (E : (0 <=? i) = false) by (apply Z.leb_gt; lia).
    now rewrite E.
  - apply Z.ltb_ge in Ei.
    assert (E : (0 <=? i) = true) by (apply Z.leb_le; lia).
    rewrite E. simpl.
    destruct (i <? Z.of_nat n) eqn:En.
    + apply Z.ltb_lt in En.
      rewrite (nth_indep _ NaN (g 0))
        by (rewrite length_map, length_labels; lia).
      rewrite map_nth. unfold labels.
      rewrite (nth_indep _ 0 (Z.of_nat 0))
        by (rewrite length_map, length_seq; lia).
      rewrite map_nth, seq_nth by lia.
      simpl. now rewrite Z2Nat.id.
    + apply Z.ltb_ge in En. apply nth_overflow.
      rewrite length_map, length_labels. lia.
Qed.

Lemma cell_series_op (f : float64 -> float64 -> float64)
    (xs ys : list float64) (i : Z) :
  cell (series_op f xs ys) i = NaN \/
  cell (series_op f xs ys) i = f (cell xs i) (cell ys i).
Proof.
  unfold series_op. rewrite cell_map_labels.
  destruct ((0 <=? i) && (i <? _)); [now right|now left].
Qed.

Section NonNegativeAverage.

Variable ma : string -> list float64 -> Z -> list float64.
Hypothesis ma_nonneg :
  forall mamode xs length,
    0 < length ->
    forallb nonneg_or_nan xs = true ->
    forallb nonneg_or_nan (ma mamode xs length) = true.

Lemma v_pos_default_positive (x d : Z) : 0 < d -> 0 < v_pos_default x d.
Proof.
  intros Hd. unfold v_pos_default. destruct (0 <? x) eqn:E; [|exact Hd].
  now apply Z.ltb_lt.
Qed.

Lemma rsi_nonneg (close_ : list float64) (length : Z) (mamode : string)
    (drift offset : Z) (IND : list float64) :
  RSI.rsi ma close_ length mamode drift offset = Some IND ->
  forallb nonneg_or_nan IND = true.
Proof.
  unfold RSI.rsi.
  destruct (v_series close_ (v_pos_default length 14 + 1)) as [c|];
    [|discriminate].
  intros H. injection H as <-.
  set (positive := map (fun x => if flt0 x then Fin 0 else x)
                       (diff (v_drift drift) c)).
  set (negative := map (fun x => if fgt0 x then Fin 0 else x)
                       (diff (v_drift drift) c)).
  set (P := ma mamode positive (v_pos_default length 14)).
  set (N := ma mamode negative (v_pos_default length 14)).
  assert (HP : forallb nonneg_or_nan P = true).
  { apply ma_nonneg; [now apply v_pos_default_positive|].
    unfold positive. apply forallb_forall. intros x Hx.
    apply in_map_iff in Hx as (y & <- & _). apply nonneg_clip. }
  assert (HN : forallb nonneg_or_nan (map fabs N) = true).
  { apply forallb_forall. intros x Hx.
    apply in_map_iff in Hx as (y & <- & _). apply nonneg_fabs. }
  assert (H : forallb nonneg_or_nan
                (series_op fdiv (map (fmul (Fin 100)) P)
                   (series_op fadd P (map fabs N))) = true).
  { apply forallb_series_op. intros i.
    rewrite cell_map by reflexivity.
    destruct (cell_series_op fadd P (map fabs N) i) as [-> | ->].
    - destruct (fmul (Fin 100) (cell P i)); reflexivity.
    - apply nonneg_of_parts; now apply cell_forallb. }
  destruct (v_offset offset =? 0); [exact H|].
  now apply forallb_shift.
Qed.

End NonNegativeAverage.

Lemma round_half_even_nonneg (q : Q) :
  (0 <= q)%Q -> 0 <= round_half_even q.
Proof.
  unfold Qle, round_half_even. cbn [Qnum Qden].
  set (n := Qnum q). set (d := Z.pos (Qden q)).
  assert (Hd : 0 < d) by (unfold d; lia).
  intros H0. rewrite Z.mul_1_r in H0. change (0 * d) with 0 in H0.
  assert (Hf : 0 <= n / d) by (apply Z.div_pos; lia).
  destruct (2 * (n mod d) ?= d); [destruct (Z.even (n / d))| |]; lia.
Qed.

Lemma round6_nonneg (x : float64) :
  nonneg_or_nan x = true -> nonneg_or_nan (round6 x) = true.
Proof.
  destruct x as [|s|q]; [trivial|trivial|].
  cbn [round6 nonneg_or_nan].
  intros H. apply Qle_bool_iff in H.
  assert (L : 0 <= round_half_even (q * 1000000)).
  { apply round_half_even_nonneg.
    change 0%Q with (0 * 1000000)%Q.
    apply Qmult_le_compat_r; [exact H|discriminate]. }
  apply Qle_bool_iff. rewrite Qred_correct. unfold Qle. simpl. lia.
Qed.

(** X13. With a moving average that maps a series without negative values
    to a series without negative values, no value [rsi] returns is
    negative: each is missing, zero, positive or the positive infinity, and
    so is every value of the table [RSI.calculate] returns after rounding.
    (No upper bound is stated: a quotient of floats can exceed 100 by a
    rounding error or overflow, which exact arithmetic does not show.) *)
Theorem rsi_is_never_negative
    (ma : string -> list float64 -> Z -> list float64) :
  (forall mamode xs length,
     0 < length ->
     forallb nonneg_or_nan xs = true ->
     forallb nonneg_or_nan (ma mamode xs length) = true) ->
  (forall close_ length mamode drift offset IND,
     RSI.rsi ma close_ length mamode drift offset = Some IND ->
     forallb nonneg_or_nan IND = true) /\
  (forall df source length mamode drift offset R,
     RSI.calculate ma df source length mamode drift offset = Ret R ->
     forallb nonneg_or_nan (RSI.col_data R) = true).
Proof.
  intros Hma. split.
  - intros. eapply rsi_nonneg; eauto.
  - intros df source length mamode drift offset R.
    unfold RSI.calculate.
    destruct (column source df) as [close_|]; [|discriminate].
    destruct (RSI.rsi ma close_ length mamode drift offset) as [IND|] eqn:Er;
      [|discriminate].
    pose proof (rsi_nonneg ma Hma _ _ _ _ _ Er) as HI.
    intros H. injection H as <-.
    unfold RSI.frame, RSI.col_data. rewrite map_map. simpl.
    apply forallb_forall. intros y Hy.
    apply in_map_iff in Hy as (l & <- & _).
    destruct (lookup l _) as [y|] eqn:El; [|reflexivity].
    apply lookup_In in El. apply in_map_iff in El as ([l' x] & E & Hx).
    simpl in E. injection E as _ <-.
    apply round6_nonneg.
    unfold dropna in Hx. apply filter_In in Hx as [Hx _].
    apply in_combine_r in Hx.
    rewrite forallb_forall in HI. now apply HI.
Qed.

(** ** The sample average keeps the sign *)

Lemma nonneg_fmul (c : Q) (x : float64) :
  (0 <= c)%Q -> nonneg_or_nan x = true -> nonneg_or_nan (fmul (Fin c) x) = true.
Proof.
  intros Hc. destruct x as [|s|q]; [reflexivity| |].
  - destruct s; [discriminate|]. intros _.
    cbn -[Qzero_b]. destruct (Qzero_b c); [reflexivity|].
    unfold Qneg_b. unfold Qle in Hc. simpl in Hc.
    assert (E : (Qnum c <? 0) = false) by (apply Z.ltb_ge; lia).
    rewrite E. reflexivity.
  - cbn -[Qred Qmult Qle_bool]. intros Hq. apply Qle_bool_iff in Hq.
    apply Qle_bool_iff. rewrite Qred_correct. now apply Qmult_le_0_compat.
Qed.

Lemma nonneg_fadd (x y : float64) :
  nonneg_or_nan x = true -> nonneg_or_nan y = true ->
  nonneg_or_nan (fadd x y) = true.
Proof.
  destruct x as [|s|a], y as [|t|b]; try reflexivity;
    try (destruct s; [discriminate|]); try (destruct t; [discriminate|]);
    try reflexivity.
  cbn -[Qred Qplus Qle_bool]. intros Ha Hb.
  apply Qle_bool_iff in Ha, Hb. apply Qle_bool_iff. rewrite Qred_correct.
  change 0%Q with (0 + 0)%Q. now apply Qplus_le_compat.
Qed.

Lemma rma_from_nonneg (alpha : Q) (mp : nat) (xs : list float64) :
  (0 <= alpha)%Q -> (0 <= 1 - alpha)%Q ->
  forallb nonneg_or_nan xs = true ->
  forall avg count,
    match avg with Some a => nonneg_or_nan a = true | None => True end ->
    forallb nonneg_or_nan (rma_from alpha mp avg count xs) = true.
Proof.
  intros Ha Hb. induction xs as [|x xs IH]; intros Hxs avg count Havg;
    [reflexivity|].
  simpl in Hxs. apply andb_prop in Hxs as [Hx Hxs].
  cbn [rma_from]. destruct (isna x).
  - cbn [forallb]. rewrite (IH Hxs avg count Havg), andb_true_r.
    destruct avg as [a|]; [|reflexivity].
    destruct (mp <=? count)%nat; [exact Havg|reflexivity].
  - set (a' := match avg with
               | Some a => fadd (fmul (Fin (1 - alpha)) a) (fmul (Fin alpha) x)
               | None => x
               end).
    assert (Ha' : nonneg_or_nan a' = true).
    { unfold a'. destruct avg as [a|]; [|exact Hx].
      apply nonneg_fadd; now apply nonneg_fmul. }
    cbn [forallb]. rewrite (IH Hxs (Some a') (S count) Ha'), andb_true_r.
    destruct (mp <=? S count)%nat; [exact Ha'|reflexivity].
Qed.

Lemma rma_nonneg (mamode : string) (xs : list float64) (length : Z) :
  0 < length ->
  forallb nonneg_or_nan xs = true ->
  forallb nonneg_or_nan (rma mamode xs length) = true.
Proof.
  intros Hl Hxs. unfold rma.
  assert (H1 : (0 < inject_Z length)%Q).
  { unfold Qlt. simpl. lia. }
  assert (Ha : (0 <= 1 / inject_Z length)%Q).
  { apply Qle_shift_div_l; [exact H1|]. rewrite Qmult_0_l. discriminate. }
  assert (Hb : (1 / inject_Z length <= 1)%Q).
  { apply Qle_shift_div_r; [exact H1|]. rewrite Qmult_1_l.
    unfold Qle. simpl. lia. }
  apply rma_from_nonneg; try assumption; [|exact I].
  unfold Qminus. rewrite <- (Qplus_opp_r (1 / inject_Z length)).
  apply Qplus_le_compat; [exact Hb|apply Qle_refl].
Qed.

Lemma rsi_is_never_negative_witness :
  (forall mamode xs length,
     0 < length ->
     forallb nonneg_or_nan xs = true ->
     forallb nonneg_or_nan (rma mamode xs length) = true) /\
  RSI.calculate rma historic_input "close" 2 "rma" 1 0 = Ret historic_result /\
  forallb nonneg_or_nan (RSI.col_data historic_result) = true.
Proof.
  assert (E : RSI.calculate rma historic_input "close" 2 "rma" 1 0
              = Ret historic_result) by (vm_compute; reflexivity).
  exact (conj rma_nonneg
          (conj E (proj2 (@rsi_is_never_negative rma rma_nonneg)
                     historic_input "close"%string 2 "rma"%string 1 0
                     historic_result E))).
Defined.

(** ** A window whose close does not move *)

(** X14. When every close of the window is the same and the moving average
    maps zeros to zeros, every value of the index is 0/0 and missing:
    [RSI.calculate] returns a table without rows although the window is long
    enough, the completion of an append or of a mutate-last with that
    result leaves the engine as it was (the new candle gets no row), and
    the completion of a full regeneration installs the empty table. *)
Theorem flat_window_gives_no_row
    (ma : string -> list float64 -> Z -> list float64) (df : list Candle)
    (q : Q) (length : Z) (mamode : string) (drift offset : Z) :
  (forall m xs l,
     forallb zero_or_nan xs = true -> forallb zero_or_nan (ma m xs l) = true) ->
  (forall c, In c df -> close c = Fin q) ->
  v_pos_default length 14 + 1 <= Z.of_nat (List.length df) ->
  let future := RSI.calculate ma df "close" length mamode drift offset in
  future = Ret [] /\
  (forall s, exec (RSI.callback_add future) s = s) /\
  (forall s, exec (RSI.callback_update future) s = s) /\
  (forall s, RSI.xdata (exec (RSI.callback_first_gen future) s) = []).
Proof.
  intros Hma Hflat Hlen future.
  assert (E : future = Ret [])
    by (now apply RSI_calculate_flat_window with (q := q)).
  rewrite E. split; [reflexivity|].
  split; [intros s; apply RSI_callback_add_no_row|].
  split; [intros s; apply RSI_callback_update_nothing|].
  intros s. pose proof (RSI_callback_first_gen_installs s []) as H.
  cbv zeta in H. destruct H as (_ & H & _). exact H.
Qed.

Lemma flat_window_gives_no_row_witness :
  (forall m xs l,
     forallb zero_or_nan xs = true -> forallb zero_or_nan (rma m xs l) = true) /\
  (forall c, In c table_flat3 -> close c = Fin (inject_Z 3)) /\
  v_pos_default 2 14 + 1 <= Z.of_nat (List.length table_flat3) /\
  RSI.calculate rma table_flat3 "close" 2 "rma" 1 0 = Ret [].
Proof.
  assert (H2 : forall c, In c table_flat3 -> close c = Fin (inject_Z 3)).
  { intros c Hc. vm_compute in Hc.
    destruct Hc as [<-|[<-|[<-|[]]]]; reflexivity. }
  assert (H3 : v_pos_default 2 14 + 1 <= Z.of_nat (List.length table_flat3))
    by (vm_compute; discriminate).
  exact (conj rma_zero_or_nan (conj H2 (conj H3
           (proj1 (@flat_window_gives_no_row rma table_flat3 (inject_Z 3) 2
                     "rma"%string 1 0 rma_zero_or_nan H2 H3))))).
Defined.

(** ** The table of a calculation whose gaps are its warm-up *)

Lemma map_lookup_suffix (vs : list float64) :
  forallb notna vs = true ->
  forall pre : list float64,
    map (fun i =>
           match
             match nth_error (pre ++ vs) i with
             | Some x => if notna x then Some (round6 x) else None
             | None => None
             end
           with
           | Some y => y
           | None => NaN
           end)
        (seq (List.length pre) (List.length vs))
    = map round6 vs.
Proof.
  induction vs as [|x vs IH]; intros Hv pre; [reflexivity|].
  simpl in Hv. apply andb_prop in Hv as [Hx Hv].
  cbn [List.length seq map]. f_equal.
  - rewrite nth_error_app2 by lia.
    rewrite Nat.sub_diag. simpl. now rewrite Hx.
  - specialize (IH Hv (pre ++ [x])).
    rewrite length_app, Nat.add_1_r, <- app_assoc in IH. exact IH.
Qed.

Lemma RSI_calculate_warm_up_data
    (ma : string -> list float64 -> Z -> list float64) (df : list Candle)
    (source : string) (length : Z) (mamode : string) (drift offset : Z)
    (close_ : list float64) (w : nat) (vs : list float64) :
  column source df = Ret close_ ->
  RSI.rsi ma close_ length mamode drift offset = Some (repeat NaN w ++ vs) ->
  forallb notna vs = true ->
  (w + List.length vs)%nat = List.length df ->
  exists R,
    RSI.calculate ma df source length mamode drift offset = Ret R /\
    RSI.col_data R = map round6 vs.
Proof.
  intros Hc Hr Hv Hn. unfold RSI.calculate. rewrite Hc, Hr.
  eexists. split; [reflexivity|].
  set (IND := repeat NaN w ++ vs).
  assert (HL : List.length IND = List.length df)
    by (subst IND; rewrite length_app, repeat_length; exact Hn).
  rewrite HL, Nat.max_id, length_map.
  assert (Hlen : List.length (dropna IND) = List.length vs).
  { unfold dropna. rewrite length_filter_combine by apply length_labels.
    subst IND. now rewrite filter_notna_warmup. }
  rewrite Hlen, tail_of_nat, length_combine, length_labels, length_map,
    Nat.min_id.
  replace (List.length df - List.length vs)%nat with w by lia.
  set (_index := skipn w (combine (labels (List.length df)) (map index df))).
  set (y_data := map (fun p => (fst p, round6 (snd p))) (dropna IND)).
  assert (HP : filter (fun l => has_label l _index || has_label l y_data)
                      (labels (List.length df))
               = map Z.of_nat (seq w (List.length vs))).
  { unfold labels. rewrite <- Hn, seq_app, map_app, filter_app. simpl.
    rewrite (filter_ext_in _ (fun _ => false)), filter_false.
    2:{ intros l Hl. apply in_map_iff in Hl. destruct Hl as (i & <- & Hi).
        apply in_seq in Hi. rewrite !has_label_lookup.
        subst _index y_data.
        rewrite <- (length_map index df) at 1.
        rewrite lookup_skipn_rows, lookup_dropna.
        destruct (Nat.leb_spec w i); [lia|].
        pose proof (@nth_error_warmup w vs i Hv ltac:(lia)) as E.
        fold IND in E. destruct (nth_error IND i) as [x|]; [|reflexivity].
        destruct (Nat.leb_spec w i); [lia|]. now rewrite E. }
    simpl. rewrite (filter_ext_in _ (fun _ => true)), filter_true; [reflexivity|].
    intros l Hl. apply in_map_iff in Hl. destruct Hl as (i & <- & Hi).
    apply in_seq in Hi. rewrite !has_label_lookup. subst _index.
    rewrite <- (length_map index df) at 1. rewrite lookup_skipn_rows.
    destruct (Nat.leb_spec w i); [|lia].
    destruct (nth_error (map index df) i) eqn:E; [reflexivity|].
    apply nth_error_None in E. rewrite length_map in E. lia. }
  unfold RSI.frame, RSI.col_data. rewrite HP, !map_map. cbn [snd].
  rewrite <- (map_lookup_suffix vs Hv (repeat NaN w)), repeat_length.
  apply map_ext. intros i. subst y_data. now rewrite lookup_dropna.
Qed.

(** X15. When the values [rsi] returns are missing on a prefix of the input
    and nowhere else (the warm-up of the average), the table
    [RSI.calculate] returns is the index of the last rows of the input
    beside the values rounded to six decimals, row by row: one row for
    every value, every index cell present, no value missing. *)
Theorem warm_up_gaps_give_the_last_rows
    (ma : string -> list float64 -> Z -> list float64) (df : list Candle)
    (source : string) (length : Z) (mamode : string) (drift offset : Z)
    (close_ : list float64) (w : nat) (vs : list float64) :
  column source df = Ret close_ ->
  RSI.rsi ma close_ length mamode drift offset = Some (repeat NaN w ++ vs) ->
  forallb notna vs = true ->
  (w + List.length vs)%nat = List.length df ->
  RSI.calculate ma df source length mamode drift offset
    = Ret (combine (map Some (skipn w (idxs df))) (map round6 vs)).
Proof.
  intros Hc Hr Hv Hn.
  destruct (RSI_calculate_aligned ma df source length mamode drift offset
              w vs Hc Hr Hv Hn) as (R & ER & HA & HL).
  destruct (RSI_calculate_warm_up_data ma df source length mamode drift offset
              w vs Hc Hr Hv Hn) as (R' & ER' & HD).
  rewrite ER in ER'. injection ER' as <-.
  rewrite ER. f_equal.
  apply aligned_skipn in HA. rewrite HL in HA.
  replace (List.length df - List.length vs)%nat with w in HA by lia.
  rewrite <- HA, <- HD. unfold RSI.col_index, RSI.col_data.
  clear. induction R as [|[i v] R IH]; [reflexivity|]. simpl. now f_equal.
Qed.

Lemma warm_up_gaps_give_the_last_rows_witness :
  column "close" table_moving = Ret (map close table_moving) /\
  RSI.rsi rma (map close table_moving) 2 "rma" 1 0
    = Some (repeat NaN 2 ++ moving_values) /\
  forallb notna moving_values = true /\
  (2 + List.length moving_values)%nat = List.length table_moving /\
  RSI.calculate rma table_moving "close" 2 "rma" 1 0
    = Ret (combine (map Some (skipn 2 (idxs table_moving)))
                   (map round6 moving_values)).
Proof.
  assert (H1 : column "close" table_moving = Ret (map close table_moving))
    by reflexivity.
  assert (H2 : RSI.rsi rma (map close table_moving) 2 "rma" 1 0
               = Some (repeat NaN 2 ++ moving_values))
    by (vm_compute; reflexivity).
  assert (H3 : forallb notna moving_values = true) by (vm_compute; reflexivity).
  assert (H4 : (2 + List.length moving_values)%nat = List.length table_moving)
    by (vm_compute; reflexivity).
  exact (conj H1 (conj H2 (conj H3 (conj H4
           (@warm_up_gaps_give_the_last_rows rma table_moving "close"%string 2
              "rma"%string 1 0 (map close table_moving) 2%nat moving_values
              H1 H2 H3 H4))))).
Defined.

(** ** The MACD function and the handlers that call it *)

(** X16. [macd] orders its two periods itself: with positive periods,
    giving them in the other order returns the same table. *)
Theorem macd_orders_its_periods
    (ma : string -> list float64 -> Z -> list float64)
    (close_ : list float64) (a b signal : Z) (mamode : string) (offset : Z) :
  0 < a -> 0 < b ->
  MACD.macd ma close_ a b signal mamode offset
    = MACD.macd ma close_ b a signal mamode offset.
Proof.
  intros Ha Hb. unfold MACD.macd, v_pos_default.
  assert (Ea : (0 <? a) = true) by now apply Z.ltb_lt.
  assert (Eb : (0 <? b) = true) by now apply Z.ltb_lt.
  rewrite Ea, Eb.
  destruct (b <? a) eqn:E1; destruct (a <? b) eqn:E2; try reflexivity.
  - apply Z.ltb_lt in E1, E2. lia.
  - apply Z.ltb_ge in E1, E2. assert (a = b) by lia. subst b. reflexivity.
Qed.

Lemma macd_orders_its_periods_witness :
  0 < 2 /\ 0 < 3 /\
  MACD.macd rma macd_close 2 3 2 "rma" 0 = MACD.macd rma macd_close 3 2 2 "rma" 0.
Proof.
  assert (H1 : 0 < 2) by reflexivity.
  assert (H2 : 0 < 3) by reflexivity.
  exact (conj H1 (conj H2
           (@macd_orders_its_periods rma macd_close 2 3 2 "rma"%string 0 H1 H2))).
Defined.

Lemma MACD_add_cases (ma : string -> list float64 -> Z -> list float64)
    (table cs : list Candle) (s : MACD.t) :
  let s' := exec (MACD.add ma table cs) s in
  (MACD_series s' = MACD_series s /\ MACD.emitted s' = MACD.emitted s /\
   MACD.started s' = MACD.started s /\
   outcome (MACD.add ma table cs) s <> Ret tt \/
   MACD.first_gen s && negb (MACD.is_genering s) = false /\
   MACD_series s' = MACD_series s /\ MACD.emitted s' = MACD.emitted s /\
   MACD.started s' = MACD.started s) \/
  (exists cs0 c close_ m h g vm vh vg,
     cs = cs0 ++ [c] /\
     MACD.first_gen s && negb (MACD.is_genering s) = true /\
     column (MACD.source s)
            (candles_get_df (Some (MACD.slow_period s * 5)) table) = Ret close_ /\
     MACD.paire_data
       (MACD.macd ma close_ (MACD.fast_period s) (MACD.slow_period s)
                  (MACD.signal_period s) (MACD.mamode s) (MACD.offset s))
       = (m, h, g) /\
     iloc_last (MACD.values m) = Ret vm /\
     iloc_last (MACD.values h) = Ret vh /\
     iloc_last (MACD.values g) = Ret vg /\
     MACD.started s' = MACD.started s).
Proof.
  unfold MACD.add, MACD.add_update_calculate, MACD.emit, MACD_series. run.
  destruct (iloc_last cs) as [c|e] eqn:Ecs; run.
  2:{ left. left. repeat split. discriminate. }
  destruct (MACD.first_gen s && negb (MACD.is_genering s)) eqn:Er; run.
  2:{ left. right. repeat split. }
  destruct (column (MACD.source s) _) as [close_|e] eqn:Ec; run.
  2:{ left. left. repeat split. discriminate. }
  destruct (MACD.paire_data _) as [[m h] g] eqn:Ep. run.
  destruct (iloc_last (MACD.values m)) as [vm|] eqn:Em; run.
  2:{ left. left. repeat split. discriminate. }
  destruct (iloc_last (MACD.values h)) as [vh|] eqn:Eh; run.
  2:{ left. left. repeat split. discriminate. }
  destruct (iloc_last (MACD.values g)) as [vg|] eqn:Eg; run.
  2:{ left. left. repeat split. discriminate. }
  right. apply iloc_last_inv in Ecs as [cs0 ->].
  exists cs0, c, close_, m, h, g, vm, vh, vg. repeat split; assumption.
Qed.

Lemma MACD_update_cases (ma : string -> list float64 -> Z -> list float64)
    (table cs : list Candle) (s : MACD.t) :
  let s' := exec (MACD.update ma table cs) s in
  MACD.started s' = MACD.started s /\
  (MACD_series s' = MACD_series s /\ MACD.emitted s' = MACD.emitted s \/
   exists close_ m h g vm,
     MACD.first_gen s && negb (MACD.is_genering s) = true /\
     column (MACD.source s)
            (candles_get_df (Some (MACD.slow_period s * 5)) table) = Ret close_ /\
     MACD.paire_data
       (MACD.macd ma close_ (MACD.fast_period s) (MACD.slow_period s)
                  (MACD.signal_period s) (MACD.mamode s) (MACD.offset s))
       = (m, h, g) /\
     iloc_last (MACD.values m) = Ret vm).
Proof.
  unfold MACD.update, MACD.add_update_calculate, MACD.emit, MACD_series. run.
  destruct (iloc_last cs) as [c|e] eqn:Ecs; run;
    [|split; [reflexivity|left; split; reflexivity]].
  destruct (MACD.first_gen s && negb (MACD.is_genering s)) eqn:Er; run;
    [|split; [reflexivity|left; split; reflexivity]].
  destruct (column (MACD.source s) _) as [close_|e] eqn:Ec; run;
    [|split; [reflexivity|left; split; reflexivity]].
  destruct (MACD.paire_data _) as [[m h] g] eqn:Ep. run.
  destruct (iloc_last (MACD.values m)) as [vm|] eqn:Em; run;
    [|split; [reflexivity|left; split; reflexivity]].
  destruct (iloc_last (MACD.values h)) as [vh|]; run;
    [|split; [reflexivity|
              right; exists close_, m, h, g, vm; repeat split; assumption]].
  destruct (iloc_last (MACD.values g)) as [vg|]; run;
    [|split; [reflexivity|
              right; exists close_, m, h, g, vm; repeat split; assumption]].
  destruct (assign_last _ (MACD.df s)); run;
    [|split; [reflexivity|
              right; exists close_, m, h, g, vm; repeat split; assumption]].
  destruct (assign_last _ (MACD.xdata s)); run;
    [|split; [reflexivity|
              right; exists close_, m, h, g, vm; repeat split; assumption]].
  destruct (assign_last _ (MACD.macd_data s)); run;
    [|split; [reflexivity|
              right; exists close_, m, h, g, vm; repeat split; assumption]].
  destruct (assign_last _ (MACD.histogram s)); run;
    [|split; [reflexivity|
              right; exists close_, m, h, g, vm; repeat split; assumption]].
  destruct (assign_last _ (MACD.signalma s)); run;
    (split; [reflexivity|
             right; exists close_, m, h, g, vm; repeat split; assumption]).
Qed.

(** X17. [MACD.add] and [MACD.update] compute in the handler itself: in no
    state do they start a job.  While the engine is not ready they leave the
    table, the arrays and the notifications as they are, and with an empty
    batch of candles they raise [IndexError] before anything is changed. *)
Theorem MACD_tip_handlers_run_in_place
    (ma : string -> list float64 -> Z -> list float64)
    (table cs : list Candle) (s : MACD.t) :
  MACD.started (exec (MACD.add ma table cs) s) = MACD.started s /\
  MACD.started (exec (MACD.update ma table cs) s) = MACD.started s /\
  (MACD.first_gen s && negb (MACD.is_genering s) = false ->
   MACD_series (exec (MACD.add ma table cs) s) = MACD_series s /\
   MACD.emitted (exec (MACD.add ma table cs) s) = MACD.emitted s /\
   MACD_series (exec (MACD.update ma table cs) s) = MACD_series s /\
   MACD.emitted (exec (MACD.update ma table cs) s) = MACD.emitted s) /\
  exec (MACD.add ma table []) s = s /\
  outcome (MACD.add ma table []) s = Raise IndexError /\
  exec (MACD.update ma table []) s = s /\
  outcome (MACD.update ma table []) s = Raise IndexError.
Proof.
  pose proof (MACD_add_cases ma table cs s) as A. cbv zeta in A.
  pose proof (MACD_update_cases ma table cs s) as U. cbv zeta in U.
  destruct U as [U0 U].
  split; [|split; [exact U0|split]].
  - destruct A as [[(_ & _ & A & _)|(_ & _ & _ & A)]|A]; [exact A|exact A|].
    destruct A as (? & ? & ? & ? & ? & ? & ? & ? & ? & A). apply A.
  - intros Hr. split; [|split; [|split]].
    + destruct A as [[(A & _)|(_ & A & _)]|A]; [exact A|exact A|].
      destruct A as (? & ? & ? & ? & ? & ? & ? & ? & ? & _ & A & _). congruence.
    + destruct A as [[(_ & A & _)|(_ & _ & A & _)]|A]; [exact A|exact A|].
      destruct A as (? & ? & ? & ? & ? & ? & ? & ? & ? & _ & A & _). congruence.
    + destruct U as [[U _]|U]; [exact U|].
      destruct U as (? & ? & ? & ? & ? & U & _). congruence.
    + destruct U as [[_ U]|U]; [exact U|].
      destruct U as (? & ? & ? & ? & ? & U & _). congruence.
  - repeat split.
Qed.

Lemma MACD_tip_handlers_run_in_place_witness :
  MACD.first_gen (MACD.init pM) && negb (MACD.is_genering (MACD.init pM)) = false /\
  MACD_series (exec (MACD.add rma macd_table [candle 12 7]) (MACD.init pM))
    = MACD_series (MACD.init pM) /\
  MACD.emitted (exec (MACD.add rma macd_table [candle 12 7]) (MACD.init pM))
    = MACD.emitted (MACD.init pM).
Proof.
  assert (H : MACD.first_gen (MACD.init pM)
              && negb (MACD.is_genering (MACD.init pM)) = false) by reflexivity.
  pose proof (proj1 (proj2 (proj2
    (@MACD_tip_handlers_run_in_place rma macd_table [candle 12 7]
       (MACD.init pM)))) H) as T.
  exact (conj H (conj (proj1 T) (proj1 (proj2 T)))).
Defined.

(** X18. [MACD.update] replaces last elements only: in every state, for
    every candle table and every batch, also when it raises part-way, the
    table and the four arrays keep their length and every element but the
    last. *)
Theorem MACD_mutate_last_keeps_the_frame
    (ma : string -> list float64 -> Z -> list float64)
    (table cs : list Candle) (s : MACD.t) :
  let s' := exec (MACD.update ma table cs) s in
  List.length (MACD.df s') = List.length (MACD.df s) /\
  List.length (MACD.xdata s') = List.length (MACD.xdata s) /\
  List.length (MACD.macd_data s') = List.length (MACD.macd_data s) /\
  List.length (MACD.histogram s') = List.length (MACD.histogram s) /\
  List.length (MACD.signalma s') = List.length (MACD.signalma s) /\
  removelast (MACD.df s') = removelast (MACD.df s) /\
  removelast (MACD.xdata s') = removelast (MACD.xdata s) /\
  removelast (MACD.macd_data s') = removelast (MACD.macd_data s) /\
  removelast (MACD.histogram s') = removelast (MACD.histogram s) /\
  removelast (MACD.signalma s') = removelast (MACD.signalma s).
Proof.
  unfold MACD.update, MACD.add_update_calculate, MACD.emit. run.
  destruct (iloc_last cs) as [c|]; run; [|tauto].
  destruct (MACD.first_gen s && negb (MACD.is_genering s)); run; [|tauto].
  destruct (column _ _) as [close_|]; run; [|tauto].
  destruct (MACD.paire_data _) as [[m h] g]. run.
  destruct (iloc_last (MACD.values m)) as [vm|]; run; [|tauto].
  destruct (iloc_last (MACD.values h)) as [vh|]; run; [|tauto].
  destruct (iloc_last (MACD.values g)) as [vg|]; run; [|tauto].
  destruct (assign_last (MACD.mkRow (Some (index c)) vm vh vg) (MACD.df s))
    as [d|] eqn:Ed; run; [|tauto].
  destruct (assign_last_frame _ _ Ed) as (Ld & Rd & _).
  destruct (assign_last (Some (index c)) (MACD.xdata s)) as [x|] eqn:Ex;
    run; [|tauto].
  destruct (assign_last_frame _ _ Ex) as (Lx & Rx & _).
  destruct (assign_last vm (MACD.macd_data s)) as [y1|] eqn:E1; run; [|tauto].
  destruct (assign_last_frame _ _ E1) as (L1 & R1 & _).
  destruct (assign_last vh (MACD.histogram s)) as [y2|] eqn:E2; run; [|tauto].
  destruct (assign_last_frame _ _ E2) as (L2 & R2 & _).
  destruct (assign_last vg (MACD.signalma s)) as [y3|] eqn:E3; run; [|tauto].
  destruct (assign_last_frame _ _ E3) as (L3 & R3 & _).
  tauto.
Qed.

(** ** A signal period the window cannot hold *)

Lemma length_tail_le {A} (n : Z) (l : list A) :
  0 <= n -> Z.of_nat (List.length (tail n l)) <= n.
Proof.
  intros Hn. unfold tail.
  assert (E : (n <? 0) = false) by (apply Z.ltb_ge; lia).
  rewrite E, length_skipn. lia.
Qed.

Lemma macd_short_series (ma : string -> list float64 -> Z -> list float64)
    (close_ : list float64) (fast slow signal : Z) (mamode : string)
    (offset : Z) :
  0 < slow -> 0 < signal ->
  Z.of_nat (List.length close_) < slow + signal - 1 ->
  MACD.macd ma close_ fast slow signal mamode offset = None.
Proof.
  intros Hs Hg Hl. unfold MACD.macd, v_pos_default.
  assert (Es : (0 <? slow) = true) by now apply Z.ltb_lt.
  assert (Eg : (0 <? signal) = true) by now apply Z.ltb_lt.
  rewrite Es, Eg.
  set (fast' := if 0 <? fast then fast else 12).
  destruct (slow <? fast') eqn:E.
  - apply Z.ltb_lt in E. unfold v_series.
    assert (E' : (fast' + signal - 1 <=? Z.of_nat (List.length close_)) = false)
      by (apply Z.leb_gt; lia).
    now rewrite E'.
  - unfold v_series.
    assert (E' : (slow + signal - 1 <=? Z.of_nat (List.length close_)) = false)
      by (apply Z.leb_gt; lia).
    now rewrite E'.
Qed.

(** X19. The tip handlers of MACD compute over the last [5 * slow_period]
    candles, and [macd] asks for [slow + signal - 1] rows: with a signal
    period above [4 * slow_period + 1] the window is too short whatever the
    candle table holds, so that [MACD.add] never appends a row and
    [MACD.update] never changes one, and neither emits a notification. *)
Theorem MACD_signal_longer_than_the_window
    (ma : string -> list float64 -> Z -> list float64)
    (table cs : list Candle) (s : MACD.t) :
  0 < MACD.slow_period s ->
  4 * MACD.slow_period s + 1 < MACD.signal_period s ->
  MACD_series (exec (MACD.add ma table cs) s) = MACD_series s /\
  MACD.emitted (exec (MACD.add ma table cs) s) = MACD.emitted s /\
  MACD_series (exec (MACD.update ma table cs) s) = MACD_series s /\
  MACD.emitted (exec (MACD.update ma table cs) s) = MACD.emitted s.
Proof.
  intros Hs Hg.
  assert (N : forall close_,
    column (MACD.source s)
           (candles_get_df (Some (MACD.slow_period s * 5)) table) = Ret close_ ->
    MACD.paire_data
      (MACD.macd ma close_ (MACD.fast_period s) (MACD.slow_period s)
                 (MACD.signal_period s) (MACD.mamode s) (MACD.offset s))
    = ([], [], [])).
  { intros close_ Hc. apply length_column in Hc.
    rewrite macd_short_series; [reflexivity|lia|lia|].
    rewrite Hc. unfold candles_get_df.
    pose proof (@length_tail_le Candle (MACD.slow_period s * 5) table
                  ltac:(lia)). lia. }
  pose proof (MACD_add_cases ma table cs s) as A. cbv zeta in A.
  pose proof (MACD_update_cases ma table cs s) as U. cbv zeta in U.
  destruct U as [_ U].
  assert (A' : MACD_series (exec (MACD.add ma table cs) s) = MACD_series s /\
               MACD.emitted (exec (MACD.add ma table cs) s) = MACD.emitted s).
  { destruct A as [[(A1 & A2 & _)|(_ & A1 & A2 & _)]|A]; [now split|now split|].
    destruct A as (? & ? & close_ & m & ? & ? & vm & ? & ? & _ & _ & Hc & Hp
                   & Hm & _).
    rewrite (N _ Hc) in Hp. injection Hp as <- <- <-. discriminate. }
  assert (U' : MACD_series (exec (MACD.update ma table cs) s) = MACD_series s /\
               MACD.emitted (exec (MACD.update ma table cs) s) = MACD.emitted s).
  { destruct U as [U|U]; [exact U|].
    destruct U as (close_ & m & ? & ? & vm & _ & Hc & Hp & Hm).
    rewrite (N _ Hc) in Hp. injection Hp as <- <- <-. discriminate. }
  tauto.
Qed.

Lemma MACD_signal_longer_than_the_window_witness :
  0 < MACD.slow_period macd_long_signal /\
  4 * MACD.slow_period macd_long_signal + 1 < MACD.signal_period macd_long_signal /\
  MACD_series (exec (MACD.add rma macd_table [candle 12 7]) macd_long_signal)
    = MACD_series macd_long_signal.
Proof.
  assert (H1 : 0 < MACD.slow_period macd_long_signal) by reflexivity.
  assert (H2 : 4 * MACD.slow_period macd_long_signal + 1
               < MACD.signal_period macd_long_signal) by reflexivity.
  exact (conj H1 (conj H2
           (proj1 (@MACD_signal_longer_than_the_window rma macd_table
                     [candle 12 7] macd_long_signal H1 H2)))).
Defined.

(** ** When the MACD calculation returns *)

(** X20. [MACD.calculate] returns a table exactly when the source names a
    column of the candle table ([index], [open], [high], [low], [close] or
    [volume]) and the input has at least [max(fast, slow) + signal - 1]
    rows (each period replaced by its default, 12, 26 and 9, when it is not
    positive); it raises [KeyError] for any other name and
    [AttributeError] for a shorter input.  The three columns [macd] names
    are always found. *)
Theorem MACD_calculate_returns_exactly_when
    (ma : string -> list float64 -> Z -> list float64) (df : list Candle)
    (source : string) (fast slow signal : Z) (mamode : string) (offset : Z) :
  let rows :=
    Z.max (v_pos_default fast 12) (v_pos_default slow 26)
      + v_pos_default signal 9 - 1 in
  match MACD.calculate ma df source fast slow signal mamode offset with
  | Ret _ =>
      (exists xs, column source df = Ret xs) /\
      rows <= Z.of_nat (List.length df)
  | Raise e =>
      (e = KeyError /\ column source df = Raise KeyError) \/
      (e = AttributeError /\ (exists xs, column source df = Ret xs) /\
       Z.of_nat (List.length df) < rows)
  end /\
  (column source df = Raise KeyError <->
   ~ In source ["index"; "open"; "high"; "low"; "close"; "volume"]%string).
Proof.
  intros rows. split; [|apply column_KeyError_iff].
  unfold MACD.calculate.
  destruct (column source df) as [close_|e] eqn:Ec.
  2:{ left. apply column_raises_KeyError in Ec as ->. now split. }
  pose proof (length_column _ _ Ec) as Hl.
  unfold MACD.macd.
  set (f := v_pos_default fast 12) in *. set (sl := v_pos_default slow 26) in *.
  set (g := v_pos_default signal 9) in *.
  assert (Hrows : (let '(_, slow') := if sl <? f then (sl, f) else (f, sl) in
                   slow' + g - 1) = rows).
  { unfold rows. destruct (sl <? f) eqn:E.
    - apply Z.ltb_lt in E. lia.
    - apply Z.ltb_ge in E. lia. }
  destruct (if sl <? f then (sl, f) else (f, sl)) as [fast' slow'].
  unfold v_series. rewrite Hl, Hrows.
  destruct (rows <=? Z.of_nat (List.length df)) eqn:E.
  - apply Z.leb_le in E. cbn. split; [now exists close_|exact E].
  - apply Z.leb_gt in E. right. split; [reflexivity|].
    split; [now exists close_|exact E].
Qed.

(** ** The completions of the KC engine *)

Lemma KC_callback_add_appends (s : KC.t) (R0 : KC.DataFrame) (row : KC.Row) :
  let s' := exec (KC.callback_add (Ret (R0 ++ [row]))) s in
  KC.df s' = KC.df s ++ [row] /\
  KC.xdata s' = KC.xdata s ++ [KC.r_index row] /\
  KC.lb s' = KC.lb s ++ [KC.r_lb row] /\
  KC.cb s' = KC.cb s ++ [KC.r_cb row] /\
  KC.ub s' = KC.ub s ++ [KC.r_ub row] /\
  KC.emitted s' = KC.emitted s ++ [sig_add_candle] /\
  KC.first_gen s' = KC.first_gen s /\
  KC.is_genering s' = KC.is_genering s.
Proof.
  unfold KC.callback_add, KC.emit. run.
  rewrite !map_app. simpl. rewrite !iloc_last_app. run.
  destruct row. repeat split.
Qed.

Lemma KC_callback_add_nothing (s : KC.t) (fut : KC.Future) :
  (forall R0 row, fut <> Ret (R0 ++ [row])) ->
  exec (KC.callback_add fut) s = s.
Proof.
  intros H. destruct fut as [R|e]; [|reflexivity].
  destruct R as [|row R0 _] using rev_ind; [reflexivity|].
  now destruct (H R0 row).
Qed.

Lemma KC_callback_add_cases (s : KC.t) (fut : KC.Future) :
  let s' := exec (KC.callback_add fut) s in
  s' = s \/
  (exists R0 row,
     fut = Ret (R0 ++ [row]) /\
     KC.df s' = KC.df s ++ [row] /\
     KC.xdata s' = KC.xdata s ++ [KC.r_index row] /\
     KC.lb s' = KC.lb s ++ [KC.r_lb row] /\
     KC.cb s' = KC.cb s ++ [KC.r_cb row] /\
     KC.ub s' = KC.ub s ++ [KC.r_ub row] /\
     KC.emitted s' = KC.emitted s ++ [sig_add_candle]).
Proof.
  intros s'. subst s'. destruct fut as [R|e]; [|now left].
  destruct R as [|row R0 _] using rev_ind; [now left|].
  right. exists R0, row. split; [reflexivity|].
  pose proof (KC_callback_add_appends s R0 row) as H. cbv zeta in H.
  tauto.
Qed.

(** X21. The completion of an append of the KC engine is all or nothing:
    with a result that has rows, the table and the four arrays each get
    the values of its last row at their end and [sig_add_candle] is emitted
    once; with a failed job or an empty result the object is left as it
    was. *)
Theorem KC_append_is_all_or_nothing (s : KC.t) (fut : KC.Future) :
  let s' := exec (KC.callback_add fut) s in
  s' = s \/
  (exists R0 row,
     fut = Ret (R0 ++ [row]) /\
     KC.df s' = KC.df s ++ [row] /\
     KC.xdata s' = KC.xdata s ++ [KC.r_index row] /\
     KC.lb s' = KC.lb s ++ [KC.r_lb row] /\
     KC.cb s' = KC.cb s ++ [KC.r_cb row] /\
     KC.ub s' = KC.ub s ++ [KC.r_ub row] /\
     KC.emitted s' = KC.emitted s ++ [sig_add_candle]).
Proof.
  intros s'. subst s'. destruct fut as [R|e]; [|now left].
  destruct R as [|row R0 _] using rev_ind; [now left|].
  right. exists R0, row. split; [reflexivity|].
  pose proof (KC_callback_add_appends s R0 row) as H. cbv zeta in H.
  tauto.
Qed.

Lemma KC_callback_first_gen_installs (s : KC.t) (R : KC.DataFrame) :
  let s' := exec (KC.callback_first_gen (Ret R)) s in
  KC.df s' = R /\
  KC.xdata s' = map KC.r_index R /\
  KC.lb s' = map KC.r_lb R /\
  KC.cb s' = map KC.r_cb R /\
  KC.ub s' = map KC.r_ub R /\
  KC.first_gen s' = true /\
  KC.is_genering s' = false /\
  KC.emitted s' = KC.emitted s ++ [sig_reset_all].
Proof.
  unfold KC.callback_first_gen, KC.emit. run.
  destruct (KC.first_gen s) eqn:E; run; repeat split; assumption.
Qed.

(** X22. Every completion of the KC engine modelled here (full
    regeneration, append, mutate-last), with any future, keeps the three
    band arrays as long as the index array; a completed full regeneration
    establishes it from any state, and leaves the engine ready with one
    [sig_reset_all] emitted. *)
Theorem KC_band_lengths_are_kept (s : KC.t) (fut : KC.Future) :
  (KC_parity s ->
   KC_parity (exec (KC.callback_first_gen fut) s) /\
   KC_parity (exec (KC.callback_add fut) s) /\
   KC_parity (exec (KC.callback_update fut) s)) /\
  (forall R,
     let s' := exec (KC.callback_first_gen (Ret R)) s in
     KC_parity s' /\
     List.length (KC.xdata s') = List.length R /\
     KC.first_gen s' = true /\ KC.is_genering s' = false /\
     KC.emitted s' = KC.emitted s ++ [sig_reset_all]).
Proof.
  assert (G : forall R, KC_parity (exec (KC.callback_first_gen (Ret R)) s)).
  { intros R. pose proof (KC_callback_first_gen_installs s R) as H.
    cbv zeta in H. destruct H as (_ & Ex & El & Ec & Eu & _).
    unfold KC_parity. rewrite Ex, El, Ec, Eu, !length_map. now repeat split. }
  split.
  - intros P. split; [|split].
    + destruct fut as [R|e]; [apply G|exact P].
    + pose proof (KC_callback_add_cases s fut) as H. cbv zeta in H.
      destruct H as [-> | (R0 & row & _ & _ & Ex & El & Ec & Eu & _)];
        [exact P|].
      destruct P as (P1 & P2 & P3). unfold KC_parity.
      rewrite Ex, El, Ec, Eu, !length_app. simpl. lia.
    + pose proof (KC_callback_update_frame s fut) as H. cbv zeta in H.
      destruct H as (_ & Lx & Ll & Lc & Lu & _).
      destruct P as (P1 & P2 & P3). unfold KC_parity. lia.
  - intros R s'. split; [apply G|].
    pose proof (KC_callback_first_gen_installs s R) as H. cbv zeta in H.
    fold s' in H. destruct H as (_ & Ex & _ & _ & _ & Ef & Eg & Ee).
    rewrite Ex, length_map. now repeat split.
Qed.

Lemma KC_band_lengths_are_kept_witness :
  KC_parity ready_kc /\
  KC_parity
    (exec (KC.callback_add (Ret [KC.mkRow (Some 2) (Fin 3) (Fin 4) (Fin 5)]))
          ready_kc).
Proof.
  assert (H : KC_parity ready_kc) by (repeat split).
  exact (conj H
          (proj1 (proj2
             (proj1 (KC_band_lengths_are_kept ready_kc
                       (Ret [KC.mkRow (Some 2) (Fin 3) (Fin 4) (Fin 5)])) H)))).
Defined.

(** ** The row an append leaves *)

Lemma tail_app_recent {A} (n : Z) (older l : list A) :
  0 < n <= Z.of_nat (List.length l) -> tail n (older ++ l) = tail n l.
Proof.
  intros Hn. unfold tail.
  assert (E : (n <? 0) = false) by (apply Z.ltb_ge; lia). rewrite E.
  rewrite length_app, skipn_app.
  rewrite skipn_all2 by lia. simpl. f_equal. lia.
Qed.


(** X23. The row an append adds is the row the table queries return next:
    after [MACD.add] has appended, [get_last_row_df] returns the row made of
    the new candle's index and the last computed values, and [get_df(1)]
    the table of that one row; after the completion of an append of the KC
    engine, [get_last_row_df] returns the last row of the result. *)
Theorem appended_row_is_the_last_row :
  (forall (ma : string -> list float64 -> Z -> list float64)
          (table cs : list Candle) (c : Candle) (s : MACD.t)
          (close_ : list float64) (m h g : list (Z * float64))
          (vm vh vg : float64),
     MACD.first_gen s = true ->
     MACD.is_genering s = false ->
     column (MACD.source s)
            (candles_get_df (Some (MACD.slow_period s * 5)) table) = Ret close_ ->
     MACD.paire_data
       (MACD.macd ma close_ (MACD.fast_period s) (MACD.slow_period s)
                  (MACD.signal_period s) (MACD.mamode s) (MACD.offset s))
       = (m, h, g) ->
     iloc_last (MACD.values m) = Ret vm ->
     iloc_last (MACD.values h) = Ret vh ->
     iloc_last (MACD.values g) = Ret vg ->
     let s' := exec (MACD.add ma table (cs ++ [c])) s in
     MACD.get_last_row_df s' = Ret (MACD.mkRow (Some (index c)) vm vh vg) /\
     MACD.get_df (Some 1) s' = [MACD.mkRow (Some (index c)) vm vh vg]) /\
  (forall (s : KC.t) (R0 : KC.DataFrame) (row : KC.Row),
     KC.get_last_row_df (exec (KC.callback_add (Ret (R0 ++ [row]))) s)
       = Ret row).
Proof.
  split.
  - intros ma table cs c s close_ m h g vm vh vg Hf Hg Hc Hp Hm Hh Hs s'.
    pose proof (MACD_add_appends ma table cs c s Hf Hg Hc Hp Hm Hh Hs) as H.
    cbv zeta in H. fold s' in H. destruct H as (Ed & _).
    unfold MACD.get_last_row_df, MACD.get_df. rewrite Ed.
    split; [apply iloc_last_app|].
    change (1 =? 0) with false. cbv iota.
    rewrite tail_app_recent by (simpl; lia). reflexivity.
  - intros s R0 row.
    pose proof (KC_callback_add_appends s R0 row) as H. cbv zeta in H.
    destruct H as (Ed & _). unfold KC.get_last_row_df.
    etransitivity; [exact (f_equal (@iloc_last _) Ed)|]. apply iloc_last_app.
Qed.

Lemma appended_row_is_the_last_row_witness :
  MACD.first_gen ready_macd = true /\
  MACD.is_genering ready_macd = false /\
  MACD.get_last_row_df
    (exec (MACD.add rma macd_table ([] ++ [candle 12 7])) ready_macd)
  = Ret (MACD.mkRow (Some (index (candle 12 7))) macd_vm macd_vh macd_vg).
Proof.
  assert (H1 : MACD.first_gen ready_macd = true) by (vm_compute; reflexivity).
  assert (H2 : MACD.is_genering ready_macd = false) by (vm_compute; reflexivity).
  assert (H3 : column (MACD.source ready_macd)
                 (candles_get_df (Some (MACD.slow_period ready_macd * 5))
                                 macd_table) = Ret macd_close)
    by (vm_compute; reflexivity).
  assert (H4 : MACD.paire_data
                 (MACD.macd rma macd_close (MACD.fast_period ready_macd)
                    (MACD.slow_period ready_macd)
                    (MACD.signal_period ready_macd) (MACD.mamode ready_macd)
                    (MACD.offset ready_macd)) = (macd_m, macd_h, macd_g))
    by (vm_compute; reflexivity).
  assert (H5 : iloc_last (MACD.values macd_m) = Ret macd_vm)
    by (vm_compute; reflexivity).
  assert (H6 : iloc_last (MACD.values macd_h) = Ret macd_vh)
    by (vm_compute; reflexivity).
  assert (H7 : iloc_last (MACD.values macd_g) = Ret macd_vg)
    by (vm_compute; reflexivity).
  exact (conj H1 (conj H2
    (proj1 (proj1 appended_row_is_the_last_row rma macd_table [] (candle 12 7)
                  ready_macd macd_close macd_m macd_h macd_g
                  macd_vm macd_vh macd_vg H1 H2 H3 H4 H5 H6 H7)))).
Defined.

(** ** A new input for the MACD engine *)

(** X24. [MACD.change_input] with new parameters starts one full
    regeneration on the whole candle table with those parameters (the
    offset read from the key of the difference period, 0 when it is
    absent) and empties the table; [first_gen] is cleared, so that until
    the job completes [MACD.add] and [MACD.update] leave the table, the arrays
    and the notifications as they are. *)
Theorem MACD_change_input_restarts_generation
    (ma : string -> list float64 -> Z -> list float64)
    (table : list Candle) (p : MACD.Params) (s : MACD.t) :
  let s' := exec (MACD.change_input table (Some p)) s in
  MACD.started s' =
    MACD.started s ++
      [MACD.mkJob cb_first_gen table (MACD.p_source p) (MACD.p_fast_period p)
                  (MACD.p_slow_period p) (MACD.p_signal_period p)
                  (MACD.p_mamode p)
                  (match MACD.p_drift p with Some d => d | None => 0 end)] /\
  MACD.first_gen s' = false /\
  MACD.is_genering s' = true /\
  MACD.df s' = [] /\
  MACD.xdata s' = MACD.xdata s /\
  MACD.emitted s' = MACD.emitted s /\
  (forall table' cs,
     MACD_series (exec (MACD.add ma table' cs) s') = MACD_series s' /\
     MACD.emitted (exec (MACD.add ma table' cs) s') = MACD.emitted s /\
     MACD_series (exec (MACD.update ma table' cs) s') = MACD_series s' /\
     MACD.emitted (exec (MACD.update ma table' cs) s') = MACD.emitted s).
Proof.
  intros s'.
  assert (E : s' =
    MACD.mk (MACD.p_source p) (MACD.p_slow_period p) (MACD.p_fast_period p)
      (MACD.p_signal_period p) (MACD.p_mamode p)
      (match MACD.p_drift p with Some d => d | None => 0 end)
      false true false (MACD.is_histocric_load s) [] (MACD.xdata s)
      (MACD.macd_data s) (MACD.histogram s) (MACD.signalma s) (MACD.emitted s)
      (MACD.started s ++
        [MACD.mkJob cb_first_gen table (MACD.p_source p) (MACD.p_fast_period p)
           (MACD.p_slow_period p) (MACD.p_signal_period p) (MACD.p_mamode p)
           (match MACD.p_drift p with Some d => d | None => 0 end)])).
  { reflexivity. }
  assert (Hr : MACD.first_gen s' && negb (MACD.is_genering s') = false)
    by (rewrite E; reflexivity).
  assert (Ee : MACD.emitted s' = MACD.emitted s) by (rewrite E; reflexivity).
  repeat (split; [rewrite E; reflexivity|]).
  intros table' cs.
  pose proof (MACD_add_cases ma table' cs s') as A. cbv zeta in A.
  pose proof (MACD_update_cases ma table' cs s') as U. cbv zeta in U.
  destruct U as [_ U]. rewrite <- Ee.
  split; [|split; [|split]].
  - destruct A as [[(A & _)|(_ & A & _)]|A]; [exact A|exact A|].
    destruct A as (? & ? & ? & ? & ? & ? & ? & ? & ? & _ & A & _). congruence.
  - destruct A as [[(_ & A & _)|(_ & _ & A & _)]|A]; [exact A|exact A|].
    destruct A as (? & ? & ? & ? & ? & ? & ? & ? & ? & _ & A & _). congruence.
  - destruct U as [[U _]|U]; [exact U|].
    destruct U as (? & ? & ? & ? & ? & U & _). congruence.
  - destruct U as [[_ U]|U]; [exact U|].
    destruct U as (? & ? & ? & ? & ? & U & _). congruence.
Qed.

(** ** What a historic load leaves in view *)

Lemma slice_from_app_recent {A} (n : Z) (older l : list A) :
  0 < n <= Z.of_nat (List.length l) ->
  slice (Some (- n)) None (older ++ l) = slice (Some (- n)) None l.
Proof.
  intros Hn. unfold slice, slice_bounds, adjust_index.
  assert (E : (- n <? 0) = true) by (apply Z.ltb_lt; lia). rewrite E.
  rewrite length_app, Nat2Z.inj_add.
  rewrite !Z.max_r by lia.
  rewrite !firstn_all2 by (rewrite length_skipn; try rewrite length_app; lia).
  rewrite skipn_app, skipn_all2 by lia. simpl. f_equal. lia.
Qed.

(** X25. A completed historic load leaves the recent rows in view: for
    [0 < n] up to the number of rows held before, [get_df(n)] returns the
    same table after the prepend as before, and [get_data(-n, 0)] the same
    two sequences. *)
Theorem historic_load_keeps_the_recent_rows
    (s : RSI.t) (R : RSI.DataFrame) (n : Z) :
  let s' := exec (RSI.callback_gen_historic_data (Ret R)) s in
  (0 < n <= Z.of_nat (List.length (RSI.df s)) ->
   RSI.get_df (Some n) s' = RSI.get_df (Some n) s) /\
  (0 < n <= Z.of_nat (List.length (RSI.xdata s)) ->
   RSI_parity s ->
   RSI.get_data (- n) 0 s' = RSI.get_data (- n) 0 s).
Proof.
  intros s'.
  pose proof (RSI_callback_historic_prepends s R) as H. cbv zeta in H.
  fold s' in H. destruct H as (Ed & Ex & Ey & _).
  split.
  - intros Hn. unfold RSI.get_df. rewrite Ed.
    assert (E : (n =? 0) = false) by (apply Z.eqb_neq; lia). rewrite E.
    now apply tail_app_recent.
  - intros Hn Hp. unfold RSI_parity in Hp. unfold RSI.get_data.
    rewrite Ex, Ey.
    assert (E0 : (- n =? 0) = false) by (apply Z.eqb_neq; lia).
    rewrite E0. simpl.
    assert (E1 : (List.length (RSI.col_index R ++ RSI.xdata s) =? 0)%nat = false).
    { apply Nat.eqb_neq. rewrite length_app. lia. }
    assert (E2 : (List.length (RSI.xdata s) =? 0)%nat = false).
    { apply Nat.eqb_neq. lia. }
    rewrite E1, E2.
    rewrite !slice_from_app_recent by lia. reflexivity.
Qed.

Lemma historic_load_keeps_the_recent_rows_witness :
  0 < 3 <= Z.of_nat (List.length (RSI.df (System.engine ready_system))) /\
  RSI.get_df (Some 3)
    (exec (RSI.callback_gen_historic_data (Ret historic_result))
          (System.engine ready_system))
  = RSI.get_df (Some 3) (System.engine ready_system).
Proof.
  assert (H : 0 < 3 <= Z.of_nat (List.length (RSI.df (System.engine ready_system))))
    by (vm_compute; split; [reflexivity|discriminate]).
  exact (conj H
          (proj1 (@historic_load_keeps_the_recent_rows
                    (System.engine ready_system) historic_result 3) H)).
Defined.

(** ** The window of an append *)

Lemma column_known (source : string) (df df' : list Candle) (xs : list float64) :
  column source df = Ret xs -> exists xs', column source df' = Ret xs'.
Proof.
  unfold column.
  repeat match goal with
         | |- context [if ?b then _ else _] =>
             destruct b; [intros _; eexists; reflexivity|]
         end.
  discriminate.
Qed.

Lemma length_tail_ge {A} (n k : Z) (l : list A) :
  0 <= k <= n -> k <= Z.of_nat (List.length l) ->
  k <= Z.of_nat (List.length (tail n l)).
Proof.
  intros Hk Hl. unfold tail.
  assert (E : (n <? 0) = false) by (apply Z.ltb_ge; lia).
  rewrite E, length_skipn. lia.
Qed.

Lemma RSI_window_job (ma : string -> list float64 -> Z -> list float64)
    (table : list Candle) (s : RSI.t) (xs : list float64) :
  0 < RSI.length s ->
  RSI.length s + 1 <= Z.of_nat (List.length table) ->
  column (RSI.source s) table = Ret xs ->
  exists R,
    RSI.calculate ma (candles_get_df (Some (RSI.length s * 5)) table)
      (RSI.source s) (RSI.length s) (RSI.mamode s) (RSI.drift s) (RSI.offset s)
    = Ret R.
Proof.
  intros Hl Ht Hc.
  pose proof (RSI_calculate_outcome ma
                (candles_get_df (Some (RSI.length s * 5)) table)
                (RSI.source s) (RSI.length s) (RSI.mamode s) (RSI.drift s)
                (RSI.offset s)) as H.
  destruct (RSI.calculate _ _ _ _ _ _ _) as [R|e]; [now exists R|].
  exfalso. destruct H as [[_ H]|(_ & _ & H)].
  - destruct (@column_known _ _ (candles_get_df (Some (RSI.length s * 5)) table)
                _ Hc) as [xs' Hx]. congruence.
  - unfold candles_get_df in H.
    pose proof (@length_tail_ge Candle (RSI.length s * 5) (RSI.length s + 1)
                  table ltac:(lia) Ht) as Hw.
    unfold v_pos_default in H.
    assert (E : (0 <? RSI.length s) = true) by now apply Z.ltb_lt.
    rewrite E in H. lia.
Qed.

(** X26. The window of an append or of a mutate-last, the last
    [5 * length] candles, is never too short for [rsi]: on a ready engine
    with a positive period, a known source column and a candle table of at
    least [length + 1] rows, the job the handler starts returns a table
    (with or without rows), it does not fail. *)
Theorem tip_window_is_long_enough
    (ma : string -> list float64 -> Z -> list float64)
    (table cs : list Candle) (c : Candle) (s : RSI.t) (xs : list float64) :
  ready s = true ->
  0 < RSI.length s ->
  RSI.length s + 1 <= Z.of_nat (List.length table) ->
  column (RSI.source s) table = Ret xs ->
  (exists j R,
     RSI.started (exec (RSI.add table (cs ++ [c])) s) = RSI.started s ++ [j] /\
     RSI.job_callback j = cb_add /\
     RSI.run_job ma j = Ret R) /\
  (exists j R,
     RSI.started (exec (RSI.update table (cs ++ [c])) s) = RSI.started s ++ [j] /\
     RSI.job_callback j = cb_update /\
     RSI.run_job ma j = Ret R).
Proof.
  intros Hr Hl Ht Hc.
  destruct (RSI_window_job ma table s Hl Ht Hc) as [R HR].
  split.
  - pose proof (RSI_add_submits table cs c s Hr) as H. cbv zeta in H.
    destruct H as (H & _). eexists. exists R.
    split; [exact H|]. split; [reflexivity|exact HR].
  - pose proof (RSI_update_submits table cs c s Hr) as H. cbv zeta in H.
    destruct H as (H & _). eexists. exists R.
    split; [exact H|]. split; [reflexivity|exact HR].
Qed.

Lemma tip_window_is_long_enough_witness :
  ready (System.engine ready_system) = true /\
  0 < RSI.length (System.engine ready_system) /\
  RSI.length (System.engine ready_system) + 1
    <= Z.of_nat (List.length table_moving) /\
  column (RSI.source (System.engine ready_system)) table_moving
    = Ret (map close table_moving) /\
  exists j R,
    RSI.started (exec (RSI.add table_moving ([] ++ [candle 5 6]))
                      (System.engine ready_system))
      = RSI.started (System.engine ready_system) ++ [j] /\
    RSI.job_callback j = cb_add /\
    RSI.run_job rma j = Ret R.
Proof.
  assert (H1 : ready (System.engine ready_system) = true)
    by (vm_compute; reflexivity).
  assert (H2 : 0 < RSI.length (System.engine ready_system))
    by (vm_compute; reflexivity).
  assert (H3 : RSI.length (System.engine ready_system) + 1
               <= Z.of_nat (List.length table_moving))
    by (vm_compute; discriminate).
  assert (H4 : column (RSI.source (System.engine ready_system)) table_moving
               = Ret (map close table_moving)) by (vm_compute; reflexivity).
  exact (conj H1 (conj H2 (conj H3 (conj H4
           (proj1 (@tip_window_is_long_enough rma table_moving [] (candle 5 6)
                     (System.engine ready_system) (map close table_moving)
                     H1 H2 H3 H4)))))).
Defined.

(** ** Who starts jobs and who emits *)

(** X27. The handlers and the completions of an [RSI] object divide the
    work: no handler ([fisrt_gen_data], [add_historic], [add], [update],
    [change_input], [change_source]) emits a notification or touches the two
    arrays, and no completion callback starts a job or changes a parameter,
    in any state and with any future. *)
Theorem handlers_start_jobs_and_completions_merge (c : RSI_call) (s : RSI.t) :
  let s' := exec (RSI_do c) s in
  match c with
  | call_callback _ _ =>
      RSI.started s' = RSI.started s /\
      RSI.source s' = RSI.source s /\ RSI.length s' = RSI.length s /\
      RSI.mamode s' = RSI.mamode s /\ RSI.drift s' = RSI.drift s /\
      RSI.offset s' = RSI.offset s
  | _ =>
      RSI.emitted s' = RSI.emitted s /\
      RSI.xdata s' = RSI.xdata s /\
      RSI.data s' = RSI.data s
  end.
Proof.
  destruct c as [table|table n|table cs|table cs|table p|table|cb fut];
    cbv zeta; cbn [RSI_do].
  - pose proof (RSI_fisrt_gen_data_submits table s) as H. cbv zeta in H. tauto.
  - pose proof (RSI_add_historic_submits table n s) as H. cbv zeta in H. tauto.
  - unfold RSI.add, RSI.start_process. run.
    destruct (iloc_last cs); run; [|tauto].
    destruct (RSI.first_gen s && negb (RSI.is_genering s)); run; tauto.
  - unfold RSI.update, RSI.start_process. run.
    destruct (iloc_last cs); run; [|tauto].
    destruct (RSI.first_gen s && negb (RSI.is_genering s)); run; tauto.
  - unfold RSI.change_input, RSI.fisrt_gen_data, RSI.start_process.
    destruct p; run; tauto.
  - unfold RSI.change_source.
    pose proof (RSI_fisrt_gen_data_submits table s) as H. cbv zeta in H. tauto.
  - destruct fut as [R|e].
    2:{ rewrite (proj1 (RSI_callback_failed_job cb e s)). tauto. }
    destruct cb; cbn [RSI.callback].
    + unfold RSI.callback_first_gen, RSI.emit. run.
      destruct (RSI.first_gen s); run; tauto.
    + unfold RSI.callback_gen_historic_data, RSI.emit. run.
      destruct (RSI.first_gen s); run; tauto.
    + unfold RSI.callback_add, RSI.emit. run.
      destruct (iloc_last (RSI.col_index R)); run; [|tauto].
      destruct (iloc_last (RSI.col_data R)); run; tauto.
    + unfold RSI.callback_update, RSI.emit. run.
      destruct (iloc_last (RSI.col_index R)) as [i|]; run; [|tauto].
      destruct (iloc_last (RSI.col_data R)) as [v|]; run; [|tauto].
      destruct (assign_last (i, v) (RSI.df s)); run; [|tauto].
      destruct (assign_last i (RSI.xdata s)); run; [|tauto].
      destruct (assign_last v (RSI.data s)); run; tauto.
Qed.
